(** * owperf: latency and throughput measurement of OpenWhisk actions and rules

    A shallow embedding of the measurement engine of [owperf.js]: the
    sample model, the windowing and classification of samples
    ([processSample]), the running statistics ([updateLatSample]), the
    expansion of rule samples ([getActionSamplesOfRules]), the invocation
    loop ([mainLoop]), the aggregation at the master ([computeLatStats],
    [computeTpStats]) and the retry of the per-sample insert
    ([sql_insert_workersample]).

    Conventions of the embedding.
    - A JavaScript number that the program obtains from a clock, a counter
      or [parseInt] is an integer; it is a [Z].  A place that may also hold
      [undefined] or [NaN] is an [option Z], and [None] stands for both:
      arithmetic on either gives [NaN], every comparison with either is
      false, and both are falsy, which is all the program observes of them.
    - The quotients computed by the aggregation are IEEE doubles in the
      program; here they are exact rationals ([Q]), and a quotient by zero is
      the non-finite [NonFin] ([NaN] or an infinity).  [Math.sqrt] is kept
      symbolic, as the radicand it is applied to.
    - [mLog] only writes to stderr and is left out, except where the
      per-sample insert reports that it gives up. *)

From Stdlib Require Import ZArith QArith List String Bool Lia.
From Equations Require Import Equations.
Import ListNotations.

#[local] Open Scope Z_scope.

(** ** JavaScript values *)

(** An integer-valued number, or [undefined]/[NaN]. *)
Definition jsint : Type := option Z.

(** [a < b], false as soon as one side is not a number. *)
Definition js_lt (a b : jsint) : bool :=
  match a, b with
  | Some x, Some y => x <? y
  | _, _ => false
  end.

Definition js_gt (a b : jsint) : bool := js_lt b a.

Definition js_le (a b : jsint) : bool :=
  match a, b with
  | Some x, Some y => x <=? y
  | _, _ => false
  end.

Definition js_ge (a b : jsint) : bool := js_le b a.

Definition js_add (a b : jsint) : jsint :=
  match a, b with
  | Some x, Some y => Some (x + y)
  | _, _ => None
  end.

Definition js_sub (a b : jsint) : jsint :=
  match a, b with
  | Some x, Some y => Some (x - y)
  | _, _ => None
  end.

Definition js_mul (a b : jsint) : jsint :=
  match a, b with
  | Some x, Some y => Some (x * y)
  | _, _ => None
  end.

(** Truthiness of a number: [undefined], [NaN] and [0] are falsy. *)
Definition truthy (a : jsint) : bool :=
  match a with
  | Some x => negb (x =? 0)
  | None => false
  end.

(** [parseInt] of an integer-valued number is that number, and [NaN] on
    [undefined]. *)
Definition parseInt (a : jsint) : jsint := a.

(** An error value: the error object a rejected client call carries, or the
    string found in the [error] field of a bound-action log entry. *)
Inductive jserr : Type :=
| ErrObj (msg : string)
| ErrStr (s : string).

(** An object is truthy; a string is truthy unless it is empty. *)
Definition truthy_err (e : option jserr) : bool :=
  match e with
  | Some (ErrObj _) => true
  | Some (ErrStr s) => negb (String.eqb s EmptyString)
  | None => false
  end.

(** ** Data model *)

(** [measurementTime], initially [{start: -1, stop: -1}]. *)
Record TimeFrame : Type := mkTimeFrame { start : Z; stop : Z }.

Definition measurementTime0 : TimeFrame := {| start := -1; stop := -1 |}.

(** One element of [sampleData]: the object built by [invokeActions],
    [invokeRules] or [getActionSamplesOfRules].  A field that the object
    does not have is [None]. *)
Record Sample : Type := mkSample {
  bi : jsint;
  ai : jsint;
  taid : option string;
  taidError : option jserr;
  aaid : option string;
  aaidError : option jserr;
  ts : jsint
}.

(** A parsed entry of the [logs] of a trigger activation. *)
Record BoundActionRecord : Type := mkBoundActionRecord {
  success : bool;
  activationId : option string;
  error : option jserr
}.

(** A line of [logs]: [JSON.parse] returns a record or throws. *)
Inductive LogLine : Type :=
| Json (r : BoundActionRecord)
| Malformed.

(** An activation record as returned by [ow.activations.get]: [start],
    [end], [response.result.duration] and [logs].  The record is assumed to
    have a [response.result] object. *)
Record Activation : Type := mkActivation {
  act_start : jsint;
  act_end : jsint;
  act_duration : jsint;
  act_logs : list LogLine
}.

(** [tpCounters]. *)
Record tpCounters : Type := mkTp {
  attempts : Z;
  invocations : Z;
  activations : Z;
  requests : Z;
  errors : Z
}.

Definition tpCounters0 : tpCounters :=
  {| attempts := 0; invocations := 0; activations := 0; requests := 0; errors := 0 |}.

(** One entry of [latCounters]: [{sum, sumSqr, min, max}], each [undefined]
    until a value is folded in. *)
Record StatAccumulator : Type := mkAcc {
  a_sum : jsint;
  a_sumSqr : jsint;
  a_min : jsint;
  a_max : jsint
}.

Definition acc0 : StatAccumulator :=
  {| a_sum := None; a_sumSqr := None; a_min := None; a_max := None |}.

(** The keys of [latCounters]: ta, oea, oer, d, ad, ora, rtt, ortt. *)
Inductive StatName : Type := TA | OEA | OER | D | AD | ORA | RTT | ORTT.

Record latCounters : Type := mkLat {
  lat_ta : StatAccumulator;
  lat_oea : StatAccumulator;
  lat_oer : StatAccumulator;
  lat_d : StatAccumulator;
  lat_ad : StatAccumulator;
  lat_ora : StatAccumulator;
  lat_rtt : StatAccumulator;
  lat_ortt : StatAccumulator
}.

Definition latCounters0 : latCounters :=
  mkLat acc0 acc0 acc0 acc0 acc0 acc0 acc0 acc0.

(** [latCounters[statName]]. *)
Definition lat_get (statName : StatName) (l : latCounters) : StatAccumulator :=
  match statName with
  | TA => lat_ta l | OEA => lat_oea l | OER => lat_oer l | D => lat_d l
  | AD => lat_ad l | ORA => lat_ora l | RTT => lat_rtt l | ORTT => lat_ortt l
  end.

Definition lat_set (statName : StatName) (a : StatAccumulator) (l : latCounters)
  : latCounters :=
  match statName with
  | TA => mkLat a (lat_oea l) (lat_oer l) (lat_d l) (lat_ad l) (lat_ora l) (lat_rtt l) (lat_ortt l)
  | OEA => mkLat (lat_ta l) a (lat_oer l) (lat_d l) (lat_ad l) (lat_ora l) (lat_rtt l) (lat_ortt l)
  | OER => mkLat (lat_ta l) (lat_oea l) a (lat_d l) (lat_ad l) (lat_ora l) (lat_rtt l) (lat_ortt l)
  | D => mkLat (lat_ta l) (lat_oea l) (lat_oer l) a (lat_ad l) (lat_ora l) (lat_rtt l) (lat_ortt l)
  | AD => mkLat (lat_ta l) (lat_oea l) (lat_oer l) (lat_d l) a (lat_ora l) (lat_rtt l) (lat_ortt l)
  | ORA => mkLat (lat_ta l) (lat_oea l) (lat_oer l) (lat_d l) (lat_ad l) a (lat_rtt l) (lat_ortt l)
  | RTT => mkLat (lat_ta l) (lat_oea l) (lat_oer l) (lat_d l) (lat_ad l) (lat_ora l) a (lat_ortt l)
  | ORTT => mkLat (lat_ta l) (lat_oea l) (lat_oer l) (lat_d l) (lat_ad l) (lat_ora l) (lat_rtt l) a
  end.

(** The arguments of one call of [sql_insert_workersample] as the callee
    binds them: its third parameter [trycnt], then the thirteen columns
    [bi, as, ae, ts, ta, oea, oer, d, ad, ai, ora, rtt, ortt]. *)
Record InsertArgs : Type := mkInsertArgs {
  trycnt : jsint;
  row : list jsint
}.

(** Positional binding of the actual arguments that follow [db] and
    [expId]: a parameter with no actual argument is [undefined]. *)
Definition bind_params (actuals : list jsint) : InsertArgs :=
  {| trycnt := nth 0 actuals None;
     row := map (fun i => nth i actuals None) (seq 1 13) |}.

(** The part of a process that post-processing writes: [tpCounters],
    [latCounters], and the inserts handed to the database. *)
Record ProcState : Type := mkProc {
  tp : tpCounters;
  lat : latCounters;
  sqlCalls : list InsertArgs
}.

Definition ProcState0 : ProcState :=
  {| tp := tpCounters0; lat := latCounters0; sqlCalls := [] |}.

Definition with_tp (f : tpCounters -> tpCounters) (st : ProcState) : ProcState :=
  {| tp := f (tp st); lat := lat st; sqlCalls := sqlCalls st |}.

Definition with_lat (f : latCounters -> latCounters) (st : ProcState) : ProcState :=
  {| tp := tp st; lat := f (lat st); sqlCalls := sqlCalls st |}.

Definition incr_attempts (c : tpCounters) : tpCounters :=
  mkTp (attempts c + 1) (invocations c) (activations c) (requests c) (errors c).
Definition incr_invocations (c : tpCounters) : tpCounters :=
  mkTp (attempts c) (invocations c + 1) (activations c) (requests c) (errors c).
Definition incr_activations (c : tpCounters) : tpCounters :=
  mkTp (attempts c) (invocations c) (activations c + 1) (requests c) (errors c).
Definition incr_requests (c : tpCounters) : tpCounters :=
  mkTp (attempts c) (invocations c) (activations c) (requests c + 1) (errors c).
Definition incr_errors (c : tpCounters) : tpCounters :=
  mkTp (attempts c) (invocations c) (activations c) (requests c) (errors c + 1).

(** ** Running statistics *)

(** The body of [updateLatSample] after its guard, on the accumulator
    [latCounters[statName]]: a falsy [sum] or [sumSqr] is first set to 0, and
    a falsy [min] or [max] is replaced. *)
Definition updateAcc (value : jsint) (a : StatAccumulator) : StatAccumulator :=
  let sum0 := if negb (truthy (a_sum a)) then Some 0 else a_sum a in
  let sumSqr0 := if negb (truthy (a_sumSqr a)) then Some 0 else a_sumSqr a in
  {| a_sum := js_add sum0 value;
     a_sumSqr := js_add sumSqr0 (js_mul value value);
     a_min := if negb (truthy (a_min a)) || js_gt (a_min a) value
              then value else a_min a;
     a_max := if negb (truthy (a_max a)) || js_lt (a_max a) value
              then value else a_max a |}.

(** [updateLatSample(statName, value)]: [if (!value) return;] then the
    update. *)
Definition updateLatSample (statName : StatName) (value : jsint) (l : latCounters)
  : latCounters :=
  if negb (truthy value) then l
  else lat_set statName (updateAcc value (lat_get statName l)) l.

(** ** Classification of one sample *)

(** [processSample(sample, activation)], with [measurementTime] and
    [testRecord.input.sql] (as a truth value) as parameters.  Each early
    [return] of the source is a branch that gives the state back. *)
Definition processSample (sql : bool) (mt : TimeFrame)
    (sample : Sample) (activation : option Activation) (st : ProcState)
  : ProcState :=
  let sample_ts := ts sample in
  let sample_ai := ai sample in
  let bi := bi sample in
  if js_lt bi (Some (start mt)) || js_gt bi (Some (stop mt)) then st
  else
    let st := with_tp incr_attempts st in
    if truthy_err (taidError sample) then
      with_tp incr_errors (with_tp incr_requests st)
    else
      let ts := if truthy sample_ts then parseInt sample_ts else None in
      let st :=
        if truthy sample_ts
           && (js_ge ts (Some (start mt)) && js_le ts (Some (stop mt)))
        then with_tp incr_requests (with_tp incr_activations st)
        else st in
      if truthy_err (aaidError sample) then
        with_tp incr_errors (with_tp incr_requests st)
      else
        match activation with
        | None => st
        | Some activation =>
          let as_ := parseInt (act_start activation) in
          let ae := parseInt (act_end activation) in
          let d := parseInt (act_duration activation) in
          if js_lt as_ (Some (start mt)) || js_gt ae (Some (stop mt)) then st
          else
            let st := with_tp incr_activations st in
            let st := with_tp incr_requests st in
            let st := with_tp incr_invocations st in
            let ta := if truthy ts then js_sub as_ ts else None in
            let ad := js_sub ae as_ in
            let oea := js_sub as_ bi in
            let oer := js_sub (js_sub ae bi) d in
            let st := with_lat (updateLatSample D d) st in
            let st := with_lat (updateLatSample TA ta) st in
            let st := with_lat (updateLatSample AD ad) st in
            let st := with_lat (updateLatSample OEA oea) st in
            let st := with_lat (updateLatSample OER oer) st in
            let ai := sample_ai in
            let ora := if truthy ai then js_sub ai ae else None in
            let rtt := if truthy ai then js_sub ai bi else None in
            let ortt := if truthy rtt then js_sub rtt d else None in
            let st := with_lat (updateLatSample ORA ora) st in
            let st := with_lat (updateLatSample RTT rtt) st in
            let st := with_lat (updateLatSample ORTT ortt) st in
            if sql then
              {| tp := tp st; lat := lat st;
                 sqlCalls := sqlCalls st ++
                   [bind_params [bi; as_; ae; ts; ta; oea; oer; d; ad; ai; ora; rtt; ortt]] |}
            else st
        end.

(** ** Post-processing of the sample buffer *)

Inductive Activity : Type := ACTION | RULE.

Inductive Blocking : Type := RESULT | ACTIVATION | NONE.

Definition Activity_eqb (a b : Activity) : bool :=
  match a, b with
  | ACTION, ACTION | RULE, RULE => true
  | _, _ => false
  end.

Section PostProcess.

(** [ow.activations.get({name: id})]: the activation record, or [None]
    when the promise is rejected. *)
Variable ow_activations_get : option string -> option Activation.

(** [testRecord.input.sql] and [measurementTime]. *)
Variable sql : bool.
Variable mt : TimeFrame.

(** [Object.assign({}, triggerSample)] with [aaid] or [aaidError] set
    from one bound-action record. *)
Definition actionSampleOf (triggerSample : Sample) (r : BoundActionRecord)
  : Sample :=
  if success r then
    mkSample (bi triggerSample) (ai triggerSample) (taid triggerSample)
             (taidError triggerSample) (activationId r)
             (aaidError triggerSample) (ts triggerSample)
  else
    mkSample (bi triggerSample) (ai triggerSample) (taid triggerSample)
             (taidError triggerSample) (aaid triggerSample)
             (error r) (ts triggerSample).

(** The loop over [triggerActivation.logs]; a line that [JSON.parse]
    refuses throws, which rejects the promise. *)
Fixpoint actionSamplesOfLogs (triggerSample : Sample) (logs : list LogLine)
  : option (list Sample) :=
  match logs with
  | [] => Some []
  | Malformed :: _ => None
  | Json r :: logs =>
    match actionSamplesOfLogs triggerSample logs with
    | Some actionSamples => Some (actionSampleOf triggerSample r :: actionSamples)
    | None => None
    end
  end.

(** [getActionSamplesOfRules(triggerSample)]: [None] when the promise is
    rejected.  The assignment [triggerSample.ts = triggerActivation.start]
    precedes the copies, so every copy carries it; the trigger sample
    itself is not read again. *)
Definition getActionSamplesOfRules (triggerSample : Sample)
  : option (list Sample) :=
  match ow_activations_get (taid triggerSample) with
  | None => None
  | Some triggerActivation =>
    let triggerSample :=
      mkSample (bi triggerSample) (ai triggerSample) (taid triggerSample)
               (taidError triggerSample) (aaid triggerSample)
               (aaidError triggerSample) (act_start triggerActivation) in
    actionSamplesOfLogs triggerSample (act_logs triggerActivation)
  end.

(** [processSampleWithAction(actionSample)]: a failed retrieval leaves
    [activation] undefined. *)
Definition processSampleWithAction (actionSample : Sample) (st : ProcState)
  : ProcState :=
  if truthy_err (aaidError actionSample) then
    processSample sql mt actionSample None st
  else
    processSample sql mt actionSample
                  (ow_activations_get (aaid actionSample)) st.

(** One turn of the loop of [postProcess] for the process's [activity];
    [None] when [getActionSamplesOfRules] rejects, which ends
    post-processing with an error. *)
Definition postProcessSample (activity : Activity) (sample : Sample)
    (st : ProcState) : option ProcState :=
  if Activity_eqb activity ACTION then
    Some (processSampleWithAction sample st)
  else if truthy_err (taidError sample) then
    Some (processSample sql mt sample None st)
  else
    match getActionSamplesOfRules sample with
    | None => None
    | Some actionSamples =>
      Some (fold_left (fun st actionSample =>
                         processSampleWithAction actionSample st)
                      actionSamples st)
    end.

(** [postProcess()] over [sampleData]. *)
Fixpoint postProcess (activity : Activity) (sampleData : list Sample)
    (st : ProcState) : option ProcState :=
  match sampleData with
  | [] => Some st
  | sample :: sampleData =>
    match postProcessSample activity sample st with
    | None => None
    | Some st => postProcess activity sampleData st
    end
  end.

End PostProcess.

(** ** The per-sample insert *)

(** What one call of [sql_insert_workersample] ends in: the number of
    [db.run] calls made, whether the row was stored, and whether the
    giving-up message was logged. *)
Record InsertOutcome : Type := mkOutcome {
  runs : nat;
  stored : bool;
  gaveUp : bool
}.

(** How many times [trycnt < 50] can still hold as [trycnt] is incremented. *)
Definition retries_left (trycnt : jsint) : nat :=
  match trycnt with
  | Some t => Z.to_nat (50 - t)
  | None => O
  end.
#[local] Arguments retries_left : simpl never.

(** [sql_insert_workersample(db, expId, trycnt, ...)].  [busy n] tells
    whether the [n]-th [db.run] on the database reports an error; [n] is
    the number of the current run.  The recursion is the call in the error
    callback; it ends because [trycnt] grows towards 50. *)
Equations? sql_insert_workersample (busy : nat -> bool) (n : nat) (trycnt : jsint)
  : InsertOutcome by wf (retries_left trycnt) lt :=
  sql_insert_workersample busy n trycnt with busy n => {
    | false := {| runs := 1; stored := true; gaveUp := false |};
    | true with trycnt => {
      | Some t with Z_lt_dec t 50 => {
        | left _ :=
            let r := sql_insert_workersample busy (S n) (Some (t + 1)) in
            {| runs := S (runs r); stored := stored r; gaveUp := gaveUp r |};
        | right _ := {| runs := 1; stored := false; gaveUp := true |} };
      | None := {| runs := 1; stored := false; gaveUp := true |} } }.
Proof. unfold retries_left. lia. Qed.

(** ** The invocation loop *)

(** [testRecord.input], the options the loop and the barriers read.
    [iterations], [period] and [master_delta] have no default and are
    [undefined] unless given. *)
Record Input : Type := mkInput {
  input_activity : Activity;
  input_blocking : Blocking;
  input_delta : Z;
  input_iterations : jsint;
  input_period : jsint;
  input_ratio : Z;
  input_workers : Z;
  input_master_activity : option Activity;
  input_master_blocking : option Blocking;
  input_master_delta : jsint;
  input_warmup : Z;
  input_burst_timing : bool
}.

(** How a call of the OpenWhisk client ends: resolved with the JSON that
    carries [activationId], or rejected with an error. *)
Inductive InvokeResult : Type :=
| Resolved (activationId : option string)
| Rejected (err : string).

(** What runs between two turns of the loop, while it awaits: the message
    handler of a forked worker's [init], the timer set by [checkInit], the
    handler of the master's [abort] message at a worker. *)
Inductive Event : Type :=
| WorkerInit
| TimerFired
| AbortMsg (window : TimeFrame).

(** The world a process runs in: its role, the successive readings of
    [new Date().getTime()], the outcomes of the successive client calls, and
    the events delivered while the [k]-th turn of the loop awaits. *)
Record World : Type := mkWorld {
  isMaster : bool;
  now : nat -> Z;
  ow_actions_invoke : nat -> InvokeResult;
  ow_triggers_invoke : nat -> InvokeResult;
  delivered : nat -> list Event
}.

(** The variables of the process that the loop and the barriers write. *)
Record LoopState : Type := mkLoop {
  abort : bool;
  warmupCounter : Z;
  remainingInits : Z;
  remainingIterations : Z;
  measurementTime : TimeFrame;
  sampleData : list Sample;
  timerSet : bool;
  initsSent : nat;
  reads : nat;
  calls : nat
}.

(** The state in which [mainLoop] is entered. *)
Definition LoopState0 (input : Input) : LoopState :=
  {| abort := false;
     warmupCounter := input_warmup input;
     remainingInits := input_workers input;
     remainingIterations := -1;
     measurementTime := measurementTime0;
     sampleData := [];
     timerSet := false;
     initsSent := O;
     reads := O;
     calls := O |}.

Section MainLoop.

Variable W : World.
Variable input : Input.

(** The [activity] and the [blocking] of this process. *)
Definition activity : Activity :=
  match input_master_activity input with
  | Some a => if negb (isMaster W) then input_activity input else a
  | None => input_activity input
  end.

Definition blocking : Blocking :=
  match input_master_blocking input with
  | Some b => if negb (isMaster W) then input_blocking input else b
  | None => input_blocking input
  end.

Definition doBlocking : bool :=
  match blocking with NONE => false | _ => true end.

(** [abortLoop()]. *)
Definition abortLoop (st : LoopState) : LoopState :=
  mkLoop true (warmupCounter st) (remainingInits st) (remainingIterations st)
         (measurementTime st) (sampleData st) (timerSet st) (initsSent st)
         (reads st) (calls st).

(** [checkInit()]. *)
Definition checkInit (st : LoopState) : LoopState :=
  let remainingInits := remainingInits st - 1 in
  if remainingInits =? 0 then
    mkLoop (abort st) (warmupCounter st) remainingInits
           (match input_iterations input with
            | Some n => if n =? 0 then remainingIterations st else n
            | None => remainingIterations st
            end)
           (mkTimeFrame (now W (reads st)) (stop (measurementTime st)))
           (sampleData st)
           (timerSet st || truthy (input_period input))
           (initsSent st) (S (reads st)) (calls st)
  else
    mkLoop (abort st) (warmupCounter st) remainingInits (remainingIterations st)
           (measurementTime st) (sampleData st) (timerSet st) (initsSent st)
           (reads st) (calls st).

(** One delivered event.  A handler runs only where the program installs
    it: the [init] handler at a master that forked workers, the timer
    after [checkInit] set it, the [abort] handler at a worker. *)
Definition handle (e : Event) (st : LoopState) : LoopState :=
  match e with
  | WorkerInit =>
    if isMaster W && (1 <? input_workers input) then checkInit st else st
  | TimerFired =>
    if timerSet st then abortLoop st else st
  | AbortMsg window =>
    if isMaster W then st
    else abortLoop
           (mkLoop (abort st) (warmupCounter st) (remainingInits st)
                   (remainingIterations st) window (sampleData st)
                   (timerSet st) (initsSent st) (reads st) (calls st))
  end.

(** The first half of [invokeActions]: the loop that takes [bi] for each
    of the [count] invocations and issues it.  It returns the [bi]s with
    the outcome of each call. *)
Fixpoint issueActions (count : nat) (burst_bi : Z) (reads calls : nat)
  : list (Z * InvokeResult) * nat * nat :=
  match count with
  | O => ([], reads, calls)
  | S count =>
    let '(bi, reads) :=
      if input_burst_timing input then (burst_bi, reads)
      else (now W reads, S reads) in
    let r := ow_actions_invoke W calls in
    let '(rest, reads, calls) := issueActions count burst_bi reads (S calls) in
    ((bi, r) :: rest, reads, calls)
  end.

(** The second half: each invocation settles, in the order of the array
    that [Promise.all] returns; a resolved one takes [ai] when blocking, a
    rejected one yields [{aaidError: err}]. *)
Fixpoint settleActions (issued : list (Z * InvokeResult)) (reads : nat)
  : list Sample * nat :=
  match issued with
  | [] => ([], reads)
  | (bi, Resolved activationId) :: issued =>
    let '(ai, reads) :=
      if doBlocking then (Some (now W reads), S reads) else (None, reads) in
    let '(rest, reads) := settleActions issued reads in
    (mkSample (Some bi) ai None None activationId None None :: rest, reads)
  | (_, Rejected err) :: issued =>
    let '(rest, reads) := settleActions issued reads in
    (mkSample None None None None None (Some (ErrObj err)) None :: rest, reads)
  end.

(** [invokeActions(count, doBlocking, getResult, burst_bi)]. *)
Definition invokeActions (count : Z) (burst_bi : Z) (reads calls : nat)
  : list Sample * nat * nat :=
  let '(issued, reads, calls) :=
    issueActions (Z.to_nat count) burst_bi reads calls in
  let '(samples, reads) := settleActions issued reads in
  (samples, reads, calls).

(** [invokeRules(bi)]. *)
Definition invokeRules (bi : Z) (reads calls : nat)
  : list Sample * nat * nat :=
  match ow_triggers_invoke W calls with
  | Resolved triggerActivationId =>
    ([mkSample (Some bi) None triggerActivationId None None None None],
     reads, S calls)
  | Rejected err =>
    ([mkSample None None None (Some (ErrObj err)) None None None],
     reads, S calls)
  end.

(** [mainLoop()]: [k] numbers the turns of the [while] loop, and [fuel]
    bounds them; [None] means the bound was reached before the loop was
    left.  The pacing sleep changes no variable: it lets time pass and
    events be delivered, which are the world's. *)
Fixpoint mainLoop (fuel : nat) (k : nat) (st : LoopState) : option LoopState :=
  match fuel with
  | O => None
  | S fuel =>
    if abort st then Some st
    else
      let st :=
        if warmupCounter st =? 0 then
          if isMaster W then checkInit st
          else mkLoop (abort st) (warmupCounter st) (remainingInits st)
                      (remainingIterations st) (measurementTime st)
                      (sampleData st) (timerSet st) (S (initsSent st))
                      (reads st) (calls st)
        else st in
      let warmupCounter :=
        if warmupCounter st >=? 0 then warmupCounter st - 1
        else warmupCounter st in
      if remainingIterations st =? 0 then
        mainLoop fuel (S k)
                 (abortLoop
                    (mkLoop (abort st) warmupCounter (remainingInits st)
                            (remainingIterations st) (measurementTime st)
                            (sampleData st) (timerSet st) (initsSent st)
                            (reads st) (calls st)))
      else
        let remainingIterations :=
          if remainingIterations st >? 0 then remainingIterations st - 1
          else remainingIterations st in
        let si := now W (reads st) in
        let '(samples, reads, calls) :=
          if Activity_eqb activity ACTION then
            invokeActions (input_ratio input) si (S (reads st)) (calls st)
          else invokeRules si (S (reads st)) (calls st) in
        let st :=
          mkLoop (abort st) warmupCounter (remainingInits st)
                 remainingIterations (measurementTime st)
                 (sampleData st ++ samples) (timerSet st) (initsSent st)
                 (S reads) calls in
        mainLoop fuel (S k) (fold_left (fun st e => handle e st) (delivered W k) st)
  end.

End MainLoop.

(** ** Aggregation at the master *)

(** A double that results from a division: a finite value, here an exact
    rational, or a non-finite one ([NaN], [Infinity], [-Infinity]). *)
Inductive jsnum : Type :=
| Fin (q : Q)
| NonFin.

Definition num_of (a : jsint) : jsnum :=
  match a with
  | Some x => Fin (inject_Z x)
  | None => NonFin
  end.

Definition num_sub (a b : jsnum) : jsnum :=
  match a, b with
  | Fin x, Fin y => Fin (x - y)
  | _, _ => NonFin
  end.

Definition num_mul (a b : jsnum) : jsnum :=
  match a, b with
  | Fin x, Fin y => Fin (x * y)
  | _, _ => NonFin
  end.

(** A quotient is finite when both sides are and the divisor is not zero. *)
Definition num_div (a b : jsnum) : jsnum :=
  match a, b with
  | Fin x, Fin y => if Qeq_bool y 0 then NonFin else Fin (x / y)
  | _, _ => NonFin
  end.

(** [Math.sqrt(x)], kept as the radicand: the result is [NaN] when the
    radicand is negative or [NaN], and a number that is not negative
    otherwise. *)
Inductive jsroot : Type :=
| Math_sqrt (radicand : jsnum).

(** The summary a process reports: [{lat: latCounters, tp: tpCounters}]. *)
Record Summary : Type := mkSummary {
  s_lat : latCounters;
  s_tp : tpCounters
}.

(** The result of [computeLatStats]: [{avg, std, min, max}]; [None] is
    [undefined]. *)
Record LatStats : Type := mkLatStats {
  avg : option jsnum;
  std : option jsroot;
  ls_min : jsint;
  ls_max : jsint
}.

(** The local variables of [computeLatStats]. *)
Record LatTotals : Type := mkLatTotals {
  totalSum : jsint;
  totalSumSqr : jsint;
  totalInvocations : Z;
  hasSamples : bool;
  t_min : jsint;
  t_max : jsint
}.

Definition LatTotals0 : LatTotals :=
  {| totalSum := Some 0; totalSumSqr := Some 0; totalInvocations := 0;
     hasSamples := false; t_min := None; t_max := None |}.

(** The callback of [workerData.forEach] in [computeLatStats]. *)
Definition addWorker (statName : StatName) (t : LatTotals) (wd : Summary)
  : LatTotals :=
  let a := lat_get statName (s_lat wd) in
  let t :=
    if truthy (a_sum a) then
      {| totalSum := js_add (totalSum t) (a_sum a);
         totalSumSqr := js_add (totalSumSqr t) (a_sumSqr a);
         totalInvocations := totalInvocations t;
         hasSamples := true;
         t_min := if negb (truthy (t_min t)) || js_gt (t_min t) (a_min a)
                  then a_min a else t_min t;
         t_max := if negb (truthy (t_max t)) || js_lt (t_max t) (a_max a)
                  then a_max a else t_max t |}
    else t in
  {| totalSum := totalSum t; totalSumSqr := totalSumSqr t;
     totalInvocations := totalInvocations t + invocations (s_tp wd);
     hasSamples := hasSamples t; t_min := t_min t; t_max := t_max t |}.

(** The last lines of [computeLatStats]: [avg] and [std] are computed when
    [hasSamples] is truthy and are [undefined] otherwise. *)
Definition latStatsOf (t : LatTotals) : LatStats :=
  let n := Fin (inject_Z (totalInvocations t)) in
  let avg_ := num_div (num_of (totalSum t)) n in
  {| avg := if hasSamples t then Some avg_ else None;
     std := if hasSamples t
            then Some (Math_sqrt (num_sub (num_div (num_of (totalSumSqr t)) n)
                                          (num_mul avg_ avg_)))
            else None;
     ls_min := t_min t;
     ls_max := t_max t |}.

(** [computeLatStats(statName)], with [testRecord.input.master_apart] (as a
    truth value) and [workerData] as parameters; [None] is the [TypeError]
    of reading [workerData[0].lat] when [workerData] is empty.  The branch
    of the master-apart mode assigns [totalSum], [totalSumSqr], [min], [max]
    and [totalInvocations], and leaves [hasSamples] as it was declared. *)
Definition computeLatStats (master_apart : bool) (workerData : list Summary)
    (statName : StatName) : option LatStats :=
  if master_apart then
    match workerData with
    | [] => None
    | wd0 :: _ =>
      let a := lat_get statName (s_lat wd0) in
      Some (latStatsOf
              {| totalSum := a_sum a;
                 totalSumSqr := a_sumSqr a;
                 totalInvocations := invocations (s_tp wd0);
                 hasSamples := hasSamples LatTotals0;
                 t_min := a_min a;
                 t_max := a_max a |})
    end
  else
    Some (latStatsOf (fold_left (addWorker statName) workerData LatTotals0)).

(** The counters [computeOutputRecord] passes to [computeTpStats]. *)
Inductive TpName : Type := Attempts | Invocations | Activations | Requests.

Definition tp_get (statName : TpName) (c : tpCounters) : Z :=
  match statName with
  | Attempts => attempts c
  | Invocations => invocations c
  | Activations => activations c
  | Requests => requests c
  end.

(** The result of [computeTpStats]: [{abs, tp, tpw, tpd}]. *)
Record TpStats : Type := mkTpStats {
  abs : Z;
  tp_ : jsnum;
  tpw : jsnum;
  tpd : jsnum
}.

(** [totalCount] after [workerData.forEach]. *)
Definition totalCountOf (statName : TpName) (workerData : list Summary) : Z :=
  fold_left (fun totalCount wd => totalCount + tp_get statName (s_tp wd))
            workerData 0.

(** [computeTpStats(statName)], with [testRecord.output.measure_time] and
    [workerData] as parameters; [None] is the [TypeError] on an empty
    [workerData].  The quotients are exact rationals: the rounding of the
    source's double operations is not modelled, so only what rounding keeps
    (order, sign, zero, not-a-number) is drawn from [tp], [tpw] and [tpd]. *)
Definition computeTpStats (measure_time : Q) (workerData : list Summary)
    (statName : TpName) : option TpStats :=
  match workerData with
  | [] => None
  | wd0 :: _ =>
    let masterCount := tp_get statName (s_tp wd0) in
    let totalCount := totalCountOf statName workerData in
    let tp := num_div (Fin (inject_Z totalCount)) (Fin measure_time) in
    let tpw := num_div (Fin (inject_Z (totalCount - masterCount))) (Fin measure_time) in
    let tpd := num_div (num_mul (num_sub tp tpw) (Fin 100)) tp in
    Some {| abs := totalCount; tp_ := tp; tpw := tpw; tpd := tpd |}
  end.

(** ** Inputs used in the examples *)

(** The sample that [invokeActions] builds for a rejected invocation,
    [{aaidError: err}]. *)
Definition rejectedSample : Sample :=
  mkSample None None None None None (Some (ErrObj "throttled")) None.

(** A world in which the client rejects every invocation. *)
Definition rejectingWorld : World :=
  {| isMaster := true;
     now := fun n => 150 + Z.of_nat n;
     ow_actions_invoke := fun _ => Rejected "throttled";
     ow_triggers_invoke := fun _ => Rejected "throttled";
     delivered := fun _ => [] |}.

(** The options at their defaults: neither [iterations] nor a
    [master_*] option is given. *)
Definition defaultInput : Input :=
  {| input_activity := ACTION;
     input_blocking := NONE;
     input_delta := 200;
     input_iterations := None;
     input_period := None;
     input_ratio := 1;
     input_workers := 1;
     input_master_activity := None;
     input_master_blocking := None;
     input_master_delta := None;
     input_warmup := 5;
     input_burst_timing := false |}.

(** The sample of an accepted, non-blocking action invocation taken at
    [b]. *)
Definition sampleAt (b : Z) : Sample :=
  mkSample (Some b) None None None (Some "id"%string) None None.

(** A state reached in the time frame [0, 100] from two action samples of
    one process: the first activation reports a duration of 10, the second a
    duration of 0. *)
Definition twoSamples : ProcState :=
  processSample false (mkTimeFrame 0 100) (sampleAt 50)
                (Some (mkActivation (Some 60) (Some 70) (Some 0) []))
    (processSample false (mkTimeFrame 0 100) (sampleAt 10)
                   (Some (mkActivation (Some 20) (Some 40) (Some 10) []))
                   ProcState0).

(** A sample derived from a rule: it carries the start of the trigger
    activation. *)
Definition ruleSample : Sample :=
  mkSample (Some 10) None (Some "t"%string) None (Some "a"%string) None (Some 12).

(** ** What folding a value means *)

(** The accumulator after the value [v] is folded in, as the specification
    describes a StatAccumulator: the running sum, the running sum of
    squares, the least and the greatest value so far.  An absent field
    counts as no value yet. *)
Definition folded (v : Z) (a : StatAccumulator) : StatAccumulator :=
  {| a_sum := Some (match a_sum a with Some s => s | None => 0 end + v);
     a_sumSqr := Some (match a_sumSqr a with Some s => s | None => 0 end + v * v);
     a_min := Some (match a_min a with Some m => Z.min m v | None => v end);
     a_max := Some (match a_max a with Some m => Z.max m v | None => v end) |}.

(** An accumulator in which no field holds the number 0 where a value is
    expected: what [updateLatSample] builds from non-zero values. *)
Definition acc_ok (a : StatAccumulator) : Prop :=
  a_min a <> Some 0 /\ a_max a <> Some 0.

(** The extra activation and request that the trigger leg counts: one when
    the sample carries a trigger start, a number other than 0, inside the
    time frame. *)
Definition triggerLeg (mt : TimeFrame) (sample : Sample) : Z :=
  match ts sample with
  | Some t =>
    if negb (t =? 0) && ((start mt <=? t) && (t <=? stop mt)) then 1 else 0
  | None => 0
  end.

(** A rule-derived sample of a blocking invocation, and its activation. *)
Definition blockingRuleSample : Sample :=
  mkSample (Some 10) (Some 50) (Some "t"%string) None (Some "a"%string) None (Some 12).

Definition someActivation : Activation :=
  mkActivation (Some 20) (Some 40) (Some 5) [].

(** A sample of an action invocation (it has no trigger field) on which
    [ai] is not set. *)
Definition actionSampleNoAi (s : Sample) : Prop :=
  ai s = None /\ taid s = None /\ taidError s = None /\ ts s = None.

(** The scenario [iterations=10, workers=1, ratio=1, activity=action,
    blocking=none] with the defaults of the other options, and a world for
    it: the clock advances by one at each reading and every invocation is
    accepted. *)
Definition scenarioInput : Input :=
  {| input_activity := ACTION;
     input_blocking := NONE;
     input_delta := 200;
     input_iterations := Some 10;
     input_period := None;
     input_ratio := 1;
     input_workers := 1;
     input_master_activity := None;
     input_master_blocking := None;
     input_master_delta := None;
     input_warmup := 5;
     input_burst_timing := false |}.

Definition acceptingWorld : World :=
  {| isMaster := true;
     now := fun n => 1000 + Z.of_nat n;
     ow_actions_invoke := fun _ => Resolved (Some "id"%string);
     ow_triggers_invoke := fun _ => Resolved (Some "id"%string);
     delivered := fun _ => [] |}.

(** ** Further definitions: statistics of a list of values *)

(** The values of a metric folded one after the other, as successive calls
    of [updateLatSample] for that metric do. *)
Definition foldValues (statName : StatName) (values : list jsint) (l : latCounters)
  : latCounters :=
  fold_left (fun l value => updateLatSample statName value l) values l.

(** The sum, the sum of squares, the least and the greatest element of a
    list of integers. *)
Definition sumZ (vs : list Z) : Z := fold_right Z.add 0 vs.

Definition sumSq (vs : list Z) : Z := fold_right (fun v s => v * v + s) 0 vs.

Definition least (v : Z) (vs : list Z) : Z := fold_left Z.min vs v.

Definition greatest (v : Z) (vs : list Z) : Z := fold_left Z.max vs v.

(** The values that [updateLatSample] does not skip. *)
Definition nonzero (vs : list Z) : list Z := filter (fun v => negb (v =? 0)) vs.

(** The accumulator that holds the statistics of a list of values. *)
Definition statsOf (vs : list Z) : StatAccumulator :=
  match vs with
  | [] => acc0
  | v :: rest =>
    {| a_sum := Some (sumZ vs); a_sumSqr := Some (sumSq vs);
       a_min := Some (least v rest); a_max := Some (greatest v rest) |}
  end.

(** ** Further definitions: aggregation of measured processes *)

(** The process that reported [wd] folded the positive values [vs] into the
    metric, one for each invocation it counted. *)
Definition measured (statName : StatName) (wd : Summary) (vs : list Z) : Prop :=
  (forall v, In v vs -> 0 < v)
  /\ lat_get statName (s_lat wd)
     = lat_get statName (foldValues statName (map Some vs) latCounters0)
  /\ invocations (s_tp wd) = Z.of_nat (List.length vs).

(** The locals of [computeLatStats] that correspond to a list of values. *)
Definition totalsOf (vs : list Z) : LatTotals :=
  {| totalSum := Some (sumZ vs);
     totalSumSqr := Some (sumSq vs);
     totalInvocations := Z.of_nat (List.length vs);
     hasSamples := match vs with [] => false | _ :: _ => true end;
     t_min := a_min (statsOf vs);
     t_max := a_max (statsOf vs) |}.

(** A summary of a process that measured the values [vs] for the metric
    [d] and counted as many invocations. *)
Definition summaryOf (vs : list Z) : Summary :=
  {| s_lat := foldValues D (map Some vs) latCounters0;
     s_tp := mkTp (Z.of_nat (List.length vs)) (Z.of_nat (List.length vs))
                  (Z.of_nat (List.length vs)) (Z.of_nat (List.length vs)) 0 |}.

(** ** Further definitions: post-processing *)

(** What [processSample] keeps of [tpCounters]: every request is an
    activation or an error, a full invocation is one of the activations, a
    sample is at most one error or one invocation, and at most two
    requests. *)
Definition tp_inv (c : tpCounters) : Prop :=
  0 <= invocations c
  /\ invocations c <= activations c
  /\ 0 <= errors c
  /\ requests c = activations c + errors c
  /\ invocations c + errors c <= attempts c
  /\ requests c <= 2 * attempts c.

(** No counter of [c'] is below the one of [c]. *)
Definition tp_le (c c' : tpCounters) : Prop :=
  attempts c <= attempts c'
  /\ invocations c <= invocations c'
  /\ activations c <= activations c'
  /\ requests c <= requests c'
  /\ errors c <= errors c'.

(** A rule sample on which [postProcess] fails: it has no trigger error,
    and its trigger activation cannot be retrieved or has a log line that
    is not JSON. *)
Definition fatalSample (ow_activations_get : option string -> option Activation)
    (sample : Sample) : Prop :=
  truthy_err (taidError sample) = false
  /\ (ow_activations_get (taid sample) = None
      \/ exists triggerActivation,
           ow_activations_get (taid sample) = Some triggerActivation
           /\ In Malformed (act_logs triggerActivation)).

(** A platform that knows one trigger activation, with three bound
    actions of which the second failed, and the activations of the two
    others. *)
Definition examplePlatform (id : option string) : option Activation :=
  match id with
  | Some "t"%string =>
    Some (mkActivation (Some 12) (Some 13) None
            [Json (mkBoundActionRecord true (Some "a1"%string) None);
             Json (mkBoundActionRecord false None (Some (ErrStr "failed")));
             Json (mkBoundActionRecord true (Some "a3"%string) None)])
  | Some "a1"%string => Some (mkActivation (Some 20) (Some 40) (Some 5) [])
  | Some "a3"%string => Some (mkActivation (Some 25) (Some 45) (Some 5) [])
  | _ => None
  end.

(** ** Further definitions: error statistics *)

(** The result of [computErrorStats]: [{abs, percent}]. *)
Record ErrorStats : Type := mkErrorStats {
  err_abs : Z;
  percent : jsnum
}.

(** [totalErrors] and [totalRequests] after [workerData.forEach]. *)
Definition errorTotals (workerData : list Summary) : Z * Z :=
  fold_left (fun '(totalErrors, totalRequests) wd =>
               (totalErrors + errors (s_tp wd), totalRequests + requests (s_tp wd)))
            workerData (0, 0).

(** [computErrorStats()], with [workerData] as parameter. *)
Definition computErrorStats (workerData : list Summary) : ErrorStats :=
  let '(totalErrors, totalRequests) := errorTotals workerData in
  {| err_abs := totalErrors;
     percent := num_div (num_mul (Fin (inject_Z totalErrors)) (Fin 100))
                        (Fin (inject_Z totalRequests)) |}.

(** ** Further definitions: the loop *)

(** The number of samples one turn of [mainLoop] adds: [ratio] for the
    activity [action], one for the activity [rule]. *)
Definition perTurn (W : World) (input : Input) : nat :=
  if Activity_eqb (activity W input) ACTION then Z.to_nat (input_ratio input)
  else 1%nat.

(** How [invokeActions] turns the [i]-th of its [count] invocations into a
    sample, when it is entered after [reads] clock readings and [calls]
    client calls.  The invocation is the client call number [calls + i].
    Rejected, it yields [{aaidError: err}] and nothing else.  Resolved, it
    yields the activation id of the answer with the [bi] taken before the
    call (the burst timestamp under burst timing, the clock reading number
    [reads + i] otherwise) and, exactly when the invocation blocks, an [ai]
    read from the clock after every invocation was issued. *)
Definition invokedAs (W : World) (input : Input) (burst_bi : Z)
    (reads calls count i : nat) (s : Sample) : Prop :=
  match ow_actions_invoke W (calls + i) with
  | Rejected err =>
    s = mkSample None None None None None (Some (ErrObj err)) None
  | Resolved activationId =>
    bi s = Some (if input_burst_timing input then burst_bi
                 else now W (reads + i))
    /\ aaid s = activationId
    /\ aaidError s = None /\ taid s = None /\ taidError s = None
    /\ ts s = None
    /\ (if doBlocking W input
        then exists j : nat,
               ((if input_burst_timing input then reads else reads + count)
                <= j)%nat
               /\ ai s = Some (now W j)
        else ai s = None)
  end.

(** The sample that the loop keeps for its client call number [c]: for the
    activity [action] what [invokeActions] makes of the outcome of that
    call, for a rule what [invokeRules] makes of it; every [bi] and [ai] is
    a reading of the clock. *)
Definition sampleOfCall (W : World) (input : Input) (c : nat) (s : Sample)
  : Prop :=
  if Activity_eqb (activity W input) ACTION then
    match ow_actions_invoke W c with
    | Rejected err =>
      s = mkSample None None None None None (Some (ErrObj err)) None
    | Resolved activationId =>
      (exists j : nat, bi s = Some (now W j))
      /\ aaid s = activationId
      /\ aaidError s = None /\ taid s = None /\ taidError s = None
      /\ ts s = None
      /\ (if doBlocking W input
          then exists j : nat, ai s = Some (now W j)
          else ai s = None)
    end
  else
    match ow_triggers_invoke W c with
    | Rejected err =>
      s = mkSample None None None (Some (ErrObj err)) None None None
    | Resolved triggerActivationId =>
      exists j : nat,
        s = mkSample (Some (now W j)) None triggerActivationId None None None None
    end.

(** A worker process, which gets an [abort] message while the third turn of
    its loop awaits. *)
Definition workerWorld : World :=
  {| isMaster := false;
     now := fun n => 1000 + Z.of_nat n;
     ow_actions_invoke := fun _ => Resolved (Some "id"%string);
     ow_triggers_invoke := fun _ => Resolved (Some "id"%string);
     delivered := fun k => if Nat.eqb k 2 then [AbortMsg (mkTimeFrame 1002 1010)] else [] |}.

(** A worker process that gets no message. *)
Definition lonelyWorker : World :=
  {| isMaster := false;
     now := fun n => 1000 + Z.of_nat n;
     ow_actions_invoke := fun _ => Resolved (Some "id"%string);
     ow_triggers_invoke := fun _ => Resolved (Some "id"%string);
     delivered := fun _ => [] |}.

(** ** Further definitions: clock and configuration *)

(** A clock that never goes back. *)
Definition monotone (clock : nat -> Z) : Prop :=
  forall i j : nat, (i <= j)%nat -> clock i <= clock j.

(** The sample does not end before it starts. *)
Definition biBeforeAi (s : Sample) : Prop :=
  match bi s, ai s with
  | Some b, Some a => b <= a
  | _, _ => True
  end.

(** [testRecord.input.master_apart], as a truth value: one of
    [master_activity], [master_blocking], [master_delta] is truthy. *)
Definition master_apart (input : Input) : bool :=
  match input_master_activity input with Some _ => true | None => false end
  || match input_master_blocking input with Some _ => true | None => false end
  || truthy (input_master_delta input).

(** The [delta] of [mainLoop] for this process. *)
Definition delta (W : World) (input : Input) : jsint :=
  if negb (isMaster W) || negb (truthy (input_master_delta input))
  then Some (input_delta input)
  else input_master_delta input.

(** The options of a blocking run with burst timing: two iterations of
    three invocations after one turn of warm-up. *)
Definition blockingInput : Input :=
  {| input_activity := ACTION;
     input_blocking := RESULT;
     input_delta := 200;
     input_iterations := Some 2;
     input_period := None;
     input_ratio := 3;
     input_workers := 1;
     input_master_activity := None;
     input_master_blocking := None;
     input_master_delta := None;
     input_warmup := 1;
     input_burst_timing := true |}.

(** ** Further definitions: the barriers of summary and exit *)

(** What the two barriers set off at the master. *)
Inductive Effect : Type :=
| ComputeOutputRecord
| GenerateOutput.

(** The countdowns [remainingSummaries] and [remainingExits], both
    initially [testRecord.input.workers], and what was set off so far. *)
Record Barriers : Type := mkBarriers {
  remainingSummaries : Z;
  remainingExits : Z;
  effects : list Effect
}.

Definition Barriers0 (workers : Z) : Barriers :=
  {| remainingSummaries := workers; remainingExits := workers; effects := [] |}.

(** [checkExit()]: at 0 it generates the output (and then tears down and
    exits). *)
Definition checkExit (b : Barriers) : Barriers :=
  let remainingExits := remainingExits b - 1 in
  {| remainingSummaries := remainingSummaries b;
     remainingExits := remainingExits;
     effects := if remainingExits =? 0 then effects b ++ [GenerateOutput]
                else effects b |}.

(** [checkSummary()]: at 0 it computes the output record and calls
    [checkExit()]. *)
Definition checkSummary (b : Barriers) : Barriers :=
  let remainingSummaries := remainingSummaries b - 1 in
  if remainingSummaries =? 0 then
    checkExit {| remainingSummaries := remainingSummaries;
                 remainingExits := remainingExits b;
                 effects := effects b ++ [ComputeOutputRecord] |}
  else
    {| remainingSummaries := remainingSummaries;
       remainingExits := remainingExits b;
       effects := effects b |}.

(** What calls the barriers at the master: a summary (a worker's message,
    or the end of the master's own post-processing) calls [checkSummary];
    the exit of a worker calls [checkExit]. *)
Inductive BarrierCall : Type :=
| SummaryReady
| WorkerExit.

Definition barrierStep (b : Barriers) (c : BarrierCall) : Barriers :=
  match c with
  | SummaryReady => checkSummary b
  | WorkerExit => checkExit b
  end.

Definition isSummary (c : BarrierCall) : bool :=
  match c with SummaryReady => true | WorkerExit => false end.

Definition isExit (c : BarrierCall) : bool :=
  match c with SummaryReady => false | WorkerExit => true end.

(** ** Further definitions: complete samples *)

(** An action sample that post-processing counts as a full invocation of
    duration [dur]: it lies in the time frame and has no error, and its
    activation is retrieved, lies in the time frame and reports the
    positive duration [dur]. *)
Definition completeSample (ow_activations_get : option string -> option Activation)
    (mt : TimeFrame) (s : Sample) (dur : Z) : Prop :=
  exists (b a e : Z) (activation : Activation),
    bi s = Some b /\ start mt <= b <= stop mt
    /\ truthy_err (taidError s) = false
    /\ truthy_err (aaidError s) = false
    /\ ow_activations_get (aaid s) = Some activation
    /\ act_start activation = Some a /\ start mt <= a
    /\ act_end activation = Some e /\ e <= stop mt
    /\ act_duration activation = Some dur /\ 0 < dur.

(** The samples of two accepted action invocations, known to
    [examplePlatform] as [a1] and [a3]. *)
Definition completeSamples : list Sample :=
  [mkSample (Some 10) None None None (Some "a1"%string) None None;
   mkSample (Some 15) None None None (Some "a3"%string) None None].

(** * Properties *)

(** ** Helper facts *)

Lemma lat_get_set_same (m : StatName) (a : StatAccumulator) (l : latCounters) :
  lat_get m (lat_set m a l) = a.
Proof. destruct m; reflexivity. Qed.

Lemma lat_get_set_other (m m' : StatName) (a : StatAccumulator) (l : latCounters) :
  m <> m' -> lat_get m' (lat_set m a l) = lat_get m' l.
Proof. destruct m, m'; intros H; try reflexivity; congruence. Qed.

Lemma updateLatSample_falsy (m : StatName) (value : jsint) (l : latCounters) :
  truthy value = false -> updateLatSample m value l = l.
Proof. intros H. unfold updateLatSample. rewrite H. reflexivity. Qed.

Lemma updateLatSample_same (m : StatName) (v : Z) (l : latCounters) :
  v <> 0 ->
  lat_get m (updateLatSample m (Some v) l) = updateAcc (Some v) (lat_get m l).
Proof.
  intros Hv. unfold updateLatSample. simpl.
  destruct (Z.eqb_spec v 0) as [E | _]; [contradiction |].
  simpl. apply lat_get_set_same.
Qed.

Lemma updateLatSample_other (m m' : StatName) (value : jsint) (l : latCounters) :
  m <> m' -> lat_get m' (updateLatSample m value l) = lat_get m' l.
Proof.
  intros Hm. unfold updateLatSample.
  destruct (negb (truthy value)); [reflexivity |].
  now apply lat_get_set_other.
Qed.

(** A sample whose [bi] is a number outside the time frame changes
    nothing. *)
Lemma processSample_outside sql mt sample activation st (b : Z) :
  bi sample = Some b -> b < start mt \/ stop mt < b ->
  processSample sql mt sample activation st = st.
Proof.
  intros Hb Hout. unfold processSample. rewrite Hb. simpl.
  destruct (Z.ltb_spec b (start mt)); [reflexivity |].
  destruct (Z.ltb_spec (stop mt) b); [reflexivity | lia].
Qed.

(** A sample whose [bi] is a number inside the time frame, both ends
    included, is counted as one attempt. *)
Lemma processSample_inside sql mt sample activation st (b : Z) :
  bi sample = Some b -> start mt <= b <= stop mt ->
  attempts (tp (processSample sql mt sample activation st))
  = attempts (tp st) + 1.
Proof.
  intros Hb Hin. unfold processSample. rewrite Hb.
  unfold js_gt, js_lt.
  destruct (Z.ltb_spec b (start mt)); [lia |].
  destruct (Z.ltb_spec (stop mt) b); [lia |].
  cbn [orb].
  repeat match goal with
         | |- context [if ?c then _ else _] => destruct c
         | |- context [match ?o with Some _ => _ | None => _ end] => destruct o
         end;
    reflexivity.
Qed.

(** Folding values keeps the number 0 out of [min] and [max]. *)
Lemma updateLatSample_acc_ok (m : StatName) (value : jsint) (l : latCounters) :
  (forall m', acc_ok (lat_get m' l)) ->
  forall m', acc_ok (lat_get m' (updateLatSample m value l)).
Proof.
  intros Hok m'. unfold updateLatSample.
  destruct value as [v |]; simpl; [| apply Hok].
  destruct (Z.eqb_spec v 0) as [-> | Hv]; simpl; [apply Hok |].
  assert (Hnew : acc_ok (updateAcc (Some v) (lat_get m l))).
  { destruct (Hok m) as [Hmin Hmax]. unfold updateAcc, acc_ok.
    cbn [a_min a_max].
    split.
    - destruct (negb (truthy (a_min (lat_get m l)))
                || js_gt (a_min (lat_get m l)) (Some v));
        [intros [= E]; contradiction | exact Hmin].
    - destruct (negb (truthy (a_max (lat_get m l)))
                || js_lt (a_max (lat_get m l)) (Some v));
        [intros [= E]; contradiction | exact Hmax]. }
  destruct m, m'; simpl in *; first [exact Hnew | apply (Hok TA) | apply (Hok OEA)
    | apply (Hok OER) | apply (Hok D) | apply (Hok AD) | apply (Hok ORA)
    | apply (Hok RTT) | apply (Hok ORTT)].
Qed.

Lemma processSample_acc_ok sql mt sample activation st :
  (forall m, acc_ok (lat_get m (lat st))) ->
  forall m, acc_ok (lat_get m (lat (processSample sql mt sample activation st))).
Proof.
  intros Hok. unfold processSample.
  repeat match goal with
         | |- context [if ?c then _ else _] => destruct c
         | |- context [match ?o with Some _ => _ | None => _ end] => destruct o
         end;
    cbn [lat with_lat with_tp];
    repeat apply updateLatSample_acc_ok; exact Hok.
Qed.

(** ** C1: windowing on [beforeInvocation] *)

(** C1, at the sample of a rejected invocation: [invokeActions] builds it
    without [bi]; with the time frame [100, 200] the test
    [start <= bi <= stop] is false for it, and yet [processSample] counts it
    as one attempt, one request and one error. *)
Theorem C1_rejected_sample_counted_without_bi :
  fst (fst (invokeActions rejectingWorld defaultInput 1 150 0 0)) = [rejectedSample]
  /\ js_le (Some 100) (bi rejectedSample) && js_le (bi rejectedSample) (Some 200) = false
  /\ tp (processSample false (mkTimeFrame 100 200) rejectedSample None ProcState0)
     = {| attempts := 1; invocations := 0; activations := 0; requests := 1; errors := 1 |}.
Proof. repeat split; reflexivity. Qed.

(** ** C10: a metric value of zero *)

(** C10: [updateLatSample] skips a value that is exactly 0 as it skips
    [undefined]: the counters are unchanged, for every metric; so the two
    cannot be told apart afterwards, and a sample whose overhead
    [oer = ae - bi - d] is 0 leaves the accumulator of [oer] as it was. *)
Theorem C10_zero_value_skipped :
  (forall (statName : StatName) (l : latCounters),
      updateLatSample statName (Some 0) l = l
      /\ updateLatSample statName (Some 0) l = updateLatSample statName None l)
  /\ (forall (sql : bool) (mt : TimeFrame) (sample : Sample)
             (activation : Activation) (st : ProcState),
         js_sub (js_sub (parseInt (act_end activation)) (bi sample))
                (parseInt (act_duration activation)) = Some 0 ->
         lat_get OER (lat (processSample sql mt sample (Some activation) st))
         = lat_get OER (lat st)).
Proof.
  split.
  - intros statName l. split; reflexivity.
  - intros sql mt sample activation st Hoer.
    unfold processSample. rewrite Hoer.
    repeat match goal with
           | |- context [if ?c then _ else _] => destruct c
           end;
      cbn [lat with_lat with_tp];
      repeat first
        [ reflexivity
        | rewrite updateLatSample_other by discriminate
        | rewrite (updateLatSample_falsy OER (Some 0)) by reflexivity ].
Qed.

Lemma C10_zero_value_skipped_witness :
  updateLatSample OER (Some 0) latCounters0 = latCounters0
  /\ lat_get OER
       (lat (processSample false (mkTimeFrame 0 100) (sampleAt 10)
                           (Some (mkActivation (Some 20) (Some 40) (Some 30) []))
                           ProcState0))
     = lat_get OER (lat ProcState0).
Proof.
  split.
  - apply (proj1 C10_zero_value_skipped).
  - apply (proj2 C10_zero_value_skipped). reflexivity.
Defined.

(** ** C6: a metric without samples *)

Lemma addWorker_hasSamples (statName : StatName) (t : LatTotals) (wd : Summary) :
  truthy (a_sum (lat_get statName (s_lat wd))) = false ->
  hasSamples (addWorker statName t wd) = hasSamples t.
Proof. intros H. unfold addWorker. rewrite H. reflexivity. Qed.

Lemma fold_addWorker_hasSamples (statName : StatName) (workerData : list Summary) :
  forall t : LatTotals,
    (forall wd, In wd workerData ->
                truthy (a_sum (lat_get statName (s_lat wd))) = false) ->
    hasSamples (fold_left (addWorker statName) workerData t) = hasSamples t.
Proof.
  induction workerData as [| wd workerData IH]; intros t Hall; simpl.
  - reflexivity.
  - rewrite IH.
    + apply addWorker_hasSamples. apply Hall. now left.
    + intros wd' Hin. apply Hall. now right.
Qed.

(** C6: when no process of [workerData] has folded a value into the
    accumulator of a metric (its [sum] is still [undefined] everywhere),
    [computeLatStats] returns [avg] and [std] undefined, in either mode, and
    so neither 0 nor [NaN]; and [updateLatSample] with an [undefined] value
    leaves every field of every accumulator as it was. *)
Theorem C6_no_samples_undefined (master_apart : bool) (wd0 : Summary)
    (rest : list Summary) (statName : StatName) :
  (forall wd, In wd (wd0 :: rest) -> a_sum (lat_get statName (s_lat wd)) = None) ->
  (exists r, computeLatStats master_apart (wd0 :: rest) statName = Some r
             /\ avg r = None /\ std r = None
             /\ avg r <> Some (Fin 0) /\ avg r <> Some NonFin)
  /\ (forall (m : StatName) (l : latCounters), updateLatSample m None l = l).
Proof.
  intros Hall. split; [| reflexivity].
  destruct master_apart.
  - eexists. split; [reflexivity |]. cbn. repeat split; discriminate.
  - eexists. split; [reflexivity |].
    assert (Hs : hasSamples (fold_left (addWorker statName) (wd0 :: rest) LatTotals0)
                 = false).
    { rewrite fold_addWorker_hasSamples; [reflexivity |].
      intros wd Hin. rewrite (Hall wd Hin). reflexivity. }
    unfold latStatsOf. rewrite Hs. cbn. repeat split; discriminate.
Qed.

Lemma C6_no_samples_undefined_witness :
  (exists r, computeLatStats false [mkSummary latCounters0 tpCounters0;
                                    mkSummary latCounters0 tpCounters0] TA = Some r
             /\ avg r = None /\ std r = None
             /\ avg r <> Some (Fin 0) /\ avg r <> Some NonFin)
  /\ (forall (m : StatName) (l : latCounters), updateLatSample m None l = l).
Proof.
  apply (C6_no_samples_undefined false (mkSummary latCounters0 tpCounters0)
                                 [mkSummary latCounters0 tpCounters0] TA).
  intros wd [<- | [<- | []]]; reflexivity.
Defined.

(** ** C3: the master-apart mode *)

(** C3, what the code does: in the master-apart mode [computeLatStats] takes
    [min] and [max] from the coordinator's accumulator, but [hasSamples] is
    never set on that branch, so [avg] and [std] are [undefined] whatever
    the coordinator measured; here with a coordinator that folded the single
    value 10 over one invocation, for which the average would be 10. *)
Theorem C3_master_apart_avg_undefined :
  (forall (wd0 : Summary) (rest : list Summary) (statName : StatName),
      computeLatStats true (wd0 :: rest) statName
      = Some {| avg := None; std := None;
                ls_min := a_min (lat_get statName (s_lat wd0));
                ls_max := a_max (lat_get statName (s_lat wd0)) |})
  /\ computeLatStats true
       [mkSummary (lat_set D (mkAcc (Some 10) (Some 100) (Some 10) (Some 10))
                           latCounters0)
                  (mkTp 1 1 1 1 0)] D
     = Some {| avg := None; std := None; ls_min := Some 10; ls_max := Some 10 |}.
Proof. split; reflexivity. Qed.

(** ** C7: throughput *)

Lemma Qdiv_le_compat_pos (x y z : Q) :
  (0 < z)%Q -> (x <= y)%Q -> (x / z <= y / z)%Q.
Proof.
  intros Hz Hxy. unfold Qdiv.
  apply Qmult_le_compat_r; [exact Hxy |].
  apply Qlt_le_weak. now apply Qinv_lt_0_compat.
Qed.

(** C7: for a counter whose per-process counts are not negative, with the
    coordinator's count at most the total and a positive measured duration,
    [computeTpStats] returns finite [tp = total / measure_time] and
    [tpw = (total - masterCount) / measure_time] with [tp >= tpw >= 0], and
    [tpd] is [(tp - tpw) * 100 / tp] computed from these two.  The doubles
    of the program are exact rationals here. *)
Theorem C7_throughput_order (measure_time : Q) (wd0 : Summary)
    (rest : list Summary) (statName : TpName) :
  (forall wd, In wd (wd0 :: rest) -> 0 <= tp_get statName (s_tp wd)) ->
  tp_get statName (s_tp wd0) <= totalCountOf statName (wd0 :: rest) ->
  (0 < measure_time)%Q ->
  exists (r : TpStats) (x y : Q),
    computeTpStats measure_time (wd0 :: rest) statName = Some r
    /\ abs r = totalCountOf statName (wd0 :: rest)
    /\ tp_ r = Fin x /\ tpw r = Fin y
    /\ (x == inject_Z (totalCountOf statName (wd0 :: rest)) / measure_time)%Q
    /\ (y == inject_Z (totalCountOf statName (wd0 :: rest)
                         - tp_get statName (s_tp wd0)) / measure_time)%Q
    /\ (y <= x)%Q /\ (0 <= y)%Q
    /\ tpd r = num_div (num_mul (num_sub (Fin x) (Fin y)) (Fin 100)) (Fin x).
Proof.
  intros Hnonneg Hmaster Htime.
  assert (Hnz : Qeq_bool measure_time 0 = false).
  { destruct (Qeq_bool measure_time 0) eqn:E; [| reflexivity].
    apply Qeq_bool_eq in E. rewrite E in Htime.
    exfalso. exact (Qlt_irrefl 0 Htime). }
  unfold computeTpStats.
  set (total := totalCountOf statName (wd0 :: rest)) in *.
  set (master := tp_get statName (s_tp wd0)) in *.
  assert (Hm0 : 0 <= master) by (apply Hnonneg; now left).
  exists {| abs := total;
            tp_ := Fin (inject_Z total / measure_time);
            tpw := Fin (inject_Z (total - master) / measure_time);
            tpd := num_div (num_mul (num_sub (Fin (inject_Z total / measure_time))
                                             (Fin (inject_Z (total - master) / measure_time)))
                                    (Fin 100))
                           (Fin (inject_Z total / measure_time)) |}.
  exists (inject_Z total / measure_time)%Q,
         (inject_Z (total - master) / measure_time)%Q.
  cbn [num_div]. rewrite Hnz. cbn [abs tp_ tpw tpd].
  repeat split; try reflexivity.
  - apply Qdiv_le_compat_pos; [exact Htime |].
    rewrite <- Zle_Qle. lia.
  - apply Qle_shift_div_l; [exact Htime |].
    rewrite Qmult_0_l. change 0%Q with (inject_Z 0). rewrite <- Zle_Qle. lia.
Qed.

Lemma C7_throughput_order_witness :
  exists (r : TpStats) (x y : Q),
    computeTpStats 2 [mkSummary latCounters0 (mkTp 4 3 3 3 0);
                      mkSummary latCounters0 (mkTp 6 5 5 5 0)] Attempts = Some r
    /\ abs r = totalCountOf Attempts [mkSummary latCounters0 (mkTp 4 3 3 3 0);
                                      mkSummary latCounters0 (mkTp 6 5 5 5 0)]
    /\ tp_ r = Fin x /\ tpw r = Fin y
    /\ (x == inject_Z (totalCountOf Attempts
                          [mkSummary latCounters0 (mkTp 4 3 3 3 0);
                           mkSummary latCounters0 (mkTp 6 5 5 5 0)]) / 2)%Q
    /\ (y == inject_Z (totalCountOf Attempts
                           [mkSummary latCounters0 (mkTp 4 3 3 3 0);
                            mkSummary latCounters0 (mkTp 6 5 5 5 0)]
                         - tp_get Attempts (s_tp (mkSummary latCounters0 (mkTp 4 3 3 3 0)))) / 2)%Q
    /\ (y <= x)%Q /\ (0 <= y)%Q
    /\ tpd r = num_div (num_mul (num_sub (Fin x) (Fin y)) (Fin 100)) (Fin x).
Proof.
  apply (C7_throughput_order 2 (mkSummary latCounters0 (mkTp 4 3 3 3 0))
                             [mkSummary latCounters0 (mkTp 6 5 5 5 0)] Attempts).
  - intros wd [<- | [<- | []]]; simpl; lia.
  - vm_compute. discriminate.
  - reflexivity.
Defined.

(** ** C5: expansion of a rule sample *)

Lemma actionSamplesOfLogs_parsed (triggerSample : Sample)
    (records : list BoundActionRecord) :
  actionSamplesOfLogs triggerSample (map Json records)
  = Some (map (actionSampleOf triggerSample) records).
Proof.
  induction records as [| r records IH]; simpl.
  - reflexivity.
  - rewrite IH. reflexivity.
Qed.

Lemma actionSampleOf_fields (triggerSample : Sample) (r : BoundActionRecord) :
  bi (actionSampleOf triggerSample r) = bi triggerSample
  /\ ts (actionSampleOf triggerSample r) = ts triggerSample
  /\ (if success r
      then aaid (actionSampleOf triggerSample r) = activationId r
      else aaidError (actionSampleOf triggerSample r) = error r).
Proof. unfold actionSampleOf. destruct (success r); simpl; auto. Qed.

(** C5: for a rule sample without trigger error whose trigger activation is
    retrieved and has [n] parsed bound-action log entries,
    [getActionSamplesOfRules] yields [n] samples; the [i]-th one has the
    [bi] of the rule sample, the [start] of the trigger activation as [ts],
    and the [activationId] of the [i]-th entry as [aaid] when the entry
    reports success, its [error] as [aaidError] otherwise; and [postProcess]
    handles the rule sample by running [processSampleWithAction] over these
    samples from the first to the last. *)
Theorem C5_rule_sample_expansion
    (ow_activations_get : option string -> option Activation)
    (sql : bool) (mt : TimeFrame) (triggerSample : Sample)
    (triggerActivation : Activation) (records : list BoundActionRecord)
    (st : ProcState) :
  truthy_err (taidError triggerSample) = false ->
  ow_activations_get (taid triggerSample) = Some triggerActivation ->
  act_logs triggerActivation = map Json records ->
  exists actionSamples : list Sample,
    getActionSamplesOfRules ow_activations_get triggerSample = Some actionSamples
    /\ List.length actionSamples = List.length records
    /\ (forall (i : nat) (r : BoundActionRecord),
           nth_error records i = Some r ->
           exists s : Sample,
             nth_error actionSamples i = Some s
             /\ bi s = bi triggerSample
             /\ ts s = act_start triggerActivation
             /\ (if success r then aaid s = activationId r
                 else aaidError s = error r))
    /\ postProcessSample ow_activations_get sql mt RULE triggerSample st
       = Some (fold_left
                 (fun st actionSample =>
                    processSampleWithAction ow_activations_get sql mt actionSample st)
                 actionSamples st).
Proof.
  intros Herr Hget Hlogs.
  unfold postProcessSample, getActionSamplesOfRules.
  rewrite Herr, Hget, Hlogs, actionSamplesOfLogs_parsed. simpl.
  eexists. split; [reflexivity |]. split; [apply length_map |].
  split; [| reflexivity].
  intros i r Hi.
  eexists. split; [apply map_nth_error; exact Hi |].
  match goal with
  | |- context [actionSampleOf ?t r] =>
    destruct (actionSampleOf_fields t r) as [Hbi [Hts Hid]]
  end.
  rewrite Hbi, Hts. simpl. auto.
Qed.

Lemma C5_rule_sample_expansion_witness :
  exists actionSamples : list Sample,
    getActionSamplesOfRules
      (fun _ => Some (mkActivation (Some 12) (Some 13) None
                        [Json (mkBoundActionRecord true (Some "a1"%string) None);
                         Json (mkBoundActionRecord false None (Some (ErrStr "failed")));
                         Json (mkBoundActionRecord true (Some "a3"%string) None)]))
      ruleSample = Some actionSamples
    /\ List.length actionSamples = 3%nat.
Proof.
  destruct (C5_rule_sample_expansion
              (fun _ => Some (mkActivation (Some 12) (Some 13) None
                        [Json (mkBoundActionRecord true (Some "a1"%string) None);
                         Json (mkBoundActionRecord false None (Some (ErrStr "failed")));
                         Json (mkBoundActionRecord true (Some "a3"%string) None)]))
              false (mkTimeFrame 0 100) ruleSample
              (mkActivation (Some 12) (Some 13) None
                        [Json (mkBoundActionRecord true (Some "a1"%string) None);
                         Json (mkBoundActionRecord false None (Some (ErrStr "failed")));
                         Json (mkBoundActionRecord true (Some "a3"%string) None)])
              [mkBoundActionRecord true (Some "a1"%string) None;
               mkBoundActionRecord false None (Some (ErrStr "failed"));
               mkBoundActionRecord true (Some "a3"%string) None]
              ProcState0 eq_refl eq_refl eq_refl)
    as [actionSamples [H1 [H2 _]]].
  exists actionSamples. split; [exact H1 | exact H2].
Defined.

(** ** C2: a full invocation *)

Lemma truthy_nonzero (v : Z) : v <> 0 -> truthy (Some v) = true.
Proof. intros H. simpl. now destruct (Z.eqb_spec v 0). Qed.

Lemma updateAcc_folded (v : Z) (a : StatAccumulator) :
  v <> 0 -> acc_ok a -> updateAcc (Some v) a = folded v a.
Proof.
  intros Hv [Hmin Hmax].
  destruct a as [[s |] [q |] [m |] [x |]]; unfold updateAcc, folded; simpl in *;
    repeat match goal with
           | |- context [?z =? 0] => destruct (Z.eqb_spec z 0); subst
           | |- context [?y <? ?z] => destruct (Z.ltb_spec y z)
           end; simpl; try congruence;
    repeat f_equal; try lia.
Qed.

Lemma updateLatSample_folded (m : StatName) (v : Z) (l : latCounters) :
  v <> 0 -> acc_ok (lat_get m l) ->
  lat_get m (updateLatSample m (Some v) l) = folded v (lat_get m l).
Proof.
  intros Hv Hok. rewrite updateLatSample_same by exact Hv.
  now apply updateAcc_folded.
Qed.

Lemma window_tests (mt : TimeFrame) (x y : Z) :
  start mt <= x -> y <= stop mt ->
  js_lt (Some x) (Some (start mt)) || js_gt (Some y) (Some (stop mt)) = false.
Proof.
  intros Hx Hy. unfold js_gt, js_lt.
  destruct (Z.ltb_spec x (start mt)); [lia |].
  destruct (Z.ltb_spec (stop mt) y); [lia | reflexivity].
Qed.

(** The counters and the accumulators after a full invocation, before any
    case analysis on the metric values: the trigger leg, then the action
    leg, then the eight calls of [updateLatSample] in the order of the
    source. *)
Lemma processSample_full sql mt sample activation st (b a e : Z) :
  bi sample = Some b ->
  act_start activation = Some a ->
  act_end activation = Some e ->
  start mt <= b <= stop mt ->
  start mt <= a <= stop mt ->
  start mt <= e <= stop mt ->
  truthy_err (taidError sample) = false ->
  truthy_err (aaidError sample) = false ->
  let st' := processSample sql mt sample (Some activation) st in
  let d := act_duration activation in
  let t := if truthy (ts sample) then ts sample else None in
  let rtt := if truthy (ai sample) then js_sub (ai sample) (Some b) else None in
  tp st'
  = incr_invocations (incr_requests (incr_activations
      (if truthy (ts sample)
          && (js_ge t (Some (start mt)) && js_le t (Some (stop mt)))
       then incr_requests (incr_activations (incr_attempts (tp st)))
       else incr_attempts (tp st))))
  /\ lat st'
     = updateLatSample ORTT (if truthy rtt then js_sub rtt d else None)
         (updateLatSample RTT rtt
            (updateLatSample ORA
               (if truthy (ai sample) then js_sub (ai sample) (Some e) else None)
               (updateLatSample OER (js_sub (Some (e - b)) d)
                  (updateLatSample OEA (Some (a - b))
                     (updateLatSample AD (Some (e - a))
                        (updateLatSample TA
                           (if truthy t then js_sub (Some a) t else None)
                           (updateLatSample D d (lat st)))))))).
Proof.
  intros Hbi Has Hae Hb Ha He Hterr Haerr st' d t rtt.
  subst st' d t rtt. unfold processSample, parseInt.
  rewrite Hbi, Has, Hae, Hterr, Haerr.
  rewrite (window_tests mt b b) by lia.
  rewrite (window_tests mt a e) by lia.
  cbn [js_sub].
  match goal with
  | |- context [if ?c && ?w then _ else _] => destruct (c && w)
  end;
    destruct sql; split; reflexivity.
Qed.

(** Reads one accumulator off the chain of [updateLatSample] calls: the
    calls for the other metrics are skipped, the one for the metric itself
    folds the value. *)
Ltac fold_metric Hv Hok :=
  repeat (rewrite updateLatSample_other by discriminate);
  rewrite updateLatSample_folded;
  [ repeat (rewrite updateLatSample_other by discriminate); reflexivity
  | exact Hv
  | repeat (rewrite updateLatSample_other by discriminate); exact Hok ].

(** C2, as the code has it: for a sample with [bi] in the time frame,
    without trigger error and action error, whose activation was retrieved
    with [start] and [end] in the time frame, [processSample] adds one to
    [attempts] and [invocations], none to [errors], and one to [activations]
    and [requests], plus one more to each when the sample carries a trigger
    start (a number other than 0) inside the time frame.  Each metric whose
    value is a number other than 0 is folded into its accumulator (whose
    [min] and [max] are not 0, as in every state post-processing reaches):
    [d], [ad = ae - as], [oea = as - bi] and [oer = ae - bi - d]; [ta = as -
    ts] when a trigger start was recorded, the accumulator staying as it was
    otherwise; [ora = ai - ae] and [rtt = ai - bi] when [ai] was recorded,
    [ortt = rtt - d] when [ai] was recorded and [rtt] is not 0, the three
    accumulators staying as they were when [ai] was not recorded. *)
Theorem C2_full_invocation_counters
    (sql : bool) (mt : TimeFrame) (sample : Sample) (activation : Activation)
    (st : ProcState) (b a e : Z) :
  bi sample = Some b ->
  act_start activation = Some a ->
  act_end activation = Some e ->
  start mt <= b <= stop mt ->
  start mt <= a <= stop mt ->
  start mt <= e <= stop mt ->
  truthy_err (taidError sample) = false ->
  truthy_err (aaidError sample) = false ->
  let st' := processSample sql mt sample (Some activation) st in
  let before m := lat_get m (lat st) in
  let after m := lat_get m (lat st') in
  attempts (tp st') = attempts (tp st) + 1
  /\ invocations (tp st') = invocations (tp st) + 1
  /\ errors (tp st') = errors (tp st)
  /\ activations (tp st') = activations (tp st) + 1 + triggerLeg mt sample
  /\ requests (tp st') = requests (tp st) + 1 + triggerLeg mt sample
  /\ (forall dur, act_duration activation = Some dur -> dur <> 0 ->
        acc_ok (before D) -> after D = folded dur (before D))
  /\ (e - a <> 0 -> acc_ok (before AD) -> after AD = folded (e - a) (before AD))
  /\ (a - b <> 0 -> acc_ok (before OEA) -> after OEA = folded (a - b) (before OEA))
  /\ (forall dur, act_duration activation = Some dur -> e - b - dur <> 0 ->
        acc_ok (before OER) -> after OER = folded (e - b - dur) (before OER))
  /\ (forall t, ts sample = Some t -> t <> 0 -> a - t <> 0 ->
        acc_ok (before TA) -> after TA = folded (a - t) (before TA))
  /\ (truthy (ts sample) = false -> after TA = before TA)
  /\ (forall i, ai sample = Some i -> i <> 0 -> i - e <> 0 ->
        acc_ok (before ORA) -> after ORA = folded (i - e) (before ORA))
  /\ (forall i, ai sample = Some i -> i <> 0 -> i - b <> 0 ->
        acc_ok (before RTT) -> after RTT = folded (i - b) (before RTT))
  /\ (forall i dur, ai sample = Some i -> act_duration activation = Some dur ->
        i <> 0 -> i - b <> 0 -> i - b - dur <> 0 ->
        acc_ok (before ORTT) -> after ORTT = folded (i - b - dur) (before ORTT))
  /\ (truthy (ai sample) = false ->
        after ORA = before ORA /\ after RTT = before RTT
        /\ after ORTT = before ORTT).
Proof.
  intros Hbi Has Hae Hb Ha He Hterr Haerr st' before after.
  destruct (processSample_full sql mt sample activation st b a e
              Hbi Has Hae Hb Ha He Hterr Haerr) as [Htp Hlat].
  fold st' in Htp, Hlat. subst before after. cbv beta.
  rewrite Htp, Hlat. clear Htp Hlat.
  assert (Hleg : forall c : tpCounters,
             (if truthy (ts sample)
                 && (js_ge (if truthy (ts sample) then ts sample else None)
                           (Some (start mt))
                     && js_le (if truthy (ts sample) then ts sample else None)
                              (Some (stop mt)))
              then incr_requests (incr_activations c) else c)
             = {| attempts := attempts c;
                  invocations := invocations c;
                  activations := activations c + triggerLeg mt sample;
                  requests := requests c + triggerLeg mt sample;
                  errors := errors c |}).
  { intros [at_ iv ac rq er]. unfold triggerLeg.
    destruct (ts sample) as [t |]; cbn [truthy andb].
    - destruct (negb (t =? 0)); cbn [andb js_ge js_le].
      + destruct ((start mt <=? t) && (t <=? stop mt));
          unfold incr_requests, incr_activations;
          cbn [attempts invocations activations requests errors];
          f_equal; lia.
      + cbn [attempts invocations activations requests errors]; f_equal; lia.
    - cbn [attempts invocations activations requests errors]; f_equal; lia. }
  rewrite Hleg. cbn [attempts invocations errors activations requests
                     incr_attempts incr_invocations incr_activations incr_requests].
  repeat match goal with
         | |- _ /\ _ => split
         end; try lia.
  - intros dur Hd Hv Hok. rewrite Hd. fold_metric Hv Hok.
  - intros Hv Hok. fold_metric Hv Hok.
  - intros Hv Hok. fold_metric Hv Hok.
  - intros dur Hd Hv Hok. rewrite Hd. cbn [js_sub]. fold_metric Hv Hok.
  - intros t Ht Ht0 Hv Hok.
    rewrite Ht, !(truthy_nonzero t Ht0). cbn [js_sub]. fold_metric Hv Hok.
  - intros Ht. rewrite Ht. cbn [truthy].
    repeat first [ rewrite updateLatSample_other by discriminate
                 | rewrite updateLatSample_falsy by reflexivity ].
    reflexivity.
  - intros i Hi Hi0 Hv Hok.
    rewrite Hi, (truthy_nonzero i Hi0). cbn [js_sub]. fold_metric Hv Hok.
  - intros i Hi Hi0 Hv Hok.
    rewrite Hi, (truthy_nonzero i Hi0). cbn [js_sub]. fold_metric Hv Hok.
  - intros i dur Hi Hd Hi0 Hrtt Hv Hok.
    rewrite Hi, Hd, (truthy_nonzero i Hi0). cbn [js_sub].
    rewrite (truthy_nonzero (i - b) Hrtt). cbn [js_sub]. fold_metric Hv Hok.
  - intros Hi. rewrite Hi. cbn [truthy].
    repeat split;
      repeat first [ rewrite updateLatSample_other by discriminate
                   | rewrite updateLatSample_falsy by reflexivity ];
      reflexivity.
Qed.

Lemma acc_ok_latCounters0 (m : StatName) : acc_ok (lat_get m latCounters0).
Proof. destruct m; split; discriminate. Qed.

Lemma C2_full_invocation_counters_witness :
  let st' := processSample false (mkTimeFrame 0 100) blockingRuleSample
                           (Some someActivation) ProcState0 in
  attempts (tp st') = 0 + 1
  /\ invocations (tp st') = 0 + 1
  /\ activations (tp st') = 0 + 1 + 1
  /\ lat_get D (lat st') = folded 5 (lat_get D latCounters0)
  /\ lat_get TA (lat st') = folded (20 - 12) (lat_get TA latCounters0)
  /\ lat_get ORTT (lat st') = folded (50 - 10 - 5) (lat_get ORTT latCounters0).
Proof.
  destruct (C2_full_invocation_counters
              false (mkTimeFrame 0 100) blockingRuleSample someActivation
              ProcState0 10 20 40 eq_refl eq_refl eq_refl)
    as (H1 & H2 & _ & H4 & _ & HD & _ & _ & _ & HTA & _ & _ & _ & HORTT & _);
    try (simpl; lia); try reflexivity.
  refine (conj H1 (conj H2 (conj H4 (conj _ (conj _ _))))).
  - apply (HD 5); [reflexivity | lia | apply acc_ok_latCounters0].
  - apply (HTA 12); [reflexivity | lia | lia | apply acc_ok_latCounters0].
  - apply (HORTT 50 5); [reflexivity | reflexivity | lia | lia | lia
                        | apply acc_ok_latCounters0].
Defined.

(** C2 as stated fails for a sample derived from a rule: with the time
    frame [0, 100], [bi = 10], a trigger start 12 and an activation from 20
    to 40 of duration 5, every condition of the claim holds and
    [processSample] adds two to [activations] and to [requests], not one. *)
Lemma C2_rule_sample_counted_twice :
  let st' := processSample false (mkTimeFrame 0 100) ruleSample
                           (Some someActivation) ProcState0 in
  activations (tp st') = 2 /\ requests (tp st') = 2 /\ invocations (tp st') = 1
  /\ activations (tp st') <> activations (tp ProcState0) + 1
  /\ requests (tp st') <> requests (tp ProcState0) + 1.
Proof. cbv. repeat split; discriminate. Qed.

(** ** C4: order of [min], [avg] and [max] *)

(** C4, at a process that measured two invocations in the time frame
    [0, 100], of durations 10 and 0: the duration 0 is counted in
    [invocations] and skipped by [updateLatSample], so [computeLatStats]
    divides the sum 10 by 2 and returns [avg = 5] below [min = 10]. *)
Theorem C4_avg_below_min_after_zero_duration :
  invocations (tp twoSamples) = 2
  /\ lat_get D (lat twoSamples) = mkAcc (Some 10) (Some 100) (Some 10) (Some 10)
  /\ exists (q : Q) (radicand : jsnum),
      computeLatStats false [mkSummary (lat twoSamples) (tp twoSamples)] D
      = Some {| avg := Some (Fin q); std := Some (Math_sqrt radicand);
                ls_min := Some 10; ls_max := Some 10 |}
      /\ (q == 5)%Q /\ (q < inject_Z 10)%Q.
Proof.
  split; [reflexivity |]. split; [reflexivity |].
  eexists. eexists. split; [vm_compute; reflexivity |].
  split; reflexivity.
Qed.

(** ** C9: retry of the per-sample insert *)

(** With [trycnt] at 50 or more, the first error ends the insert. *)
Lemma insert_gives_up_at_once (busy : nat -> bool) (n : nat) (t : Z) :
  busy n = true -> 50 <= t ->
  sql_insert_workersample busy n (Some t)
  = {| runs := 1; stored := false; gaveUp := true |}.
Proof.
  intros Hbusy Ht. simp sql_insert_workersample. rewrite Hbusy. simpl.
  destruct (Z_lt_dec t 50); [lia | reflexivity].
Qed.

(** C9, at an admitted sample with [bi = 1100] while the database is busy
    for the first [db.run] only: [processSample] calls
    [sql_insert_workersample] without the [trycnt] argument, so the callee
    takes [bi] for [trycnt]; the test [trycnt < 50] fails at the first
    error and the row is dropped after one run, where a call with
    [trycnt = 0] stores it at the second run, and gives up after 51 runs on
    a database that stays busy. *)
Theorem C9_insert_dropped_without_retry :
  map trycnt
      (sqlCalls (processSample true (mkTimeFrame 1000 2000) (sampleAt 1100)
                               (Some (mkActivation (Some 1200) (Some 1300) (Some 50) []))
                               ProcState0))
  = [Some 1100]
  /\ sql_insert_workersample (fun n => Nat.eqb n 0) 0 (Some 1100)
     = {| runs := 1; stored := false; gaveUp := true |}
  /\ sql_insert_workersample (fun n => Nat.eqb n 0) 0 (Some 0)
     = {| runs := 2; stored := true; gaveUp := false |}
  /\ sql_insert_workersample (fun _ => true) 0 (Some 0)
     = {| runs := 51; stored := false; gaveUp := true |}.
Proof. repeat split; vm_compute; reflexivity. Qed.

(** ** C8: the scenario of ten iterations *)

Section Scenario.

Variable W : World.
Variable input : Input.

Hypothesis master : isMaster W = true.
Hypothesis one_worker : input_workers input = 1.
Hypothesis ten_iterations : input_iterations input = Some 10.
Hypothesis no_period : input_period input = None.
Hypothesis ratio_one : input_ratio input = 1.
Hypothesis action : input_activity input = ACTION.
Hypothesis not_blocking : input_blocking input = NONE.
Hypothesis no_master_activity : input_master_activity input = None.
Hypothesis no_master_blocking : input_master_blocking input = None.

Lemma scenario_activity : activity W input = ACTION.
Proof. unfold activity. now rewrite no_master_activity. Qed.

Lemma scenario_doBlocking : doBlocking W input = false.
Proof.
  unfold doBlocking, blocking. now rewrite no_master_blocking, not_blocking.
Qed.

(** One invocation yields one sample, without [ai] and without trigger
    fields, whether the client accepts or rejects it. *)
Lemma scenario_invokeActions (si : Z) (r c : nat) :
  exists (s : Sample) (r' c' : nat),
    invokeActions W input (input_ratio input) si r c = ([s], r', c')
    /\ actionSampleNoAi s.
Proof.
  rewrite ratio_one. unfold invokeActions. simpl.
  destruct (input_burst_timing input);
    destruct (ow_actions_invoke W c); simpl;
    rewrite ?scenario_doBlocking;
    do 3 eexists; (split; [reflexivity | repeat split]).
Qed.

(** No handler is installed that could run between two turns. *)
Lemma scenario_handlers (evs : list Event) (st : LoopState) :
  timerSet st = false ->
  fold_left (fun st e => handle W input e st) evs st = st.
Proof.
  intros Ht. induction evs as [| e evs IH]; simpl; [reflexivity |].
  replace (handle W input e st) with st; [exact IH |].
  destruct e; simpl.
  - rewrite master, one_worker. reflexivity.
  - rewrite Ht. reflexivity.
  - rewrite master. reflexivity.
Qed.

(** A turn of the warm-up. *)
Lemma turn_warmup (fuel k : nat) (wc : Z) (mt : TimeFrame) (sd : list Sample)
    (sent r c : nat) :
  0 < wc ->
  exists (s : Sample) (r' c' : nat),
    actionSampleNoAi s
    /\ mainLoop W input (S fuel) k (mkLoop false wc 1 (-1) mt sd false sent r c)
       = mainLoop W input fuel (S k)
                  (mkLoop false (wc - 1) 1 (-1) mt (sd ++ [s]) false sent r' c').
Proof.
  intros Hwc.
  destruct (scenario_invokeActions (now W r) (S r) c) as [s [r' [c' [Hinv Hs]]]].
  exists s, (S r'), c'. split; [exact Hs |].
  assert (E0 : (wc =? 0) = false) by (apply Z.eqb_neq; lia).
  assert (E1 : (wc >=? 0) = true) by (rewrite Z.geb_leb; apply Z.leb_le; lia).
  cbn -[invokeActions Z.sub]. rewrite E0. cbn -[invokeActions Z.sub]. rewrite E1.
  rewrite scenario_activity. cbn -[invokeActions Z.sub]. rewrite Hinv.
  rewrite scenario_handlers by reflexivity. reflexivity.
Qed.

(** The turn in which the warm-up ends: [checkInit] stamps the start of
    the time frame and arms the countdown of iterations, which the same
    turn takes from 10 to 9. *)
Lemma turn_init (fuel k : nat) (mt : TimeFrame) (sd : list Sample)
    (sent r c : nat) :
  exists (s : Sample) (mt' : TimeFrame) (r' c' : nat),
    actionSampleNoAi s
    /\ mainLoop W input (S fuel) k (mkLoop false 0 1 (-1) mt sd false sent r c)
       = mainLoop W input fuel (S k)
                  (mkLoop false (-1) 0 9 mt' (sd ++ [s]) false sent r' c').
Proof.
  destruct (scenario_invokeActions (now W (S r)) (S (S r)) c)
    as [s [r' [c' [Hinv Hs]]]].
  exists s, (mkTimeFrame (now W r) (stop mt)), (S r'), c'. split; [exact Hs |].
  cbn -[invokeActions checkInit]. rewrite master.
  unfold checkInit. cbn -[invokeActions].
  rewrite ten_iterations, no_period. cbn -[invokeActions].
  rewrite scenario_activity. cbn -[invokeActions]. rewrite Hinv.
  rewrite scenario_handlers by reflexivity. reflexivity.
Qed.

(** A turn of the measurement. *)
Lemma turn_measure (fuel k : nat) (rem : Z) (mt : TimeFrame) (sd : list Sample)
    (sent r c : nat) :
  0 < rem ->
  exists (s : Sample) (r' c' : nat),
    actionSampleNoAi s
    /\ mainLoop W input (S fuel) k (mkLoop false (-1) 0 rem mt sd false sent r c)
       = mainLoop W input fuel (S k)
                  (mkLoop false (-1) 0 (rem - 1) mt (sd ++ [s]) false sent r' c').
Proof.
  intros Hrem.
  destruct (scenario_invokeActions (now W r) (S r) c) as [s [r' [c' [Hinv Hs]]]].
  exists s, (S r'), c'. split; [exact Hs |].
  assert (E0 : (rem =? 0) = false) by (apply Z.eqb_neq; lia).
  assert (E1 : (rem >? 0) = true) by (rewrite Z.gtb_ltb; apply Z.ltb_lt; lia).
  cbn -[invokeActions Z.sub]. rewrite E0, E1.
  rewrite scenario_activity. cbn -[invokeActions Z.sub]. rewrite Hinv.
  rewrite scenario_handlers by reflexivity. reflexivity.
Qed.

(** The turn that finds the countdown at 0 aborts the loop. *)
Lemma turn_abort (fuel k : nat) (mt : TimeFrame) (sd : list Sample)
    (sent r c : nat) :
  mainLoop W input (S (S fuel)) k (mkLoop false (-1) 0 0 mt sd false sent r c)
  = Some (mkLoop true (-1) 0 0 mt sd false sent r c).
Proof. reflexivity. Qed.

(** The warm-up: [n] turns, each adding one sample. *)
Lemma phase_warmup (n : nat) :
  forall (fuel k : nat) (mt : TimeFrame) (sd : list Sample) (sent r c : nat),
    Forall actionSampleNoAi sd ->
    exists (sd' : list Sample) (k' r' c' : nat),
      List.length sd' = (List.length sd + n)%nat
      /\ Forall actionSampleNoAi sd'
      /\ mainLoop W input (n + fuel) k
                  (mkLoop false (Z.of_nat n) 1 (-1) mt sd false sent r c)
         = mainLoop W input fuel k'
                    (mkLoop false 0 1 (-1) mt sd' false sent r' c').
Proof.
  induction n as [| n IH]; intros fuel k mt sd sent r c Hsd.
  - exists sd, k, r, c. repeat split; [lia | exact Hsd].
  - destruct (turn_warmup (n + fuel) k (Z.of_nat (S n)) mt sd sent r c)
      as [s [r1 [c1 [Hs Hturn]]]]; [lia |].
    replace (Z.of_nat (S n) - 1) with (Z.of_nat n) in Hturn by lia.
    destruct (IH fuel (S k) mt (sd ++ [s]) sent r1 c1)
      as [sd' [k' [r' [c' [Hlen [Hall Hrun]]]]]].
    { apply Forall_app. split; [exact Hsd | now constructor]. }
    exists sd', k', r', c'. repeat split.
    + rewrite Hlen, length_app. simpl. lia.
    + exact Hall.
    + change (S n + fuel)%nat with (S (n + fuel)). rewrite Hturn. exact Hrun.
Qed.

(** The measurement: the countdown goes from [n] to 0 in [n] turns, each
    adding one sample. *)
Lemma phase_measure (n : nat) :
  forall (fuel k : nat) (mt : TimeFrame) (sd : list Sample) (sent r c : nat),
    Forall actionSampleNoAi sd ->
    exists (sd' : list Sample) (k' r' c' : nat),
      List.length sd' = (List.length sd + n)%nat
      /\ Forall actionSampleNoAi sd'
      /\ mainLoop W input (n + fuel) k
                  (mkLoop false (-1) 0 (Z.of_nat n) mt sd false sent r c)
         = mainLoop W input fuel k'
                    (mkLoop false (-1) 0 0 mt sd' false sent r' c').
Proof.
  induction n as [| n IH]; intros fuel k mt sd sent r c Hsd.
  - exists sd, k, r, c. repeat split; [lia | exact Hsd].
  - destruct (turn_measure (n + fuel) k (Z.of_nat (S n)) mt sd sent r c)
      as [s [r1 [c1 [Hs Hturn]]]]; [lia |].
    replace (Z.of_nat (S n) - 1) with (Z.of_nat n) in Hturn by lia.
    destruct (IH fuel (S k) mt (sd ++ [s]) sent r1 c1)
      as [sd' [k' [r' [c' [Hlen [Hall Hrun]]]]]].
    { apply Forall_app. split; [exact Hsd | now constructor]. }
    exists sd', k', r', c'. repeat split.
    + rewrite Hlen, length_app. simpl. lia.
    + exact Hall.
    + change (S n + fuel)%nat with (S (n + fuel)). rewrite Hturn. exact Hrun.
Qed.

(** C8, as the code has it: in the scenario, run by the master with a
    warm-up count that is not negative, [mainLoop] ends, aborted by the
    countdown of iterations, after [warmup + 12] evaluations of its
    condition at most; the buffer then holds [warmup + 10] samples, the
    warm-up invocations being collected like the measured ones; every
    sample is a sample of an action invocation and none has [ai] set. *)
Theorem C8_scenario_collects_warmup_plus_ten :
  0 <= input_warmup input ->
  exists st : LoopState,
    mainLoop W input (Z.to_nat (input_warmup input) + 12) 0 (LoopState0 input)
    = Some st
    /\ abort st = true
    /\ Z.of_nat (List.length (sampleData st)) = input_warmup input + 10
    /\ Forall actionSampleNoAi (sampleData st).
Proof.
  intros Hw. unfold LoopState0. rewrite one_worker.
  remember (Z.to_nat (input_warmup input)) as n eqn:En.
  assert (Ew : input_warmup input = Z.of_nat n) by lia.
  rewrite Ew. clear En Ew Hw.
  destruct (phase_warmup n 12 0 measurementTime0
                         [] 0 0 0 (Forall_nil _))
    as [sd1 [k1 [r1 [c1 [Hlen1 [Hall1 Hrun1]]]]]].
  rewrite Hrun1.
  destruct (turn_init 11 k1 measurementTime0 sd1 0 r1 c1)
    as [s [mt' [r2 [c2 [Hs Hrun2]]]]].
  rewrite Hrun2.
  destruct (phase_measure 9 2 (S k1) mt' (sd1 ++ [s]) 0 r2 c2)
    as [sd3 [k3 [r3 [c3 [Hlen3 [Hall3 Hrun3]]]]]].
  { apply Forall_app. split; [exact Hall1 | now constructor]. }
  change 11%nat with (9 + 2)%nat. change 9 with (Z.of_nat 9).
  rewrite Hrun3, turn_abort.
  eexists. split; [reflexivity |]. cbn [abort sampleData].
  repeat split; [| exact Hall3].
  rewrite Hlen3, length_app, Hlen1. simpl List.length. lia.
Qed.

End Scenario.

Lemma C8_scenario_collects_warmup_plus_ten_witness :
  exists st : LoopState,
    mainLoop acceptingWorld scenarioInput 17 0 (LoopState0 scenarioInput) = Some st
    /\ abort st = true
    /\ Z.of_nat (List.length (sampleData st)) = 5 + 10
    /\ Forall actionSampleNoAi (sampleData st).
Proof.
  apply (C8_scenario_collects_warmup_plus_ten
           acceptingWorld scenarioInput eq_refl eq_refl eq_refl eq_refl eq_refl
           eq_refl eq_refl eq_refl eq_refl).
  simpl. lia.
Defined.

(** C8 as stated fails with the default warm-up of 5: the loop of the
    scenario leaves 15 samples in the buffer, not 10. *)
Lemma C8_fifteen_samples_with_default_warmup :
  exists st : LoopState,
    mainLoop acceptingWorld scenarioInput 17 0 (LoopState0 scenarioInput) = Some st
    /\ List.length (sampleData st) = 15%nat
    /\ List.length (sampleData st) <> 10%nat.
Proof.
  eexists. split; [vm_compute; reflexivity |].
  split; [reflexivity | discriminate].
Qed.

(** * Further properties *)

(** ** The running statistics *)

Lemma sumZ_snoc (vs : list Z) (v : Z) : sumZ (vs ++ [v]) = sumZ vs + v.
Proof. unfold sumZ. induction vs as [| x vs IH]; simpl; [lia | rewrite IH; lia]. Qed.

Lemma sumSq_snoc (vs : list Z) (v : Z) : sumSq (vs ++ [v]) = sumSq vs + v * v.
Proof. unfold sumSq. induction vs as [| x vs IH]; simpl; [lia | rewrite IH; lia]. Qed.

Lemma sumZ_app (xs ys : list Z) : sumZ (xs ++ ys) = sumZ xs + sumZ ys.
Proof. unfold sumZ. induction xs as [| x xs IH]; simpl; [reflexivity | rewrite IH; lia]. Qed.

Lemma sumSq_app (xs ys : list Z) : sumSq (xs ++ ys) = sumSq xs + sumSq ys.
Proof. unfold sumSq. induction xs as [| x xs IH]; simpl; [reflexivity | rewrite IH; lia]. Qed.

Lemma least_snoc (v : Z) (vs : list Z) (x : Z) :
  least v (vs ++ [x]) = Z.min (least v vs) x.
Proof. unfold least. rewrite fold_left_app. reflexivity. Qed.

Lemma greatest_snoc (v : Z) (vs : list Z) (x : Z) :
  greatest v (vs ++ [x]) = Z.max (greatest v vs) x.
Proof. unfold greatest. rewrite fold_left_app. reflexivity. Qed.

Lemma least_spec (vs : list Z) :
  forall v, In (least v vs) (v :: vs) /\ forall x, In x (v :: vs) -> least v vs <= x.
Proof.
  unfold least. induction vs as [| y vs IH]; intros v; simpl.
  - split; [now left |]. intros x [<- | []]. lia.
  - destruct (IH (Z.min v y)) as [Hin Hle]. split.
    + destruct Hin as [E | Hin]; [| now right; right].
      rewrite <- E. destruct (Z.min_spec v y) as [[_ ->] | [_ ->]]; auto.
    + intros x [<- | [<- | Hx]].
      * specialize (Hle (Z.min v y) (or_introl eq_refl)). lia.
      * specialize (Hle (Z.min v y) (or_introl eq_refl)). lia.
      * apply Hle. now right.
Qed.

Lemma greatest_spec (vs : list Z) :
  forall v, In (greatest v vs) (v :: vs) /\ forall x, In x (v :: vs) -> x <= greatest v vs.
Proof.
  unfold greatest. induction vs as [| y vs IH]; intros v; simpl.
  - split; [now left |]. intros x [<- | []]. lia.
  - destruct (IH (Z.max v y)) as [Hin Hle]. split.
    + destruct Hin as [E | Hin]; [| now right; right].
      rewrite <- E. destruct (Z.max_spec v y) as [[_ ->] | [_ ->]]; auto.
    + intros x [<- | [<- | Hx]].
      * specialize (Hle (Z.max v y) (or_introl eq_refl)). lia.
      * specialize (Hle (Z.max v y) (or_introl eq_refl)). lia.
      * apply Hle. now right.
Qed.

Lemma nonzero_In (vs : list Z) (x : Z) : In x (nonzero vs) -> x <> 0 /\ In x vs.
Proof.
  unfold nonzero. rewrite filter_In. intros [Hin Hx]. split; [| exact Hin].
  intros ->. discriminate.
Qed.

Lemma statsOf_acc_ok (vs : list Z) :
  (forall x, In x vs -> x <> 0) -> acc_ok (statsOf vs).
Proof.
  intros Hnz. destruct vs as [| v rest]; [split; discriminate |].
  unfold statsOf, acc_ok. cbn [a_min a_max].
  destruct (least_spec rest v) as [Hl _]. destruct (greatest_spec rest v) as [Hg _].
  split; intros [= E]; [apply (Hnz _ Hl) | apply (Hnz _ Hg)]; exact E.
Qed.

Lemma folded_statsOf (vs : list Z) (v : Z) :
  folded v (statsOf vs) = statsOf (vs ++ [v]).
Proof.
  destruct vs as [| x rest]; unfold folded, statsOf.
  - simpl. unfold least, greatest. simpl. f_equal; f_equal; lia.
  - cbn [app a_sum a_sumSqr a_min a_max].
    change (x :: rest ++ [v]) with ((x :: rest) ++ [v]).
    rewrite sumZ_snoc, sumSq_snoc, least_snoc, greatest_snoc. reflexivity.
Qed.

(** The accumulator of a metric after a list of values was folded, in
    terms of the accumulator before. *)
Lemma foldValues_get (m : StatName) (values : list jsint) :
  forall l : latCounters,
    lat_get m (foldValues m values l)
    = fold_left (fun a value => if truthy value then updateAcc value a else a)
                values (lat_get m l).
Proof.
  unfold foldValues. induction values as [| value values IH]; intros l; simpl.
  - reflexivity.
  - rewrite IH. f_equal. unfold updateLatSample.
    destruct (truthy value); simpl; [apply lat_get_set_same | reflexivity].
Qed.

Lemma foldValues_other (m m' : StatName) (values : list jsint) :
  m <> m' ->
  forall l : latCounters, lat_get m' (foldValues m values l) = lat_get m' l.
Proof.
  intros Hm. unfold foldValues.
  induction values as [| value values IH]; intros l; simpl; [reflexivity |].
  rewrite IH. now apply updateLatSample_other.
Qed.

Lemma fold_updateAcc_statsOf (vs : list Z) :
  forall seen : list Z,
    (forall x, In x seen -> x <> 0) ->
    fold_left (fun a value => if truthy value then updateAcc value a else a)
              (map Some vs) (statsOf seen)
    = statsOf (seen ++ nonzero vs).
Proof.
  induction vs as [| v vs IH]; intros seen Hseen; simpl.
  - now rewrite app_nil_r.
  - destruct (Z.eqb_spec v 0) as [-> | Hv]; simpl.
    + apply IH. exact Hseen.
    + rewrite updateAcc_folded by (try exact Hv; now apply statsOf_acc_ok).
      rewrite folded_statsOf, IH.
      * now rewrite <- app_assoc.
      * intros x Hx. apply in_app_or in Hx. destruct Hx as [Hx | [<- | []]]; auto.
Qed.

Lemma foldValues_statsOf (m : StatName) (vs : list Z) :
  lat_get m (foldValues m (map Some vs) latCounters0) = statsOf (nonzero vs).
Proof.
  rewrite foldValues_get.
  replace (lat_get m latCounters0) with (statsOf []) by (destruct m; reflexivity).
  rewrite fold_updateAcc_statsOf; [reflexivity | intros x []].
Qed.

(** X1. The accumulator of a metric after any sequence of values was
    passed to [updateLatSample], starting from the empty counters, holds the
    statistics of the values that are not zero, in the order they came: their
    sum, the sum of their squares, their least and their greatest; the zeros
    leave no trace, and the accumulators of the other metrics stay empty. *)
Theorem updateLatSample_accumulates (m : StatName) (vs : list Z) :
  lat_get m (foldValues m (map Some vs) latCounters0) = statsOf (nonzero vs)
  /\ forall m', m' = m \/ lat_get m' (foldValues m (map Some vs) latCounters0) = acc0.
Proof.
  split; [apply foldValues_statsOf |].
  intros m'.
  assert (Hdec : m' = m \/ m <> m') by (destruct m, m'; auto; right; discriminate).
  destruct Hdec as [E | Hm]; [now left | right].
  rewrite foldValues_other by exact Hm. destruct m'; reflexivity.
Qed.

(** The Cauchy-Schwarz inequality for a list of integers. *)
Lemma sumSq_shift (vs : list Z) (x : Z) :
  0 <= sumSq vs - 2 * x * sumZ vs + Z.of_nat (List.length vs) * (x * x).
Proof.
  induction vs as [| v vs IH].
  - change (0 <= 0 - 2 * x * 0 + 0 * (x * x)). lia.
  - change (sumSq (v :: vs)) with (v * v + sumSq vs).
    change (sumZ (v :: vs)) with (v + sumZ vs).
    change (List.length (v :: vs)) with (S (List.length vs)).
    rewrite Nat2Z.inj_succ.
    pose proof (Z.square_nonneg (v - x)) as Hsq.
    replace (v * v + sumSq vs - 2 * x * (v + sumZ vs)
             + Z.succ (Z.of_nat (List.length vs)) * (x * x))
      with ((v - x) * (v - x)
            + (sumSq vs - 2 * x * sumZ vs + Z.of_nat (List.length vs) * (x * x)))
      by ring.
    lia.
Qed.

Lemma sumZ_square_le (vs : list Z) :
  sumZ vs * sumZ vs <= Z.of_nat (List.length vs) * sumSq vs.
Proof.
  induction vs as [| v vs IH].
  - simpl. lia.
  - pose proof (sumSq_shift vs v) as Hs.
    change (sumSq (v :: vs)) with (v * v + sumSq vs).
    change (sumZ (v :: vs)) with (v + sumZ vs).
    change (List.length (v :: vs)) with (S (List.length vs)).
    rewrite Nat2Z.inj_succ.
    replace (Z.succ (Z.of_nat (List.length vs)) * (v * v + sumSq vs))
      with ((v + sumZ vs) * (v + sumZ vs)
            + (Z.of_nat (List.length vs) * sumSq vs - sumZ vs * sumZ vs)
            + (sumSq vs - 2 * v * sumZ vs + Z.of_nat (List.length vs) * (v * v)))
      by ring.
    lia.
Qed.

Lemma sumZ_bounds (vs : list Z) (lo hi : Z) :
  (forall x, In x vs -> lo <= x <= hi) ->
  Z.of_nat (List.length vs) * lo <= sumZ vs <= Z.of_nat (List.length vs) * hi.
Proof.
  induction vs as [| v vs IH]; intros Hb.
  - simpl. lia.
  - change (sumZ (v :: vs)) with (v + sumZ vs).
    change (List.length (v :: vs)) with (S (List.length vs)).
    rewrite Nat2Z.inj_succ.
    assert (lo <= v <= hi) by (apply Hb; now left).
    assert (Z.of_nat (List.length vs) * lo <= sumZ vs <= Z.of_nat (List.length vs) * hi)
      by (apply IH; intros x Hx; apply Hb; now right).
    lia.
Qed.

(** X2. What the accumulator of a metric keeps, whatever values were
    passed to [updateLatSample], [k] of them not zero: when [k] is 0 it is
    still empty; otherwise [min] and [max] are values that were passed,
    [min <= max], [k * min <= sum <= k * max], and
    [sum * sum <= k * sumSqr], so that the mean of the folded values lies
    between [min] and [max] and their variance is not negative. *)
Theorem accumulator_invariants (m : StatName) (vs : list Z) :
  let a := lat_get m (foldValues m (map Some vs) latCounters0) in
  let k := Z.of_nat (List.length (nonzero vs)) in
  match nonzero vs with
  | [] => a = acc0
  | _ :: _ =>
    exists s q lo hi : Z,
      a = {| a_sum := Some s; a_sumSqr := Some q;
             a_min := Some lo; a_max := Some hi |}
      /\ In lo vs /\ In hi vs /\ lo <> 0 /\ hi <> 0
      /\ lo <= hi
      /\ k * lo <= s <= k * hi
      /\ s * s <= k * q
  end.
Proof.
  intros a k. subst a k.
  rewrite foldValues_statsOf.
  destruct (nonzero vs) as [| v rest] eqn:Enz; [reflexivity |].
  destruct (least_spec rest v) as [Hlin Hlle].
  destruct (greatest_spec rest v) as [Hgin Hgle].
  rewrite <- Enz in Hlin, Hgin.
  apply nonzero_In in Hlin. apply nonzero_In in Hgin.
  exists (sumZ (v :: rest)), (sumSq (v :: rest)), (least v rest), (greatest v rest).
  repeat split; try tauto.
  - specialize (Hlle v (or_introl eq_refl)).
    specialize (Hgle v (or_introl eq_refl)). lia.
  - apply (sumZ_bounds (v :: rest) (least v rest) (greatest v rest)).
    intros x Hx. split; [now apply Hlle | now apply Hgle].
  - apply (sumZ_bounds (v :: rest) (least v rest) (greatest v rest)).
    intros x Hx. split; [now apply Hlle | now apply Hgle].
  - apply sumZ_square_le.
Qed.

(** ** Aggregation of the latency statistics *)

Lemma fold_min_assoc (r : list Z) :
  forall a x, fold_left Z.min r (Z.min a x) = Z.min a (fold_left Z.min r x).
Proof.
  induction r as [| z r IH]; intros a x; simpl; [reflexivity |].
  rewrite <- Z.min_assoc. apply IH.
Qed.

Lemma fold_max_assoc (r : list Z) :
  forall a x, fold_left Z.max r (Z.max a x) = Z.max a (fold_left Z.max r x).
Proof.
  induction r as [| z r IH]; intros a x; simpl; [reflexivity |].
  rewrite <- Z.max_assoc. apply IH.
Qed.

Lemma least_app (y : Z) (r0 : list Z) (x : Z) (r : list Z) :
  least y (r0 ++ x :: r) = Z.min (least y r0) (least x r).
Proof. unfold least. rewrite fold_left_app. simpl. apply fold_min_assoc. Qed.

Lemma greatest_app (y : Z) (r0 : list Z) (x : Z) (r : list Z) :
  greatest y (r0 ++ x :: r) = Z.max (greatest y r0) (greatest x r).
Proof. unfold greatest. rewrite fold_left_app. simpl. apply fold_max_assoc. Qed.

Lemma nonzero_positive (vs : list Z) :
  (forall v, In v vs -> 0 < v) -> nonzero vs = vs.
Proof.
  intros Hpos. unfold nonzero. induction vs as [| v vs IH]; simpl; [reflexivity |].
  assert (0 < v) by (apply Hpos; now left).
  destruct (Z.eqb_spec v 0); [lia |]. simpl. f_equal.
  apply IH. intros x Hx. apply Hpos. now right.
Qed.

Lemma sumZ_positive (v : Z) (vs : list Z) :
  (forall x, In x (v :: vs) -> 0 < x) -> 0 < sumZ (v :: vs).
Proof.
  intros Hpos.
  pose proof (sumZ_bounds (v :: vs) 1 (sumZ (v :: vs) + 1)) as Hb.
  assert (Hlen : 0 < Z.of_nat (List.length (v :: vs))) by (simpl; lia).
  assert (Hall : Z.of_nat (List.length (v :: vs)) * 1 <= sumZ (v :: vs)).
  { clear Hb Hlen. revert Hpos. generalize (v :: vs). intros l Hpos.
    induction l as [| x l IH]; [simpl; lia |].
    change (sumZ (x :: l)) with (x + sumZ l).
    change (List.length (x :: l)) with (S (List.length l)).
    rewrite Nat2Z.inj_succ.
    assert (0 < x) by (apply Hpos; now left).
    assert (Z.of_nat (List.length l) * 1 <= sumZ l)
      by (apply IH; intros y Hy; apply Hpos; now right).
    lia. }
  lia.
Qed.

(** One turn of the loop over [workerData], on a process that measured
    positive values. *)
Lemma addWorker_totalsOf (m : StatName) (seen : list Z) (wd : Summary) (vs : list Z) :
  (forall v, In v seen -> 0 < v) ->
  measured m wd vs ->
  addWorker m (totalsOf seen) wd = totalsOf (seen ++ vs).
Proof.
  intros Hseen [Hpos [Hlat Hinv]].
  unfold addWorker. rewrite Hlat, Hinv, foldValues_statsOf, (nonzero_positive vs Hpos).
  destruct vs as [| x r].
  - cbn [statsOf acc0 a_sum truthy]. rewrite app_nil_r.
    unfold totalsOf. cbn [totalSum totalSumSqr totalInvocations hasSamples t_min t_max
                          List.length Z.of_nat].
    f_equal. lia.
  - pose proof (sumZ_positive x r Hpos) as Hsum.
    cbn [statsOf a_sum a_sumSqr a_min a_max].
    rewrite (truthy_nonzero (sumZ (x :: r))) by lia.
    unfold totalsOf.
    cbn [totalSum totalSumSqr totalInvocations hasSamples t_min t_max js_add].
    rewrite sumZ_app, sumSq_app, length_app, Nat2Z.inj_add.
    destruct seen as [| y r0].
    + cbn [app statsOf acc0 a_min a_max truthy negb orb]. reflexivity.
    + cbn [app statsOf a_min a_max].
      change (y :: r0 ++ x :: r) with ((y :: r0) ++ x :: r).
      rewrite least_app, greatest_app.
      destruct (least_spec r0 y) as [Hl _]. destruct (greatest_spec r0 y) as [Hg _].
      apply Hseen in Hl. apply Hseen in Hg.
      rewrite (truthy_nonzero (least y r0)) by lia.
      rewrite (truthy_nonzero (greatest y r0)) by lia.
      cbn [negb orb js_gt js_lt].
      f_equal.
      * destruct (Z.ltb_spec (least x r) (least y r0)); f_equal; lia.
      * destruct (Z.ltb_spec (greatest y r0) (greatest x r)); f_equal; lia.
Qed.

Lemma fold_addWorker_totalsOf (m : StatName) (workerData : list Summary)
    (vss : list (list Z)) :
  Forall2 (measured m) workerData vss ->
  forall seen : list Z,
    (forall v, In v seen -> 0 < v) ->
    fold_left (addWorker m) workerData (totalsOf seen)
    = totalsOf (seen ++ List.concat vss).
Proof.
  induction 1 as [| wd vs workerData vss Hwd _ IH]; intros seen Hseen; simpl.
  - now rewrite app_nil_r.
  - rewrite (addWorker_totalsOf m seen wd vs Hseen Hwd), IH.
    + now rewrite app_assoc.
    + intros v Hv. apply in_app_or in Hv. destruct Hv as [Hv | Hv]; [now apply Hseen |].
      destruct Hwd as [Hpos _]. now apply Hpos.
Qed.

Lemma computeLatStats_totalsOf (m : StatName) (workerData : list Summary)
    (vss : list (list Z)) :
  Forall2 (measured m) workerData vss ->
  computeLatStats false workerData m = Some (latStatsOf (totalsOf (List.concat vss))).
Proof.
  intros H. unfold computeLatStats.
  change LatTotals0 with (totalsOf []).
  rewrite (fold_addWorker_totalsOf m workerData vss H []); [reflexivity |].
  intros v [].
Qed.

Lemma measured_summaryOf (vs : list Z) :
  (forall v, In v vs -> 0 < v) -> measured D (summaryOf vs) vs.
Proof. intros Hpos. split; [exact Hpos | split; reflexivity]. Qed.

Lemma inject_Z_length_pos (v : Z) (rest : list Z) :
  (0 < inject_Z (Z.of_nat (List.length (v :: rest))))%Q.
Proof.
  change 0%Q with (inject_Z 0). rewrite <- Zlt_Qlt.
  change (List.length (v :: rest)) with (S (List.length rest)). lia.
Qed.

Lemma Qeq_bool_length (v : Z) (rest : list Z) :
  Qeq_bool (inject_Z (Z.of_nat (List.length (v :: rest)))) 0 = false.
Proof.
  destruct (Qeq_bool _ 0) eqn:E; [| reflexivity].
  apply Qeq_bool_eq in E. pose proof (inject_Z_length_pos v rest) as H.
  rewrite E in H. exfalso. exact (Qlt_irrefl 0 H).
Qed.

(** X3. When every process of [workerData] folded positive values into a
    metric, one for each invocation it counted, and at least one value was
    folded, [computeLatStats] in the regular mode returns the least and the
    greatest of all the values as [min] and [max], and as [avg] their sum
    divided by their number, which lies between [min] and [max]. *)
Theorem computeLatStats_avg_between_min_max (m : StatName)
    (workerData : list Summary) (vss : list (list Z)) (v : Z) (rest : list Z) :
  Forall2 (measured m) workerData vss ->
  List.concat vss = v :: rest ->
  exists (r : LatStats) (q : Q),
    computeLatStats false workerData m = Some r
    /\ avg r = Some (Fin q)
    /\ ls_min r = Some (least v rest)
    /\ ls_max r = Some (greatest v rest)
    /\ (q == inject_Z (sumZ (v :: rest))
             / inject_Z (Z.of_nat (List.length (v :: rest))))%Q
    /\ (inject_Z (least v rest) <= q)%Q
    /\ (q <= inject_Z (greatest v rest))%Q.
Proof.
  intros Hm Hall.
  rewrite (computeLatStats_totalsOf m workerData vss Hm), Hall.
  eexists. eexists. split; [reflexivity |].
  unfold latStatsOf, totalsOf.
  cbn [avg ls_min ls_max hasSamples totalSum totalInvocations t_min t_max
       num_of num_div statsOf a_min a_max].
  rewrite Qeq_bool_length.
  split; [reflexivity |]. split; [reflexivity |]. split; [reflexivity |].
  split; [reflexivity |].
  pose proof (inject_Z_length_pos v rest) as Hn.
  destruct (least_spec rest v) as [_ Hlo]. destruct (greatest_spec rest v) as [_ Hhi].
  pose proof (sumZ_bounds (v :: rest) (least v rest) (greatest v rest)) as Hb.
  assert (Hb' : Z.of_nat (List.length (v :: rest)) * least v rest <= sumZ (v :: rest)
                <= Z.of_nat (List.length (v :: rest)) * greatest v rest).
  { apply Hb. intros x Hx. split; [now apply Hlo | now apply Hhi]. }
  split.
  - apply Qle_shift_div_l; [exact Hn |].
    rewrite <- inject_Z_mult, <- Zle_Qle. lia.
  - apply Qle_shift_div_r; [exact Hn |].
    rewrite <- inject_Z_mult, <- Zle_Qle. lia.
Qed.

Lemma computeLatStats_avg_between_min_max_witness :
  exists (r : LatStats) (q : Q),
    computeLatStats false [summaryOf [3; 5]; summaryOf []; summaryOf [4]] D = Some r
    /\ avg r = Some (Fin q)
    /\ ls_min r = Some (least 3%Z [5; 4]%Z)
    /\ ls_max r = Some (greatest 3%Z [5; 4]%Z)
    /\ (q == inject_Z (sumZ [3; 5; 4]%Z) / inject_Z (Z.of_nat (List.length [3; 5; 4]%Z)))%Q
    /\ (inject_Z (least 3%Z [5; 4]%Z) <= q)%Q
    /\ (q <= inject_Z (greatest 3%Z [5; 4]%Z))%Q.
Proof.
  apply (computeLatStats_avg_between_min_max
           D [summaryOf [3; 5]; summaryOf []; summaryOf [4]] [[3; 5]; []; [4]] 3 [5; 4]).
  - repeat constructor; apply measured_summaryOf; simpl; intros v Hv;
      repeat destruct Hv as [<- | Hv]; try lia; contradiction.
  - reflexivity.
Defined.

(** X4. Under the same condition, the argument that [computeLatStats]
    passes to [Math.sqrt] is, computed exactly, the mean of the squares minus
    the square of the mean of all the values, and it is not negative. *)
Theorem computeLatStats_radicand_nonneg (m : StatName)
    (workerData : list Summary) (vss : list (list Z)) (v : Z) (rest : list Z) :
  Forall2 (measured m) workerData vss ->
  List.concat vss = v :: rest ->
  exists (r : LatStats) (rad : Q),
    computeLatStats false workerData m = Some r
    /\ std r = Some (Math_sqrt (Fin rad))
    /\ (rad == inject_Z (sumSq (v :: rest)) / inject_Z (Z.of_nat (List.length (v :: rest)))
               - (inject_Z (sumZ (v :: rest)) / inject_Z (Z.of_nat (List.length (v :: rest))))
                 * (inject_Z (sumZ (v :: rest)) / inject_Z (Z.of_nat (List.length (v :: rest)))))%Q
    /\ (0 <= rad)%Q.
Proof.
  intros Hm Hall.
  rewrite (computeLatStats_totalsOf m workerData vss Hm), Hall.
  eexists. eexists. split; [reflexivity |].
  unfold latStatsOf, totalsOf.
  cbn [std hasSamples totalSum totalSumSqr totalInvocations
       num_of num_div num_sub num_mul].
  rewrite Qeq_bool_length. cbn [num_sub num_mul].
  split; [reflexivity |]. split; [reflexivity |].
  pose proof (inject_Z_length_pos v rest) as Hn.
  pose proof (sumZ_square_le (v :: rest)) as Hcs.
  set (n := Z.of_nat (List.length (v :: rest))) in *.
  set (s := sumZ (v :: rest)) in *. set (q := sumSq (v :: rest)) in *.
  assert (Hnz : ~ (inject_Z n == 0)%Q).
  { intros E. rewrite E in Hn. exact (Qlt_irrefl 0 Hn). }
  assert (E : (inject_Z q / inject_Z n - inject_Z s / inject_Z n * (inject_Z s / inject_Z n)
               == inject_Z (n * q - s * s) / (inject_Z n * inject_Z n))%Q).
  { unfold Z.sub. rewrite inject_Z_plus, inject_Z_opp, !inject_Z_mult.
    field. exact Hnz. }
  rewrite E. apply Qle_shift_div_l.
  - apply Qmult_lt_0_compat; exact Hn.
  - rewrite Qmult_0_l. change 0%Q with (inject_Z 0). rewrite <- Zle_Qle. lia.
Qed.

Lemma computeLatStats_radicand_nonneg_witness :
  exists (r : LatStats) (rad : Q),
    computeLatStats false [summaryOf [3; 5]; summaryOf []; summaryOf [4]] D = Some r
    /\ std r = Some (Math_sqrt (Fin rad))
    /\ (rad == inject_Z (sumSq [3; 5; 4]%Z) / inject_Z (Z.of_nat (List.length [3; 5; 4]%Z))
               - (inject_Z (sumZ [3; 5; 4]%Z) / inject_Z (Z.of_nat (List.length [3; 5; 4]%Z)))
                 * (inject_Z (sumZ [3; 5; 4]%Z) / inject_Z (Z.of_nat (List.length [3; 5; 4]%Z))))%Q
    /\ (0 <= rad)%Q.
Proof.
  apply (computeLatStats_radicand_nonneg
           D [summaryOf [3; 5]; summaryOf []; summaryOf [4]] [[3; 5]; []; [4]] 3 [5; 4]).
  - repeat constructor; apply measured_summaryOf; simpl; intros v Hv;
      repeat destruct Hv as [<- | Hv]; try lia; contradiction.
  - reflexivity.
Defined.

(** X5. Aggregation does not depend on how the values are spread over the
    processes: [computeLatStats] in the regular mode returns for the
    summaries of several processes what it returns for the summary of one
    process that folded all their values, in the order of [workerData]. *)
Theorem computeLatStats_merge (m : StatName) (workerData : list Summary)
    (vss : list (list Z)) (wd : Summary) :
  Forall2 (measured m) workerData vss ->
  measured m wd (List.concat vss) ->
  computeLatStats false workerData m = computeLatStats false [wd] m.
Proof.
  intros Hm Hwd.
  rewrite (computeLatStats_totalsOf m workerData vss Hm).
  rewrite (computeLatStats_totalsOf m [wd] [List.concat vss]).
  - simpl. now rewrite app_nil_r.
  - constructor; [exact Hwd | constructor].
Qed.

Lemma computeLatStats_merge_witness :
  computeLatStats false [summaryOf [3; 5]; summaryOf []; summaryOf [4]] D
  = computeLatStats false [summaryOf [3; 5; 4]] D.
Proof.
  apply (computeLatStats_merge
           D [summaryOf [3; 5]; summaryOf []; summaryOf [4]] [[3; 5]; []; [4]]
           (summaryOf [3; 5; 4])).
  - repeat constructor; apply measured_summaryOf; simpl; intros v Hv;
      repeat destruct Hv as [<- | Hv]; try lia; contradiction.
  - apply measured_summaryOf; simpl; intros v Hv;
      repeat destruct Hv as [<- | Hv]; try lia; contradiction.
Defined.

(** ** Post-processing *)

Ltac processSample_cases :=
  unfold processSample;
  repeat match goal with
         | |- context [if ?c then _ else _] => destruct c
         | |- context [match ?o with Some _ => _ | None => _ end] => destruct o
         end.

Lemma processSample_tp_inv sql mt sample activation st :
  tp_inv (tp st) ->
  tp_inv (tp (processSample sql mt sample activation st))
  /\ tp_le (tp st) (tp (processSample sql mt sample activation st)).
Proof.
  unfold tp_inv, tp_le. intros Hinv. processSample_cases;
    cbn [tp with_tp with_lat attempts invocations activations requests errors
         incr_attempts incr_invocations incr_activations incr_requests incr_errors];
    lia.
Qed.

Lemma tp_le_trans (a b c : tpCounters) : tp_le a b -> tp_le b c -> tp_le a c.
Proof. unfold tp_le. lia. Qed.

Lemma tp_le_refl (a : tpCounters) : tp_le a a.
Proof. unfold tp_le. lia. Qed.

Lemma processSampleWithAction_tp_inv get sql mt actionSample st :
  tp_inv (tp st) ->
  tp_inv (tp (processSampleWithAction get sql mt actionSample st))
  /\ tp_le (tp st) (tp (processSampleWithAction get sql mt actionSample st)).
Proof.
  intros Hinv. unfold processSampleWithAction.
  destruct (truthy_err (aaidError actionSample)); now apply processSample_tp_inv.
Qed.

Lemma fold_processSampleWithAction_tp_inv get sql mt (actionSamples : list Sample) :
  forall st,
    tp_inv (tp st) ->
    tp_inv (tp (fold_left (fun st s => processSampleWithAction get sql mt s st)
                          actionSamples st))
    /\ tp_le (tp st)
             (tp (fold_left (fun st s => processSampleWithAction get sql mt s st)
                            actionSamples st)).
Proof.
  induction actionSamples as [| s actionSamples IH]; intros st Hinv; simpl.
  - split; [exact Hinv | apply tp_le_refl].
  - destruct (processSampleWithAction_tp_inv get sql mt s st Hinv) as [H1 H2].
    destruct (IH _ H1) as [H3 H4]. split; [exact H3 |].
    eapply tp_le_trans; eassumption.
Qed.

Lemma postProcessSample_tp_inv get sql mt activity sample st st' :
  tp_inv (tp st) ->
  postProcessSample get sql mt activity sample st = Some st' ->
  tp_inv (tp st') /\ tp_le (tp st) (tp st').
Proof.
  intros Hinv. unfold postProcessSample.
  destruct (Activity_eqb activity ACTION).
  - intros [= <-]. now apply processSampleWithAction_tp_inv.
  - destruct (truthy_err (taidError sample)).
    + intros [= <-]. now apply processSample_tp_inv.
    + destruct (getActionSamplesOfRules get sample); [| discriminate].
      intros [= <-]. now apply fold_processSampleWithAction_tp_inv.
Qed.

(** X6. Post-processing only adds to the counters of throughput, and it
    keeps their relations: a run of [postProcess] that ends, from counters
    that satisfy them (as the initial zeros do), leaves [requests] equal
    to [activations + errors], [invocations] at most [activations],
    [invocations + errors] at most [attempts] and [requests] at most twice
    [attempts], with no counter below its former value. *)
Theorem postProcess_counters (get : option string -> option Activation)
    (sql : bool) (mt : TimeFrame) (activity : Activity) (sampleData : list Sample) :
  forall st st' : ProcState,
    tp_inv (tp st) ->
    postProcess get sql mt activity sampleData st = Some st' ->
    tp_inv (tp st') /\ tp_le (tp st) (tp st').
Proof.
  induction sampleData as [| sample sampleData IH]; intros st st' Hinv; simpl.
  - intros [= <-]. split; [exact Hinv | apply tp_le_refl].
  - destruct (postProcessSample get sql mt activity sample st) as [st1 |] eqn:E;
      [| discriminate].
    intros Hrun.
    destruct (postProcessSample_tp_inv get sql mt activity sample st st1 Hinv E)
      as [H1 H2].
    destruct (IH st1 st' H1 Hrun) as [H3 H4]. split; [exact H3 |].
    eapply tp_le_trans; eassumption.
Qed.

Lemma tp_inv_0 : tp_inv (tp ProcState0).
Proof. unfold tp_inv. simpl. lia. Qed.

Lemma postProcess_counters_witness :
  tp_inv (tp (fold_left (fun st s => processSampleWithAction examplePlatform false
                                       (mkTimeFrame 0 100) s st)
                        [sampleAt 10] ProcState0))
  /\ tp_le (tp ProcState0)
           (tp (fold_left (fun st s => processSampleWithAction examplePlatform false
                                         (mkTimeFrame 0 100) s st)
                          [sampleAt 10] ProcState0)).
Proof.
  apply (postProcess_counters examplePlatform false (mkTimeFrame 0 100) ACTION
                              [sampleAt 10] ProcState0 _ tp_inv_0).
  reflexivity.
Defined.

Lemma actionSamplesOfLogs_None (triggerSample : Sample) (logs : list LogLine) :
  actionSamplesOfLogs triggerSample logs = None <-> In Malformed logs.
Proof.
  induction logs as [| [r |] logs IH]; simpl.
  - split; [discriminate | intros []].
  - destruct (actionSamplesOfLogs triggerSample logs).
    + split; [discriminate |]. intros [E | H]; [discriminate |].
      apply IH in H. discriminate.
    + split; [intros _; right; now apply IH | reflexivity].
  - split; [now left | reflexivity].
Qed.

Lemma postProcessSample_None get sql mt sample st :
  postProcessSample get sql mt RULE sample st = None <-> fatalSample get sample.
Proof.
  unfold postProcessSample, fatalSample, getActionSamplesOfRules.
  cbn [Activity_eqb].
  destruct (truthy_err (taidError sample)).
  - split; [discriminate | intros [E _]; discriminate].
  - destruct (get (taid sample)) as [act |].
    + destruct (actionSamplesOfLogs _ (act_logs act)) eqn:E.
      * split; [discriminate |]. intros [_ [H | [act' [[= <-] H]]]]; [discriminate |].
        match type of E with
        | actionSamplesOfLogs ?t _ = _ =>
          pose proof (proj2 (actionSamplesOfLogs_None t _) H)
        end.
        congruence.
      * split; [| reflexivity]. intros _. split; [reflexivity |]. right.
        exists act. split; [reflexivity |].
        eapply actionSamplesOfLogs_None. exact E.
    + split; [| reflexivity]. intros _. split; [reflexivity |]. now left.
Qed.

(** X8. Post-processing of rule samples fails exactly on a trigger the
    platform accepted and cannot account for: [postProcess] for the activity
    [rule] fails if and only if some sample of the buffer has no trigger
    error and its trigger activation is not retrieved or has a log line that
    is not JSON; the counters reached so far play no part, and a sample
    with a trigger error is never looked up. *)
Theorem postProcess_rule_fatal_iff (get : option string -> option Activation)
    (sql : bool) (mt : TimeFrame) (sampleData : list Sample) :
  forall st : ProcState,
    postProcess get sql mt RULE sampleData st = None
    <-> Exists (fatalSample get) sampleData.
Proof.
  induction sampleData as [| sample sampleData IH]; intros st; simpl.
  - split; [discriminate | intros H; inversion H].
  - destruct (postProcessSample get sql mt RULE sample st) as [st1 |] eqn:E.
    + rewrite IH. split; [intros H; now apply Exists_cons_tl |].
      intros H. inversion H as [? ? Hf | ? ? Hr]; subst; [| exact Hr].
      apply (postProcessSample_None get sql mt sample st) in Hf. congruence.
    + split; [| reflexivity]. intros _. apply Exists_cons_hd.
      eapply postProcessSample_None. exact E.
Qed.

Lemma postProcess_rule_fatal_iff_witness :
  postProcess examplePlatform false (mkTimeFrame 0 100) RULE
              [ruleSample;
               mkSample (Some 20) None (Some "lost"%string) None None None None]
              ProcState0 = None.
Proof.
  apply (proj2 (postProcess_rule_fatal_iff examplePlatform false (mkTimeFrame 0 100)
                  [ruleSample;
                   mkSample (Some 20) None (Some "lost"%string) None None None None]
                  ProcState0)).
  apply Exists_cons_tl. apply Exists_cons_hd.
  split; [reflexivity | left; reflexivity].
Defined.

(** X9. The latency counters and the database only see full invocations:
    a call of [processSample] either leaves [invocations], every latency
    accumulator and the list of inserts as they were, or it adds one to
    [invocations] for a retrieved activation; in that case, when the
    database is in use, exactly one insert is handed over, whose [trycnt] is
    the [bi] of the sample and whose thirteen columns start with the start
    of the activation and end with [undefined]. *)
Theorem processSample_measures_invocations_only
    (sql : bool) (mt : TimeFrame) (sample : Sample)
    (activation : option Activation) (st : ProcState) :
  let st' := processSample sql mt sample activation st in
  (invocations (tp st') = invocations (tp st)
   /\ lat st' = lat st /\ sqlCalls st' = sqlCalls st)
  \/ (invocations (tp st') = invocations (tp st) + 1
      /\ exists act : Activation,
           activation = Some act
           /\ ((sql = false /\ sqlCalls st' = sqlCalls st)
               \/ (sql = true
                   /\ exists call : InsertArgs,
                        sqlCalls st' = sqlCalls st ++ [call]
                        /\ trycnt call = bi sample
                        /\ List.length (row call) = 13%nat
                        /\ nth 0 (row call) (Some 0) = act_start act
                        /\ nth 12 (row call) (Some 0) = None))).
Proof.
  unfold processSample.
  repeat match goal with
         | |- context [if ?c then _ else _] => destruct c eqn:?
         | |- context [match ?o with Some _ => _ | None => _ end] => destruct o
         end;
    cbn [tp lat sqlCalls with_tp with_lat attempts invocations activations
         requests errors incr_attempts incr_invocations incr_activations
         incr_requests incr_errors];
    first
      [ left; repeat split; reflexivity
      | right; split; [reflexivity |]; eexists; split; [reflexivity |];
        first
          [ left; split; reflexivity
          | right; split; [reflexivity |]; eexists; repeat split ] ].
Qed.

Lemma actionSamplesOfLogs_bi (triggerSample : Sample) (logs : list LogLine) :
  forall actionSamples,
    actionSamplesOfLogs triggerSample logs = Some actionSamples ->
    Forall (fun s => bi s = bi triggerSample) actionSamples.
Proof.
  induction logs as [| [r |] logs IH]; intros actionSamples; simpl.
  - intros [= <-]. constructor.
  - destruct (actionSamplesOfLogs triggerSample logs) as [rest |]; [| discriminate].
    intros [= <-]. constructor; [| now apply IH].
    apply actionSampleOf_fields.
  - discriminate.
Qed.

Lemma getActionSamplesOfRules_bi get (triggerSample : Sample) actionSamples :
  getActionSamplesOfRules get triggerSample = Some actionSamples ->
  Forall (fun s => bi s = bi triggerSample) actionSamples.
Proof.
  unfold getActionSamplesOfRules.
  destruct (get (taid triggerSample)); [| discriminate].
  intros H. apply actionSamplesOfLogs_bi in H. exact H.
Qed.

Lemma processSampleWithAction_outside get sql mt s st (b : Z) :
  bi s = Some b -> b < start mt \/ stop mt < b ->
  processSampleWithAction get sql mt s st = st.
Proof.
  intros Hb Hout. unfold processSampleWithAction.
  destruct (truthy_err (aaidError s)); now apply (processSample_outside _ _ _ _ _ b).
Qed.

Lemma fold_processSampleWithAction_outside get sql mt (b : Z) (ss : list Sample) :
  b < start mt \/ stop mt < b ->
  Forall (fun s => bi s = Some b) ss ->
  forall st, fold_left (fun st s => processSampleWithAction get sql mt s st) ss st = st.
Proof.
  intros Hout Hall. induction Hall as [| s ss Hs _ IH]; intros st; simpl.
  - reflexivity.
  - rewrite (processSampleWithAction_outside get sql mt s st b Hs Hout). apply IH.
Qed.

(** X10. Samples taken outside the time frame leave no trace: when every
    sample of the buffer has a [bi] before [start] or after [stop], as the
    samples of the warm-up have, a run of [postProcess] that ends returns
    the counters, the latency accumulators and the inserts unchanged, for
    either activity and whatever the platform answers. *)
Theorem postProcess_outside_time_frame (get : option string -> option Activation)
    (sql : bool) (mt : TimeFrame) (activity : Activity) (sampleData : list Sample) :
  Forall (fun s => exists b, bi s = Some b /\ (b < start mt \/ stop mt < b))
         sampleData ->
  forall st st' : ProcState,
    postProcess get sql mt activity sampleData st = Some st' -> st' = st.
Proof.
  intros Hall. induction Hall as [| sample sampleData [b [Hb Hout]] _ IH];
    intros st st'; simpl.
  - now intros [= <-].
  - assert (Hstep : forall st1, postProcessSample get sql mt activity sample st = Some st1
                                -> st1 = st).
    { intros st1. unfold postProcessSample.
      destruct (Activity_eqb activity ACTION).
      - intros [= <-]. now apply (processSampleWithAction_outside _ _ _ _ _ b).
      - destruct (truthy_err (taidError sample)).
        + intros [= <-]. now apply (processSample_outside _ _ _ _ _ b).
        + destruct (getActionSamplesOfRules get sample) as [ss |] eqn:E; [| discriminate].
          intros [= <-]. apply (fold_processSampleWithAction_outside get sql mt b ss Hout).
          apply getActionSamplesOfRules_bi in E.
          eapply Forall_impl; [| exact E]. intros s Hs. simpl in Hs. congruence. }
    destruct (postProcessSample get sql mt activity sample st) as [st1 |]; [| discriminate].
    rewrite (Hstep st1 eq_refl). apply IH.
Qed.

Lemma postProcess_outside_time_frame_witness :
  fold_left (fun st s => processSampleWithAction examplePlatform false
                           (mkTimeFrame 50 100) s st)
            [sampleAt 10; sampleAt 120] ProcState0
  = ProcState0.
Proof.
  apply (postProcess_outside_time_frame examplePlatform false (mkTimeFrame 50 100)
                                        ACTION [sampleAt 10; sampleAt 120]).
  - repeat constructor.
    + exists 10. split; [reflexivity | left; reflexivity].
    + exists 120. split; [reflexivity | right; reflexivity].
  - reflexivity.
Defined.

Lemma processSampleWithAction_attempts get sql mt s st (b : Z) :
  bi s = Some b -> start mt <= b <= stop mt ->
  attempts (tp (processSampleWithAction get sql mt s st)) = attempts (tp st) + 1.
Proof.
  intros Hb Hin. unfold processSampleWithAction.
  destruct (truthy_err (aaidError s)); now apply (processSample_inside _ _ _ _ _ b).
Qed.

Lemma fold_processSampleWithAction_attempts get sql mt (b : Z) (ss : list Sample) :
  start mt <= b <= stop mt ->
  Forall (fun s => bi s = Some b) ss ->
  forall st,
    attempts (tp (fold_left (fun st s => processSampleWithAction get sql mt s st) ss st))
    = attempts (tp st) + Z.of_nat (List.length ss).
Proof.
  intros Hin Hall. induction Hall as [| s ss Hs _ IH]; intros st.
  - simpl. lia.
  - cbn [fold_left]. rewrite IH.
    rewrite (processSampleWithAction_attempts get sql mt s st b Hs Hin).
    change (List.length (s :: ss)) with (S (List.length ss)). lia.
Qed.

(** X11. For the activity [rule], [attempts] counts bound actions, not
    triggers: a rule sample in the time frame without trigger error, whose
    trigger activation is retrieved with [n] parsed log entries, adds [n] to
    [attempts], whatever the outcome of each bound action; with no log
    entry it adds nothing to any counter. *)
Theorem postProcess_rule_attempts (get : option string -> option Activation)
    (sql : bool) (mt : TimeFrame) (sample : Sample) (triggerActivation : Activation)
    (records : list BoundActionRecord) (b : Z) (st : ProcState) :
  bi sample = Some b ->
  start mt <= b <= stop mt ->
  truthy_err (taidError sample) = false ->
  get (taid sample) = Some triggerActivation ->
  act_logs triggerActivation = map Json records ->
  exists st' : ProcState,
    postProcessSample get sql mt RULE sample st = Some st'
    /\ attempts (tp st') = attempts (tp st) + Z.of_nat (List.length records)
    /\ match records with
       | [] => st' = st
       | _ :: _ => True
       end.
Proof.
  intros Hb Hin Herr Hget Hlogs.
  unfold postProcessSample. cbn [Activity_eqb]. rewrite Herr.
  destruct (getActionSamplesOfRules get sample) as [ss |] eqn:E.
  - eexists. split; [reflexivity |].
    pose proof (getActionSamplesOfRules_bi get sample ss E) as Hbi.
    unfold getActionSamplesOfRules in E. rewrite Hget, Hlogs in E.
    rewrite actionSamplesOfLogs_parsed in E. injection E as <-.
    split.
    + rewrite (fold_processSampleWithAction_attempts get sql mt b); [| exact Hin |].
      * now rewrite length_map.
      * eapply Forall_impl; [| exact Hbi]. intros s Hs. simpl in Hs. congruence.
    + destruct records; [reflexivity | exact I].
  - exfalso. unfold getActionSamplesOfRules in E. rewrite Hget, Hlogs in E.
    rewrite actionSamplesOfLogs_parsed in E. discriminate.
Qed.

Lemma postProcess_rule_attempts_witness :
  exists st' : ProcState,
    postProcessSample examplePlatform false (mkTimeFrame 0 100) RULE ruleSample ProcState0
    = Some st'
    /\ attempts (tp st') = attempts (tp ProcState0) + Z.of_nat 3.
Proof.
  destruct (postProcess_rule_attempts
              examplePlatform false (mkTimeFrame 0 100) ruleSample
              (mkActivation (Some 12) (Some 13) None
                 [Json (mkBoundActionRecord true (Some "a1"%string) None);
                  Json (mkBoundActionRecord false None (Some (ErrStr "failed")));
                  Json (mkBoundActionRecord true (Some "a3"%string) None)])
              [mkBoundActionRecord true (Some "a1"%string) None;
               mkBoundActionRecord false None (Some (ErrStr "failed"));
               mkBoundActionRecord true (Some "a3"%string) None]
              10 ProcState0 eq_refl ltac:(simpl; lia) eq_refl eq_refl eq_refl)
    as [st' [H1 [H2 _]]].
  exists st'. split; [exact H1 | exact H2].
Defined.

(** ** Throughput and error statistics *)

Lemma errorTotals_shift (workerData : list Summary) :
  forall e r : Z,
    fold_left (fun '(totalErrors, totalRequests) wd =>
                 (totalErrors + errors (s_tp wd), totalRequests + requests (s_tp wd)))
              workerData (e, r)
    = (e + fst (errorTotals workerData), r + snd (errorTotals workerData)).
Proof.
  unfold errorTotals.
  induction workerData as [| wd workerData IH]; intros e r; simpl.
  - f_equal; lia.
  - rewrite IH, (IH (errors (s_tp wd)) (requests (s_tp wd))). simpl. f_equal; lia.
Qed.

Lemma errorTotals_bounds (workerData : list Summary) :
  (forall wd, In wd workerData -> tp_inv (s_tp wd)) ->
  0 <= fst (errorTotals workerData) <= snd (errorTotals workerData).
Proof.
  induction workerData as [| wd workerData IH]; intros Hinv.
  - simpl. lia.
  - unfold errorTotals. simpl. rewrite errorTotals_shift. simpl.
    assert (tp_inv (s_tp wd)) as Hwd by (apply Hinv; now left).
    assert (0 <= fst (errorTotals workerData) <= snd (errorTotals workerData))
      by (apply IH; intros wd' H'; apply Hinv; now right).
    unfold tp_inv in Hwd. lia.
Qed.

(** X12. For summaries whose counters keep the relations of
    post-processing, the error percentage of [computErrorStats] is not a
    number exactly when no process counted a request (also on an empty
    [workerData]), and lies between 0 and 100 otherwise; [abs] is the total
    of the errors. *)
Theorem computErrorStats_percent (workerData : list Summary) :
  (forall wd, In wd workerData -> tp_inv (s_tp wd)) ->
  err_abs (computErrorStats workerData) = fst (errorTotals workerData)
  /\ match percent (computErrorStats workerData) with
     | Fin q => 0 < snd (errorTotals workerData) /\ (0 <= q)%Q /\ (q <= 100)%Q
     | NonFin => snd (errorTotals workerData) = 0
     end.
Proof.
  intros Hinv. pose proof (errorTotals_bounds workerData Hinv) as Hb.
  unfold computErrorStats.
  destruct (errorTotals workerData) as [e r]. cbn [fst snd] in Hb.
  cbn [err_abs percent fst snd num_mul num_div]. split; [reflexivity |].
  destruct (Qeq_bool (inject_Z r) 0) eqn:E.
  - apply Qeq_bool_eq in E. change 0%Q with (inject_Z 0) in E.
    exact (proj1 (inject_Z_injective r 0) E).
  - assert (Hr : r <> 0).
    { intros ->. discriminate. }
    assert (Hpos : (0 < inject_Z r)%Q).
    { change 0%Q with (inject_Z 0). rewrite <- Zlt_Qlt. lia. }
    split; [lia |]. split.
    + apply Qle_shift_div_l; [exact Hpos |]. rewrite Qmult_0_l.
      change 100%Q with (inject_Z 100). rewrite <- inject_Z_mult.
      change 0%Q with (inject_Z 0). rewrite <- Zle_Qle. lia.
    + apply Qle_shift_div_r; [exact Hpos |].
      change 100%Q with (inject_Z 100). rewrite <- !inject_Z_mult, <- Zle_Qle. lia.
Qed.

Lemma computErrorStats_percent_witness :
  err_abs (computErrorStats [mkSummary latCounters0 (mkTp 4 1 2 3 1)]) = 1
  /\ match percent (computErrorStats [mkSummary latCounters0 (mkTp 4 1 2 3 1)]) with
     | Fin q => 0 < 3 /\ (0 <= q)%Q /\ (q <= 100)%Q
     | NonFin => 3 = 0
     end.
Proof.
  apply (computErrorStats_percent [mkSummary latCounters0 (mkTp 4 1 2 3 1)]).
  intros wd [<- | []]. unfold tp_inv. simpl. lia.
Defined.

(** X14. A counter that is 0 at every process has no percentage:
    [computeTpStats] then returns [tp = tpw = 0] and a [tpd] that is not a
    number, for any measured duration that is not zero. *)
Theorem computeTpStats_zero_total (measure_time : Q) (wd0 : Summary)
    (rest : list Summary) (statName : TpName) :
  totalCountOf statName (wd0 :: rest) = 0 ->
  tp_get statName (s_tp wd0) = 0 ->
  ~ (measure_time == 0)%Q ->
  exists (r : TpStats) (x y : Q),
    computeTpStats measure_time (wd0 :: rest) statName = Some r
    /\ abs r = 0
    /\ tp_ r = Fin x /\ (x == 0)%Q
    /\ tpw r = Fin y /\ (y == 0)%Q
    /\ tpd r = NonFin.
Proof.
  intros Htotal Hmaster Hmt.
  assert (Hnz : Qeq_bool measure_time 0 = false).
  { destruct (Qeq_bool measure_time 0) eqn:E; [| reflexivity].
    apply Qeq_bool_eq in E. contradiction. }
  unfold computeTpStats. rewrite Htotal, Hmaster.
  eexists. eexists. eexists. split; [reflexivity |].
  cbn [num_div]. rewrite Hnz.
  cbn [abs tp_ tpw tpd num_sub num_mul num_div].
  assert (E0 : (inject_Z 0 / measure_time == 0)%Q).
  { unfold Qdiv. apply Qmult_0_l. }
  assert (Eb : Qeq_bool (inject_Z 0 / measure_time) 0 = true).
  { apply Qeq_eq_bool. exact E0. }
  rewrite Eb.
  repeat split; try reflexivity; exact E0.
Qed.

Lemma computeTpStats_zero_total_witness :
  exists (r : TpStats) (x y : Q),
    computeTpStats 2 [mkSummary latCounters0 (mkTp 4 0 3 3 0);
                      mkSummary latCounters0 (mkTp 6 0 5 5 0)] Invocations = Some r
    /\ abs r = 0
    /\ tp_ r = Fin x /\ (x == 0)%Q
    /\ tpw r = Fin y /\ (y == 0)%Q
    /\ tpd r = NonFin.
Proof.
  apply (computeTpStats_zero_total
           2 (mkSummary latCounters0 (mkTp 4 0 3 3 0))
           [mkSummary latCounters0 (mkTp 6 0 5 5 0)] Invocations eq_refl eq_refl).
  intros E. discriminate E.
Defined.

(** ** The per-sample insert *)

(** X15. What a call of [sql_insert_workersample] does, for any behaviour
    of the database: it runs [db.run] at least once and at most
    [51 - trycnt] times (once when [trycnt] is 50 or more, or not a number);
    every run but the last reported an error; the row is stored exactly
    when the last run did not, and the giving-up message is logged exactly
    when the row is not stored; and it gives up only after the whole
    budget of runs is spent. *)
Theorem sql_insert_workersample_runs (busy : nat -> bool) (n : nat) (trycnt : jsint) :
  let r := sql_insert_workersample busy n trycnt in
  (1 <= runs r <= S (retries_left trycnt))%nat
  /\ Forall (fun j => busy (n + j)%nat = true) (seq 0 (runs r - 1))
  /\ busy (n + (runs r - 1))%nat = negb (stored r)
  /\ gaveUp r = negb (stored r)
  /\ (stored r = true \/ runs r = S (retries_left trycnt)).
Proof.
  funelim (sql_insert_workersample busy n trycnt); cbn zeta in *.
  - (* the run succeeds *)
    cbn [runs stored gaveUp negb Nat.sub seq]. rewrite Nat.add_0_r.
    repeat split; auto; lia.
  - (* error, [trycnt] is not a number *)
    cbn [runs stored gaveUp negb Nat.sub seq retries_left]. rewrite Nat.add_0_r.
    repeat split; auto.
  - (* error, another try *)
    match goal with
    | IH : _ /\ _ |- _ => destruct IH as [[H1 H2] [H3 [H4 [H5 H6]]]]
    end.
    cbn [runs stored gaveUp].
    assert (Hr : retries_left (Some t) = S (retries_left (Some (t + 1)))).
    { unfold retries_left. lia. }
    rewrite Hr.
    set (r := sql_insert_workersample busy (S n) (Some (t + 1))) in *.
    replace (S (runs r) - 1)%nat with (S (runs r - 1))%nat by lia.
    repeat split; try lia.
    + cbn [seq]. constructor; [now rewrite Nat.add_0_r |].
      rewrite <- seq_shift. apply Forall_map.
      eapply Forall_impl; [| exact H3]. intros j Hj. simpl in Hj.
      now replace (n + S j)%nat with (S n + j)%nat by lia.
    + now replace (n + S (runs r - 1))%nat with (S n + (runs r - 1))%nat by lia.
    + exact H5.
    + destruct H6 as [H6 | H6]; [now left | right; lia].
  - (* error, the budget is spent *)
    cbn [runs stored gaveUp negb Nat.sub seq]. rewrite Nat.add_0_r.
    assert (Hr : retries_left (Some t) = O) by (unfold retries_left; lia).
    rewrite Hr. repeat split; auto.
Qed.

(** ** The barrier of initialisation *)

Lemma checkInit_remainingInits W input st :
  remainingInits (checkInit W input st) = remainingInits st - 1.
Proof.
  unfold checkInit. destruct (remainingInits st - 1 =? 0); reflexivity.
Qed.

(** X16. The barrier fires once.  After [j] calls of [checkInit] the
    countdown is down by [j]; the start of the time frame is stamped, the
    timer set and the countdown of iterations armed by the call that brings
    a positive countdown to 0 and by no other: before it, and for ever
    when the countdown starts at 0 or below, they are as they were; after it
    they stay as that call left them. *)
Theorem checkInit_fires_once (W : World) (input : Input) (st : LoopState) (j : nat) :
  let st' := Nat.iter j (checkInit W input) st in
  remainingInits st' = remainingInits st - Z.of_nat j
  /\ abort st' = abort st /\ sampleData st' = sampleData st
  /\ warmupCounter st' = warmupCounter st
  /\ if (0 <? remainingInits st) && (remainingInits st <=? Z.of_nat j)
     then measurementTime st' = mkTimeFrame (now W (reads st)) (stop (measurementTime st))
          /\ reads st' = S (reads st)
          /\ timerSet st' = timerSet st || truthy (input_period input)
          /\ remainingIterations st'
             = (if truthy (input_iterations input)
                then match input_iterations input with
                     | Some n => n
                     | None => remainingIterations st
                     end
                else remainingIterations st)
     else measurementTime st' = measurementTime st
          /\ reads st' = reads st
          /\ timerSet st' = timerSet st
          /\ remainingIterations st' = remainingIterations st.
Proof.
  induction j as [| j IH].
  - cbn [Nat.iter nat_rect]. rewrite Z.sub_0_r.
    repeat split.
    destruct (Z.ltb_spec 0 (remainingInits st));
      destruct (Z.leb_spec (remainingInits st) (Z.of_nat 0)); cbn [andb];
      try (repeat split; reflexivity).
    simpl in *. lia.
  - cbn zeta in *. rewrite Nat.iter_succ.
    set (prev := Nat.iter j (checkInit W input) st) in *.
    destruct IH as [Hr [Ha [Hs [Hw Hrest]]]].
    rewrite checkInit_remainingInits, Hr, Nat2Z.inj_succ.
    split; [lia |].
    unfold checkInit. rewrite Hr.
    destruct (Z.eqb_spec (remainingInits st - Z.of_nat j - 1) 0) as [E | E].
    + (* this call fires *)
      cbn [abort sampleData warmupCounter measurementTime reads timerSet
           remainingIterations].
      repeat split; try assumption.
      destruct (Z.ltb_spec 0 (remainingInits st)); [| lia].
      destruct (Z.leb_spec (remainingInits st) (Z.succ (Z.of_nat j))); [| lia].
      destruct (Z.leb_spec (remainingInits st) (Z.of_nat j)); [lia |].
      cbn [andb] in *. destruct Hrest as [Hm [Hrd [Ht Hi]]].
      rewrite Hm, Hrd, Ht, Hi.
      repeat split.
      destruct (input_iterations input) as [n |]; [| reflexivity].
      simpl. destruct (n =? 0); reflexivity.
    + (* this call only counts down *)
      cbn [abort sampleData warmupCounter measurementTime reads timerSet
           remainingIterations].
      repeat split; try assumption.
      destruct (Z.ltb_spec 0 (remainingInits st));
        destruct (Z.leb_spec (remainingInits st) (Z.succ (Z.of_nat j)));
        destruct (Z.leb_spec (remainingInits st) (Z.of_nat j));
        cbn [andb] in *; try lia; exact Hrest.
Qed.

(** ** The invocations of one turn *)

(** The issuing half: the [i]-th entry pairs the [bi] of the [i]-th
    invocation with the outcome of the client call number [calls0 + i]. *)
Lemma issueActions_outcomes W input (burst_bi : Z) (reads0 calls0 : nat) :
  forall (count k : nat),
    let '(issued, reads', calls') :=
      issueActions W input count burst_bi
                   (if input_burst_timing input then reads0 else reads0 + k)
                   (calls0 + k) in
    reads' = (if input_burst_timing input then reads0 else reads0 + k + count)%nat
    /\ calls' = (calls0 + k + count)%nat
    /\ Forall2 (fun (i : nat) (br : Z * InvokeResult) =>
                  fst br = (if input_burst_timing input then burst_bi
                            else now W (reads0 + i))
                  /\ snd br = ow_actions_invoke W (calls0 + i))
               (seq k count) issued.
Proof.
  induction count as [| count IH]; intros k; cbn [issueActions seq].
  - repeat split; [destruct (input_burst_timing input); lia | lia | constructor].
  - specialize (IH (S k)).
    destruct (input_burst_timing input) eqn:Eb.
    + replace (S (calls0 + k)) with (calls0 + S k)%nat by lia.
      destruct (issueActions W input count burst_bi reads0 (calls0 + S k))
        as [[rest r'] c'].
      destruct IH as [Hr [Hc Hf]].
      repeat split; [exact Hr | lia |].
      constructor; [split; reflexivity | exact Hf].
    + replace (S (calls0 + k)) with (calls0 + S k)%nat by lia.
      replace (S (reads0 + k)) with (reads0 + S k)%nat by lia.
      destruct (issueActions W input count burst_bi (reads0 + S k) (calls0 + S k))
        as [[rest r'] c'].
      destruct IH as [Hr [Hc Hf]].
      repeat split; [lia | lia |].
      constructor; [split; reflexivity | exact Hf].
Qed.

(** The settling half: each issued invocation becomes the sample of its
    outcome, and the clock is only read further. *)
Lemma settleActions_outcomes W input (burst_bi : Z) (reads0 calls0 count : nat)
    (indices : list nat) (issued : list (Z * InvokeResult)) :
  Forall2 (fun (i : nat) (br : Z * InvokeResult) =>
             fst br = (if input_burst_timing input then burst_bi
                       else now W (reads0 + i))
             /\ snd br = ow_actions_invoke W (calls0 + i))
          indices issued ->
  forall reads : nat,
    ((if input_burst_timing input then reads0 else reads0 + count) <= reads)%nat ->
    Forall2 (invokedAs W input burst_bi reads0 calls0 count) indices
            (fst (settleActions W input issued reads)).
Proof.
  induction 1 as [| i [b res] indices issued [Hb Hres] _ IH]; intros reads Hle;
    cbn [settleActions fst].
  - constructor.
  - cbn [fst snd] in Hb, Hres.
    destruct res as [activationId | err].
    + destruct (doBlocking W input) eqn:Ed.
      * specialize (IH (S reads) ltac:(lia)).
        destruct (settleActions W input issued (S reads)) as [rest r'].
        cbn [fst] in *. constructor; [| exact IH].
        unfold invokedAs. rewrite <- Hres, Ed. cbn [bi ai aaid aaidError taid taidError ts].
        repeat split; [now rewrite Hb |].
        exists reads. split; [exact Hle | reflexivity].
      * specialize (IH reads Hle).
        destruct (settleActions W input issued reads) as [rest r'].
        cbn [fst] in *. constructor; [| exact IH].
        unfold invokedAs. rewrite <- Hres, Ed. cbn [bi ai aaid aaidError taid taidError ts].
        repeat split. now rewrite Hb.
    + specialize (IH reads Hle).
      destruct (settleActions W input issued reads) as [rest r'].
      cbn [fst] in *. constructor; [| exact IH].
      unfold invokedAs. rewrite <- Hres. reflexivity.
Qed.

(** [invokeActions] as a whole: as many client calls as invocations, and
    the [i]-th sample is what the [i]-th call ended in. *)
Lemma invokeActions_outcomes W input (count burst_bi : Z) (reads calls : nat) :
  let '(samples, reads', calls') :=
    invokeActions W input count burst_bi reads calls in
  calls' = (calls + Z.to_nat count)%nat
  /\ Forall2 (invokedAs W input burst_bi reads calls (Z.to_nat count))
             (seq 0 (Z.to_nat count)) samples.
Proof.
  unfold invokeActions.
  pose proof (issueActions_outcomes W input burst_bi reads calls
                                    (Z.to_nat count) 0) as Hi.
  rewrite !Nat.add_0_r in Hi.
  replace (if input_burst_timing input then reads else reads) with reads in Hi
    by (destruct (input_burst_timing input); reflexivity).
  destruct (issueActions W input (Z.to_nat count) burst_bi reads calls)
    as [[issued r1] c1].
  destruct Hi as [Hr [Hc Hf]].
  pose proof (settleActions_outcomes W input burst_bi reads calls
                (Z.to_nat count) (seq 0 (Z.to_nat count)) issued Hf r1) as Hs.
  destruct (settleActions W input issued r1) as [samples r2].
  cbn [fst] in Hs. split; [exact Hc |].
  apply Hs. rewrite Hr. destruct (input_burst_timing input); lia.
Qed.

Lemma invokeActions_length W input (count burst_bi : Z) (reads calls : nat) :
  List.length (fst (fst (invokeActions W input count burst_bi reads calls)))
  = Z.to_nat count.
Proof.
  pose proof (invokeActions_outcomes W input count burst_bi reads calls) as H.
  destruct (invokeActions W input count burst_bi reads calls) as [[samples r'] c'].
  destruct H as [_ Hf]. apply Forall2_length in Hf.
  rewrite length_seq in Hf. cbn [fst]. now symmetry.
Qed.

(** X17. [invokeActions(count, ...)] returns one sample for each of the
    [count] invocations (none for a count that is not positive), in the
    order of the invocations, and calls the client as many times.  The
    [i]-th sample is decided by the outcome of the [i]-th call: rejected
    with [err], the sample is [{aaidError: err}], without [bi] and [ai];
    resolved, the sample carries the activation id of the answer, no error,
    the [bi] taken before that call (the timestamp of the burst under burst
    timing) and, exactly when the invocation blocks, an [ai] read after all
    invocations were issued; no sample has a trigger field. *)
Theorem invokeActions_samples (W : World) (input : Input) (count burst_bi : Z)
    (reads calls : nat) :
  let '(samples, reads', calls') :=
    invokeActions W input count burst_bi reads calls in
  List.length samples = Z.to_nat count
  /\ (if count <=? 0 then samples = [] else True)
  /\ calls' = (calls + Z.to_nat count)%nat
  /\ Forall2 (invokedAs W input burst_bi reads calls (Z.to_nat count))
             (seq 0 (Z.to_nat count)) samples.
Proof.
  pose proof (invokeActions_outcomes W input count burst_bi reads calls) as H.
  pose proof (invokeActions_length W input count burst_bi reads calls) as Hl.
  destruct (invokeActions W input count burst_bi reads calls) as [[samples r'] c'].
  cbn [fst] in Hl. destruct H as [Hc Hf].
  repeat split; [exact Hl | | exact Hc | exact Hf].
  destruct (Z.leb_spec count 0) as [Hle | _]; [| exact I].
  destruct samples as [| s samples]; [reflexivity |].
  simpl in Hl. lia.
Qed.

(** ** The loop *)

Lemma checkInit_keeps W input st :
  abort (checkInit W input st) = abort st
  /\ sampleData (checkInit W input st) = sampleData st.
Proof. unfold checkInit. destruct (remainingInits st - 1 =? 0); split; reflexivity. Qed.

Lemma handle_sampleData W input (e : Event) (st : LoopState) :
  sampleData (handle W input e st) = sampleData st.
Proof.
  destruct e; simpl.
  - destruct (isMaster W && (1 <? input_workers input)); [apply checkInit_keeps | reflexivity].
  - destruct (timerSet st); reflexivity.
  - destruct (isMaster W); reflexivity.
Qed.

Lemma handlers_sampleData W input (evs : list Event) :
  forall st, sampleData (fold_left (fun st e => handle W input e st) evs st)
             = sampleData st.
Proof.
  induction evs as [| e evs IH]; intros st; simpl; [reflexivity |].
  rewrite IH. apply handle_sampleData.
Qed.

Lemma checkInit_calls W input st : calls (checkInit W input st) = calls st.
Proof. unfold checkInit. destruct (remainingInits st - 1 =? 0); reflexivity. Qed.

Lemma handle_calls W input (e : Event) (st : LoopState) :
  calls (handle W input e st) = calls st.
Proof.
  destruct e; simpl.
  - destruct (isMaster W && (1 <? input_workers input));
      [apply checkInit_calls | reflexivity].
  - destruct (timerSet st); reflexivity.
  - destruct (isMaster W); reflexivity.
Qed.

Lemma handlers_calls W input (evs : list Event) :
  forall st, calls (fold_left (fun st e => handle W input e st) evs st)
             = calls st.
Proof.
  induction evs as [| e evs IH]; intros st; simpl; [reflexivity |].
  rewrite IH. apply handle_calls.
Qed.

Lemma Forall2_seq_from {A : Type} (P : nat -> A -> Prop) (c : nat) :
  forall (n k : nat) (l : list A),
    Forall2 (fun i x => P (c + i)%nat x) (seq k n) l ->
    Forall2 P (seq (c + k) n) l.
Proof.
  induction n as [| n IH]; intros k l H; cbn [seq] in *.
  - inversion H; subst. constructor.
  - inversion H as [| i x is_ xs Hx Hrest]; subst.
    constructor; [exact Hx |].
    replace (S (c + k)) with (c + S k)%nat by lia.
    apply IH. exact Hrest.
Qed.

(** For the activity [action], the sample of the [i]-th invocation of a
    turn is the sample of the client call that invocation makes. *)
Lemma invokedAs_sampleOfCall W input (j reads calls count i : nat) (s : Sample) :
  Activity_eqb (activity W input) ACTION = true ->
  invokedAs W input (now W j) reads calls count i s ->
  sampleOfCall W input (calls + i) s.
Proof.
  intros Ha. unfold invokedAs, sampleOfCall. rewrite Ha.
  destruct (ow_actions_invoke W (calls + i)) as [activationId | err];
    [| exact (fun H => H)].
  intros (Hbi & Haaid & He & Ht & Hte & Hts & Hai).
  repeat split; try assumption.
  - destruct (input_burst_timing input); eexists; exact Hbi.
  - destruct (doBlocking W input); [| exact Hai].
    destruct Hai as [j' [_ Hai]]. exists j'. exact Hai.
Qed.

(** The invocations of one turn, for either activity: [perTurn] samples,
    one for each client call the turn makes, in the order of the calls. *)
Lemma turn_samples W input (j r c : nat) :
  let '(samples, r', c') :=
    if Activity_eqb (activity W input) ACTION
    then invokeActions W input (input_ratio input) (now W j) r c
    else invokeRules W (now W j) r c in
  List.length samples = perTurn W input
  /\ c' = (c + List.length samples)%nat
  /\ Forall2 (sampleOfCall W input) (seq c (List.length samples)) samples.
Proof.
  unfold perTurn. destruct (Activity_eqb (activity W input) ACTION) eqn:Ea.
  - pose proof (invokeActions_outcomes W input (input_ratio input) (now W j) r c) as H.
    pose proof (invokeActions_length W input (input_ratio input) (now W j) r c) as Hl.
    destruct (invokeActions W input (input_ratio input) (now W j) r c)
      as [[samples r'] c'].
    cbn [fst] in Hl. destruct H as [Hc Hf]. rewrite Hl.
    repeat split; [exact Hc |].
    replace c with (c + 0)%nat at 1 by lia.
    apply Forall2_seq_from.
    eapply Forall2_impl; [| exact Hf].
    intros i s. apply invokedAs_sampleOfCall. exact Ea.
  - unfold invokeRules.
    destruct (ow_triggers_invoke W c) as [triggerActivationId | err] eqn:Et;
      cbn [List.length seq]; (repeat split; [lia |]);
      (constructor; [| constructor]); unfold sampleOfCall; rewrite Ea, Et.
    + exists j. reflexivity.
    + reflexivity.
Qed.

(** X18. [mainLoop] returns only once [abort] is set, and it never drops,
    changes or invents a sample: when it returns, the buffer is the buffer
    it was entered with, followed by the samples of a whole number of
    turns, exactly one for each client call the loop made and in the order
    of the calls, each being what its call ended in (the error sample for a
    rejected call, a sample with [bi] and the activation id for a resolved
    one); entered with [abort] set, it returns at once with nothing
    changed. *)
Theorem mainLoop_returns_aborted (W : World) (input : Input) (fuel : nat) :
  forall (k : nat) (st st' : LoopState),
    mainLoop W input fuel k st = Some st' ->
    abort st' = true
    /\ (exists (more : list Sample) (turns : nat),
          sampleData st' = sampleData st ++ more
          /\ List.length more = (turns * perTurn W input)%nat
          /\ calls st' = (calls st + List.length more)%nat
          /\ Forall2 (sampleOfCall W input)
                     (seq (calls st) (List.length more)) more)
    /\ (if abort st then st' = st else True).
Proof.
  induction fuel as [| fuel IH]; intros k st st'; [discriminate |].
  cbn [mainLoop].
  remember (if warmupCounter st =? 0
            then if isMaster W then checkInit W input st
                 else mkLoop (abort st) (warmupCounter st) (remainingInits st)
                             (remainingIterations st) (measurementTime st)
                             (sampleData st) (timerSet st) (S (initsSent st))
                             (reads st) (calls st)
            else st) as st1 eqn:Est1.
  assert (Hs1 : sampleData st1 = sampleData st).
  { subst st1. destruct (warmupCounter st =? 0); [| reflexivity].
    destruct (isMaster W); [apply checkInit_keeps | reflexivity]. }
  assert (Hc1 : calls st1 = calls st).
  { subst st1. destruct (warmupCounter st =? 0); [| reflexivity].
    destruct (isMaster W); [apply checkInit_calls | reflexivity]. }
  clear Est1.
  destruct (abort st) eqn:Ea.
  - intros [= <-]. split; [exact Ea |]. split; [| reflexivity].
    exists [], O. cbn [List.length seq].
    repeat split; [now rewrite app_nil_r | lia | constructor].
  - destruct (remainingIterations st1 =? 0).
    + intros Hrun. apply IH in Hrun.
      destruct Hrun as [Hab [(more & turns & Hmore & Hlen & Hcalls & Hall) _]].
      cbn [sampleData calls abortLoop] in Hmore, Hcalls, Hall.
      split; [exact Hab |]. split; [| exact I].
      exists more, turns. rewrite <- Hs1, <- Hc1. auto.
    + pose proof (turn_samples W input (reads st1) (S (reads st1)) (calls st1))
        as Hturn.
      destruct (if Activity_eqb (activity W input) ACTION
                then invokeActions W input (input_ratio input) (now W (reads st1))
                                   (S (reads st1)) (calls st1)
                else invokeRules W (now W (reads st1)) (S (reads st1)) (calls st1))
        as [[samples r'] c'].
      destruct Hturn as [Hlen1 [Hc' Hall1]].
      intros Hrun. apply IH in Hrun.
      destruct Hrun as [Hab [(more & turns & Hmore & Hlen & Hcalls & Hall) _]].
      rewrite handlers_sampleData in Hmore.
      rewrite handlers_calls in Hcalls, Hall.
      cbn [sampleData calls] in Hmore, Hcalls, Hall.
      split; [exact Hab |]. split; [| exact I].
      exists (samples ++ more), (S turns).
      rewrite length_app, seq_app, <- Hs1, <- Hc1.
      repeat split.
      * rewrite Hmore. symmetry. apply app_assoc.
      * rewrite Hlen1, Hlen. reflexivity.
      * rewrite Hcalls, Hc'. lia.
      * apply Forall2_app; [exact Hall1 |]. rewrite <- Hc'. exact Hall.
Qed.

Lemma mainLoop_returns_aborted_witness :
  exists st' : LoopState,
    mainLoop acceptingWorld scenarioInput 17 0 (LoopState0 scenarioInput) = Some st'
    /\ abort st' = true
    /\ exists (more : list Sample) (turns : nat),
         sampleData st' = sampleData (LoopState0 scenarioInput) ++ more
         /\ List.length more
            = (turns * perTurn acceptingWorld scenarioInput)%nat
         /\ calls st'
            = (calls (LoopState0 scenarioInput) + List.length more)%nat
         /\ Forall2 (sampleOfCall acceptingWorld scenarioInput)
                    (seq (calls (LoopState0 scenarioInput)) (List.length more))
                    more.
Proof.
  destruct (mainLoop acceptingWorld scenarioInput 17 0 (LoopState0 scenarioInput))
    as [st' |] eqn:E; [| vm_compute in E; discriminate E].
  exists st'. split; [reflexivity |].
  destruct (mainLoop_returns_aborted acceptingWorld scenarioInput 17 0
                                     (LoopState0 scenarioInput) st' E)
    as [Ha [Hm _]].
  split; [exact Ha | exact Hm].
Defined.

Section WorkerRun.

Variable W : World.
Variable input : Input.

Hypothesis worker : isMaster W = false.

(** A turn of the loop at a worker whose countdown of iterations is not
    armed: it adds samples and changes nothing else that decides how the
    loop goes on. *)
Lemma worker_turn (fuel k : nat) (st : LoopState) :
  abort st = false -> remainingIterations st < 0 -> timerSet st = false ->
  exists st1 : LoopState,
    mainLoop W input (S fuel) k st
    = mainLoop W input fuel (S k)
               (fold_left (fun st e => handle W input e st) (delivered W k) st1)
    /\ abort st1 = false /\ remainingIterations st1 = remainingIterations st
    /\ timerSet st1 = false /\ measurementTime st1 = measurementTime st.
Proof.
  intros Ha Hr Ht. cbn [mainLoop]. rewrite Ha, worker.
  assert (E0 : (remainingIterations st =? 0) = false) by (apply Z.eqb_neq; lia).
  assert (E1 : (remainingIterations st >? 0) = false).
  { rewrite Z.gtb_ltb. apply Z.ltb_ge. lia. }
  destruct (warmupCounter st =? 0);
    cbn [remainingIterations reads calls abort warmupCounter remainingInits
         measurementTime sampleData timerSet initsSent];
    rewrite E0, E1;
    match goal with
    | |- context [if Activity_eqb ?a ACTION then ?x else ?y] =>
      destruct (if Activity_eqb a ACTION then x else y) as [[samples r'] c']
    end;
    eexists; (split; [reflexivity |]); cbn; auto.
Qed.

Lemma worker_handlers_quiet (evs : list Event) :
  (forall e, In e evs -> forall w, e <> AbortMsg w) ->
  forall st, abort st = false -> timerSet st = false ->
    abort (fold_left (fun st e => handle W input e st) evs st) = false
    /\ timerSet (fold_left (fun st e => handle W input e st) evs st) = false
    /\ remainingIterations (fold_left (fun st e => handle W input e st) evs st)
       = remainingIterations st.
Proof.
  induction evs as [| e evs IH]; intros Hq st Ha Ht; simpl; [auto |].
  assert (He : handle W input e st = st).
  { destruct e as [| | w]; simpl.
    - now rewrite worker.
    - now rewrite Ht.
    - exfalso. apply (Hq (AbortMsg w) (or_introl eq_refl) w). reflexivity. }
  rewrite He. apply IH; auto. intros e' H'. apply Hq. now right.
Qed.

(** X19. A worker does not stop by itself: as long as no [abort] message
    of the master is delivered, the loop of a worker is never left, however
    many turns it is given; no countdown of iterations and no timer is ever
    armed at a worker. *)
Theorem worker_runs_until_abort_message :
  (forall k e, In e (delivered W k) -> forall w, e <> AbortMsg w) ->
  forall fuel : nat, mainLoop W input fuel 0 (LoopState0 input) = None.
Proof.
  intros Hq fuel.
  assert (Hgen : forall fuel k st,
             abort st = false -> remainingIterations st < 0 -> timerSet st = false ->
             mainLoop W input fuel k st = None).
  { clear fuel. induction fuel as [| fuel IH]; intros k st Ha Hr Ht; [reflexivity |].
    destruct (worker_turn fuel k st Ha Hr Ht) as [st1 [Hrun [Ha1 [Hr1 [Ht1 _]]]]].
    rewrite Hrun.
    destruct (worker_handlers_quiet (delivered W k) (Hq k) st1 Ha1 Ht1)
      as [Ha2 [Ht2 Hr2]].
    apply IH; [exact Ha2 | lia | exact Ht2]. }
  apply Hgen; simpl; [reflexivity | lia | reflexivity].
Qed.

(** X20. A worker takes its time frame from the master: when the last
    message delivered while a turn awaits is the master's [abort] message,
    the loop of the worker is left right after that turn, with
    [measurementTime] set to the window of the message. *)
Theorem worker_stops_on_abort_message (fuel k : nat) (st : LoopState)
    (evs : list Event) (window : TimeFrame) :
  abort st = false ->
  remainingIterations st < 0 ->
  timerSet st = false ->
  delivered W k = evs ++ [AbortMsg window] ->
  exists st' : LoopState,
    mainLoop W input (S (S fuel)) k st = Some st'
    /\ abort st' = true
    /\ measurementTime st' = window.
Proof.
  intros Ha Hr Ht Hd.
  destruct (worker_turn (S fuel) k st Ha Hr Ht) as [st1 [Hrun _]].
  rewrite Hrun, Hd, fold_left_app. cbn [fold_left handle]. rewrite worker.
  cbn [mainLoop abortLoop abort]. eexists. split; [reflexivity |].
  split; reflexivity.
Qed.

End WorkerRun.

Lemma worker_runs_until_abort_message_witness :
  mainLoop lonelyWorker defaultInput 7 0 (LoopState0 defaultInput) = None.
Proof.
  apply (worker_runs_until_abort_message lonelyWorker defaultInput eq_refl).
  intros k e [].
Defined.

Lemma worker_stops_on_abort_message_witness :
  exists st' : LoopState,
    mainLoop workerWorld defaultInput 2 2
             (mkLoop false 3 1 (-1) measurementTime0 [] false 0 4 2) = Some st'
    /\ abort st' = true
    /\ measurementTime st' = mkTimeFrame 1002 1010.
Proof.
  apply (worker_stops_on_abort_message
           workerWorld defaultInput eq_refl 0 2
           (mkLoop false 3 1 (-1) measurementTime0 [] false 0 4 2)
           [] (mkTimeFrame 1002 1010) eq_refl ltac:(simpl; lia) eq_refl eq_refl).
Defined.

Section CountedRun.

Variable W : World.
Variable input : Input.
Variable n : Z.

Hypothesis master : isMaster W = true.
Hypothesis one_worker : input_workers input = 1.
Hypothesis iterations_set : input_iterations input = Some n.
Hypothesis iterations_positive : 0 < n.
Hypothesis no_period : input_period input = None.

(** The invocations of one turn, for either activity, yield [perTurn]
    samples. *)
Lemma turn_invocations (si : Z) (r c : nat) :
  exists (samples : list Sample) (r' c' : nat),
    (if Activity_eqb (activity W input) ACTION
     then invokeActions W input (input_ratio input) si r c
     else invokeRules W si r c) = (samples, r', c')
    /\ List.length samples = perTurn W input.
Proof.
  unfold perTurn. destruct (Activity_eqb (activity W input) ACTION).
  - pose proof (invokeActions_length W input (input_ratio input) si r c) as H.
    destruct (invokeActions W input (input_ratio input) si r c) as [[samples r'] c'].
    exists samples, r', c'. split; [reflexivity | exact H].
  - unfold invokeRules. destruct (ow_triggers_invoke W c);
      do 3 eexists; split; reflexivity.
Qed.

Lemma counted_handlers (evs : list Event) (st : LoopState) :
  timerSet st = false ->
  fold_left (fun st e => handle W input e st) evs st = st.
Proof.
  intros Ht. induction evs as [| e evs IH]; simpl; [reflexivity |].
  replace (handle W input e st) with st; [exact IH |].
  destruct e; simpl.
  - rewrite master, one_worker. reflexivity.
  - rewrite Ht. reflexivity.
  - rewrite master. reflexivity.
Qed.

Lemma counted_turn_warmup (fuel k : nat) (wc : Z) (mt : TimeFrame)
    (sd : list Sample) (sent r c : nat) :
  0 < wc ->
  exists (samples : list Sample) (r' c' : nat),
    List.length samples = perTurn W input
    /\ mainLoop W input (S fuel) k (mkLoop false wc 1 (-1) mt sd false sent r c)
       = mainLoop W input fuel (S k)
                  (mkLoop false (wc - 1) 1 (-1) mt (sd ++ samples) false sent r' c').
Proof.
  intros Hwc.
  destruct (turn_invocations (now W r) (S r) c) as [samples [r' [c' [Hinv Hlen]]]].
  exists samples, (S r'), c'. split; [exact Hlen |].
  assert (E0 : (wc =? 0) = false) by (apply Z.eqb_neq; lia).
  assert (E1 : (wc >=? 0) = true) by (rewrite Z.geb_leb; apply Z.leb_le; lia).
  cbn -[invokeActions invokeRules activity Activity_eqb Z.sub]. rewrite E0.
  cbn -[invokeActions invokeRules activity Activity_eqb Z.sub]. rewrite E1, Hinv.
  rewrite counted_handlers by reflexivity. reflexivity.
Qed.

Lemma counted_turn_init (fuel k : nat) (mt : TimeFrame) (sd : list Sample)
    (sent r c : nat) :
  exists (samples : list Sample) (r' c' : nat),
    List.length samples = perTurn W input
    /\ mainLoop W input (S fuel) k (mkLoop false 0 1 (-1) mt sd false sent r c)
       = mainLoop W input fuel (S k)
                  (mkLoop false (-1) 0 (n - 1) (mkTimeFrame (now W r) (stop mt))
                          (sd ++ samples) false sent r' c').
Proof.
  destruct (turn_invocations (now W (S r)) (S (S r)) c)
    as [samples [r' [c' [Hinv Hlen]]]].
  exists samples, (S r'), c'. split; [exact Hlen |].
  assert (E0 : (n =? 0) = false) by (apply Z.eqb_neq; lia).
  assert (E1 : (n >? 0) = true) by (rewrite Z.gtb_ltb; apply Z.ltb_lt; lia).
  cbn -[invokeActions invokeRules activity Activity_eqb checkInit Z.sub].
  rewrite master. unfold checkInit.
  cbn -[invokeActions invokeRules activity Activity_eqb Z.sub].
  rewrite iterations_set, no_period, E0.
  change (1 - 1) with 0.
  cbn -[invokeActions invokeRules activity Activity_eqb Z.sub].
  rewrite E0, E1, Hinv.
  rewrite counted_handlers by reflexivity. reflexivity.
Qed.

Lemma counted_turn_measure (fuel k : nat) (rem : Z) (mt : TimeFrame)
    (sd : list Sample) (sent r c : nat) :
  0 < rem ->
  exists (samples : list Sample) (r' c' : nat),
    List.length samples = perTurn W input
    /\ mainLoop W input (S fuel) k (mkLoop false (-1) 0 rem mt sd false sent r c)
       = mainLoop W input fuel (S k)
                  (mkLoop false (-1) 0 (rem - 1) mt (sd ++ samples) false sent r' c').
Proof.
  intros Hrem.
  destruct (turn_invocations (now W r) (S r) c) as [samples [r' [c' [Hinv Hlen]]]].
  exists samples, (S r'), c'. split; [exact Hlen |].
  assert (E0 : (rem =? 0) = false) by (apply Z.eqb_neq; lia).
  assert (E1 : (rem >? 0) = true) by (rewrite Z.gtb_ltb; apply Z.ltb_lt; lia).
  cbn -[invokeActions invokeRules activity Activity_eqb Z.sub].
  rewrite E0, E1, Hinv.
  rewrite counted_handlers by reflexivity. reflexivity.
Qed.

Lemma counted_turn_abort (fuel k : nat) (mt : TimeFrame) (sd : list Sample)
    (sent r c : nat) :
  mainLoop W input (S (S fuel)) k (mkLoop false (-1) 0 0 mt sd false sent r c)
  = Some (mkLoop true (-1) 0 0 mt sd false sent r c).
Proof. reflexivity. Qed.

Lemma counted_phase_warmup (w : nat) :
  forall (fuel k : nat) (mt : TimeFrame) (sd : list Sample) (sent r c : nat),
    exists (sd' : list Sample) (k' r' c' : nat),
      List.length sd' = (List.length sd + w * perTurn W input)%nat
      /\ mainLoop W input (w + fuel) k
                  (mkLoop false (Z.of_nat w) 1 (-1) mt sd false sent r c)
         = mainLoop W input fuel k'
                    (mkLoop false 0 1 (-1) mt sd' false sent r' c').
Proof.
  induction w as [| w IH]; intros fuel k mt sd sent r c.
  - exists sd, k, r, c. split; [simpl; lia | reflexivity].
  - destruct (counted_turn_warmup (w + fuel) k (Z.of_nat (S w)) mt sd sent r c)
      as [samples [r1 [c1 [Hlen Hturn]]]]; [lia |].
    replace (Z.of_nat (S w) - 1) with (Z.of_nat w) in Hturn by lia.
    destruct (IH fuel (S k) mt (sd ++ samples) sent r1 c1)
      as [sd' [k' [r' [c' [Hlen' Hrun]]]]].
    exists sd', k', r', c'. split.
    + rewrite Hlen', length_app, Hlen. simpl. lia.
    + change (S w + fuel)%nat with (S (w + fuel)). rewrite Hturn. exact Hrun.
Qed.

Lemma counted_phase_measure (m : nat) :
  forall (fuel k : nat) (mt : TimeFrame) (sd : list Sample) (sent r c : nat),
    exists (sd' : list Sample) (k' r' c' : nat),
      List.length sd' = (List.length sd + m * perTurn W input)%nat
      /\ mainLoop W input (m + fuel) k
                  (mkLoop false (-1) 0 (Z.of_nat m) mt sd false sent r c)
         = mainLoop W input fuel k'
                    (mkLoop false (-1) 0 0 mt sd' false sent r' c').
Proof.
  induction m as [| m IH]; intros fuel k mt sd sent r c.
  - exists sd, k, r, c. split; [simpl; lia | reflexivity].
  - destruct (counted_turn_measure (m + fuel) k (Z.of_nat (S m)) mt sd sent r c)
      as [samples [r1 [c1 [Hlen Hturn]]]]; [lia |].
    replace (Z.of_nat (S m) - 1) with (Z.of_nat m) in Hturn by lia.
    destruct (IH fuel (S k) mt (sd ++ samples) sent r1 c1)
      as [sd' [k' [r' [c' [Hlen' Hrun]]]]].
    exists sd', k', r', c'. split.
    + rewrite Hlen', length_app, Hlen. simpl. lia.
    + change (S m + fuel)%nat with (S (m + fuel)). rewrite Hturn. exact Hrun.
Qed.

(** X21. A master that runs alone with an iteration count [n > 0] and no
    period, for any activity, ratio and blocking mode and whatever the client
    answers: [mainLoop] is left, aborted by the countdown, after
    [warmup + n + 2] evaluations of its condition at most; the buffer then
    holds [(warmup + n) * ratio] samples for the activity [action] and
    [warmup + n] for the activity [rule]; the start of the time frame was
    stamped when the warm-up ended, and its stop is not yet set. *)
Theorem mainLoop_counted_run :
  0 <= input_warmup input ->
  exists st : LoopState,
    mainLoop W input (Z.to_nat (input_warmup input) + Z.to_nat n + 2) 0
             (LoopState0 input) = Some st
    /\ abort st = true
    /\ remainingIterations st = 0
    /\ List.length (sampleData st)
       = ((Z.to_nat (input_warmup input) + Z.to_nat n) * perTurn W input)%nat
    /\ (exists i : nat, start (measurementTime st) = now W i)
    /\ stop (measurementTime st) = -1.
Proof.
  intros Hw. unfold LoopState0. rewrite one_worker.
  remember (Z.to_nat (input_warmup input)) as w eqn:Ew.
  assert (Ew' : input_warmup input = Z.of_nat w) by lia.
  rewrite Ew'. clear Ew Ew' Hw.
  remember (Z.to_nat n - 1)%nat as m eqn:Em.
  assert (En : n - 1 = Z.of_nat m) by lia.
  replace (w + Z.to_nat n + 2)%nat with (w + (S (m + 2)))%nat by lia.
  destruct (counted_phase_warmup w (S (m + 2)) 0 measurementTime0 [] 0 0 0)
    as [sd1 [k1 [r1 [c1 [Hlen1 Hrun1]]]]].
  rewrite Hrun1.
  destruct (counted_turn_init (m + 2) k1 measurementTime0 sd1 0 r1 c1)
    as [samples [r2 [c2 [Hlen2 Hrun2]]]].
  rewrite Hrun2, En.
  destruct (counted_phase_measure m 2 (S k1) (mkTimeFrame (now W r1) (stop measurementTime0))
                                  (sd1 ++ samples) 0 r2 c2)
    as [sd3 [k3 [r3 [c3 [Hlen3 Hrun3]]]]].
  rewrite Hrun3, counted_turn_abort.
  eexists. split; [reflexivity |].
  cbn [abort remainingIterations sampleData measurementTime start stop].
  repeat split; [| eexists; reflexivity].
  rewrite Hlen3, length_app, Hlen1, Hlen2. simpl List.length.
  replace (Z.to_nat n) with (S m) by lia. lia.
Qed.

End CountedRun.

Lemma mainLoop_counted_run_witness :
  exists st : LoopState,
    mainLoop acceptingWorld scenarioInput (Z.to_nat 5 + Z.to_nat 10 + 2) 0
             (LoopState0 scenarioInput) = Some st
    /\ abort st = true
    /\ remainingIterations st = 0
    /\ List.length (sampleData st)
       = ((Z.to_nat 5 + Z.to_nat 10) * perTurn acceptingWorld scenarioInput)%nat
    /\ (exists i : nat, start (measurementTime st) = now acceptingWorld i)
    /\ stop (measurementTime st) = -1.
Proof.
  apply (mainLoop_counted_run acceptingWorld scenarioInput 10
                              eq_refl eq_refl eq_refl eq_refl eq_refl).
  simpl. lia.
Defined.

(** ** Samples and the clock *)

Lemma issueActions_reads W input (count : nat) (burst_bi : Z) :
  forall (reads calls : nat),
    let '(issued, reads', calls') := issueActions W input count burst_bi reads calls in
    (reads <= reads')%nat
    /\ Forall (fun '(b, _) => b = burst_bi \/ exists j, (j < reads')%nat /\ b = now W j)
              issued.
Proof.
  induction count as [| count IH]; intros reads calls; simpl.
  - split; [lia | constructor].
  - destruct (input_burst_timing input).
    + specialize (IH reads (S calls)).
      destruct (issueActions W input count burst_bi reads (S calls)) as [[rest r'] c'].
      destruct IH as [Hr Hf]. split; [exact Hr |].
      constructor; [now left | exact Hf].
    + specialize (IH (S reads) (S calls)).
      destruct (issueActions W input count burst_bi (S reads) (S calls)) as [[rest r'] c'].
      destruct IH as [Hr Hf]. split; [lia |].
      constructor; [right; exists reads; split; [lia | reflexivity] | exact Hf].
Qed.

Lemma settleActions_biBeforeAi W input (issued : list (Z * InvokeResult)) :
  monotone (now W) ->
  forall reads0 reads : nat,
    (reads0 <= reads)%nat ->
    Forall (fun '(b, _) => exists j, (j < reads0)%nat /\ b = now W j) issued ->
    Forall biBeforeAi (fst (settleActions W input issued reads)).
Proof.
  intros Hmono. induction issued as [| [b res] issued IH]; intros reads0 reads Hle Hall;
    simpl; [constructor |].
  inversion Hall as [| ? ? Hhd Hrest]; subst.
  cbn beta iota in Hhd. destruct Hhd as [j [Hj Hb]].
  destruct res as [activationId | err].
  - destruct (doBlocking W input).
    + specialize (IH reads0 (S reads) ltac:(lia) Hrest).
      destruct (settleActions W input issued (S reads)) as [rest r']. simpl in *.
      constructor; [| exact IH]. unfold biBeforeAi. simpl. rewrite Hb.
      apply Hmono. lia.
    + specialize (IH reads0 reads Hle Hrest).
      destruct (settleActions W input issued reads) as [rest r']. simpl in *.
      constructor; [exact I | exact IH].
  - specialize (IH reads0 reads Hle Hrest).
    destruct (settleActions W input issued reads) as [rest r']. simpl in *.
    constructor; [exact I | exact IH].
Qed.

Lemma invokeActions_biBeforeAi W input (count : Z) (j0 reads calls : nat) :
  monotone (now W) -> (j0 < reads)%nat ->
  Forall biBeforeAi
         (fst (fst (invokeActions W input count (now W j0) reads calls))).
Proof.
  intros Hmono Hj. unfold invokeActions.
  pose proof (issueActions_reads W input (Z.to_nat count) (now W j0) reads calls) as Hi.
  destruct (issueActions W input (Z.to_nat count) (now W j0) reads calls)
    as [[issued r1] c1].
  destruct Hi as [Hr Hf].
  pose proof (settleActions_biBeforeAi W input issued Hmono r1 r1 (le_n _)) as Hs.
  destruct (settleActions W input issued r1) as [samples r2]. simpl in *.
  apply Hs. eapply Forall_impl; [| exact Hf].
  intros [b res] [-> | [j [Hjr ->]]]; [exists j0; split; [lia | reflexivity] |].
  exists j. split; [exact Hjr | reflexivity].
Qed.

(** X22. With a clock that never goes back, no collected sample ends
    before it starts: when [mainLoop] returns, every sample of the buffer
    that has both [bi] and [ai] has [bi <= ai], provided the samples it was
    entered with have; so the round-trip time [ai - bi] that [processSample]
    computes is never negative. *)
Theorem mainLoop_bi_before_ai (W : World) (input : Input) (fuel : nat) :
  monotone (now W) ->
  forall (k : nat) (st st' : LoopState),
    Forall biBeforeAi (sampleData st) ->
    mainLoop W input fuel k st = Some st' ->
    Forall biBeforeAi (sampleData st').
Proof.
  intros Hmono. induction fuel as [| fuel IH]; intros k st st' Hall; [discriminate |].
  cbn [mainLoop].
  remember (if warmupCounter st =? 0
            then if isMaster W then checkInit W input st
                 else mkLoop (abort st) (warmupCounter st) (remainingInits st)
                             (remainingIterations st) (measurementTime st)
                             (sampleData st) (timerSet st) (S (initsSent st))
                             (reads st) (calls st)
            else st) as st1 eqn:Est1.
  assert (Hs1 : sampleData st1 = sampleData st).
  { subst st1. destruct (warmupCounter st =? 0); [| reflexivity].
    destruct (isMaster W); [apply checkInit_keeps | reflexivity]. }
  clear Est1.
  destruct (abort st).
  - now intros [= <-].
  - destruct (remainingIterations st1 =? 0).
    + apply IH. cbn [sampleData abortLoop]. now rewrite Hs1.
    + assert (Hsamples :
        Forall biBeforeAi
          (fst (fst (if Activity_eqb (activity W input) ACTION
                     then invokeActions W input (input_ratio input) (now W (reads st1))
                                        (S (reads st1)) (calls st1)
                     else invokeRules W (now W (reads st1)) (S (reads st1)) (calls st1))))).
      { destruct (Activity_eqb (activity W input) ACTION).
        - apply invokeActions_biBeforeAi; [exact Hmono | lia].
        - unfold invokeRules. destruct (ow_triggers_invoke W (calls st1)); simpl;
            repeat constructor. }
      destruct (if Activity_eqb (activity W input) ACTION
                then invokeActions W input (input_ratio input) (now W (reads st1))
                                   (S (reads st1)) (calls st1)
                else invokeRules W (now W (reads st1)) (S (reads st1)) (calls st1))
        as [[samples r'] c'].
      apply IH. rewrite handlers_sampleData. cbn [sampleData fst] in *.
      apply Forall_app. split; [now rewrite Hs1 | exact Hsamples].
Qed.

Lemma mainLoop_bi_before_ai_witness :
  exists st' : LoopState,
    mainLoop acceptingWorld blockingInput 6 0 (LoopState0 blockingInput) = Some st'
    /\ List.length (sampleData st') = 9%nat
    /\ Forall biBeforeAi (sampleData st').
Proof.
  destruct (mainLoop acceptingWorld blockingInput 6 0 (LoopState0 blockingInput))
    as [st' |] eqn:E; [| vm_compute in E; discriminate E].
  exists st'. split; [reflexivity |]. split.
  - vm_compute in E. injection E as <-. reflexivity.
  - apply (mainLoop_bi_before_ai acceptingWorld blockingInput 6) with (k := O)
                                                                    (st := LoopState0 blockingInput).
    + intros i j Hij. unfold acceptingWorld. cbn [now]. lia.
    + constructor.
    + exact E.
Defined.

(** ** Configuration *)

(** X23. Outside the master-apart mode all processes run the same
    experiment: when none of [master_activity], [master_blocking],
    [master_delta] is truthy, the master invokes with the activity, the
    blocking mode and the delta of the workers; and a worker uses the
    common options in every mode.  A [master_delta] of 0 does not set the
    master apart. *)
Theorem regular_mode_uniform (W : World) (input : Input) :
  isMaster W = false \/ master_apart input = false ->
  activity W input = input_activity input
  /\ blocking W input = input_blocking input
  /\ delta W input = Some (input_delta input).
Proof.
  unfold master_apart, activity, blocking, delta.
  intros [Hw | Hm].
  - rewrite Hw. cbn [negb orb].
    destruct (input_master_activity input), (input_master_blocking input); auto.
  - destruct (input_master_activity input); [discriminate |].
    destruct (input_master_blocking input); [discriminate |].
    cbn [orb] in Hm. rewrite Hm. cbn [negb]. rewrite orb_true_r. auto.
Qed.

Lemma regular_mode_uniform_witness :
  activity acceptingWorld
           (mkInput RULE NONE 200 None (Some 1000) 1 4 None None (Some 0) 5 false)
  = RULE
  /\ blocking acceptingWorld
              (mkInput RULE NONE 200 None (Some 1000) 1 4 None None (Some 0) 5 false)
     = NONE
  /\ delta acceptingWorld
           (mkInput RULE NONE 200 None (Some 1000) 1 4 None None (Some 0) 5 false)
     = Some 200.
Proof.
  apply (regular_mode_uniform
           acceptingWorld
           (mkInput RULE NONE 200 None (Some 1000) 1 4 None None (Some 0) 5 false)).
  right. reflexivity.
Defined.

(** ** Samples with missing fields *)

(** X24. A sample without [bi] is never discarded by the test of the time
    frame: an error sample built by [invokeActions] or [invokeRules], which
    has no [bi] and no trigger start, adds one to [attempts], [requests] and
    [errors] for every time frame, also when it was taken during the warm-up
    or when no time frame was set, and changes nothing else. *)
Theorem processSample_error_sample_always_counted
    (sql : bool) (mt : TimeFrame) (sample : Sample)
    (activation : option Activation) (st : ProcState) :
  bi sample = None ->
  ts sample = None ->
  truthy_err (taidError sample) || truthy_err (aaidError sample) = true ->
  processSample sql mt sample activation st
  = {| tp := {| attempts := attempts (tp st) + 1;
                invocations := invocations (tp st);
                activations := activations (tp st);
                requests := requests (tp st) + 1;
                errors := errors (tp st) + 1 |};
       lat := lat st;
       sqlCalls := sqlCalls st |}.
Proof.
  intros Hbi Hts Herr. unfold processSample. rewrite Hbi, Hts.
  cbn [js_lt js_gt orb truthy andb].
  destruct (truthy_err (taidError sample)); [reflexivity |].
  cbn [orb] in Herr. rewrite Herr. reflexivity.
Qed.

Lemma processSample_error_sample_always_counted_witness :
  processSample false measurementTime0 rejectedSample None ProcState0
  = {| tp := {| attempts := 0 + 1; invocations := 0; activations := 0;
                requests := 0 + 1; errors := 0 + 1 |};
       lat := latCounters0;
       sqlCalls := [] |}.
Proof.
  exact (processSample_error_sample_always_counted
           false measurementTime0 rejectedSample None ProcState0
           eq_refl eq_refl eq_refl).
Defined.

(** X25. An activation record without timestamps passes the test of the
    time frame: for a sample in the time frame without errors, whose
    retrieved activation has neither [start] nor [end] (so that [parseInt]
    gives [NaN] for both), [processSample] still counts a full invocation,
    and folds nothing into [ta], [ad], [oea], [oer] and [ora]. *)
Theorem processSample_activation_without_timestamps
    (sql : bool) (mt : TimeFrame) (sample : Sample) (activation : Activation)
    (st : ProcState) (b : Z) :
  bi sample = Some b ->
  start mt <= b <= stop mt ->
  truthy_err (taidError sample) = false ->
  truthy_err (aaidError sample) = false ->
  act_start activation = None ->
  act_end activation = None ->
  let st' := processSample sql mt sample (Some activation) st in
  invocations (tp st') = invocations (tp st) + 1
  /\ attempts (tp st') = attempts (tp st) + 1
  /\ errors (tp st') = errors (tp st)
  /\ lat_get TA (lat st') = lat_get TA (lat st)
  /\ lat_get AD (lat st') = lat_get AD (lat st)
  /\ lat_get OEA (lat st') = lat_get OEA (lat st)
  /\ lat_get OER (lat st') = lat_get OER (lat st)
  /\ lat_get ORA (lat st') = lat_get ORA (lat st).
Proof.
  intros Hbi Hin Hterr Haerr Has Hae st'. subst st'.
  unfold processSample, parseInt. rewrite Hbi, Hterr, Haerr, Has, Hae.
  rewrite (window_tests mt b b) by lia.
  destruct (ai sample) as [i |], (ts sample) as [t |];
    cbn [js_lt js_gt js_sub orb];
    repeat match goal with
           | |- context [if ?c then _ else _] => destruct c
           end;
    cbn [tp lat with_tp with_lat attempts invocations errors activations requests
         incr_attempts incr_invocations incr_errors incr_activations incr_requests];
    (repeat split; try lia;
     repeat first
       [ reflexivity
       | rewrite updateLatSample_other by discriminate
       | rewrite (updateLatSample_falsy _ None) by reflexivity ]).
Qed.

Lemma processSample_activation_without_timestamps_witness :
  invocations (tp (processSample false (mkTimeFrame 0 100) (sampleAt 10)
                                 (Some (mkActivation None None (Some 5) []))
                                 ProcState0)) = 0 + 1
  /\ lat_get OEA (lat (processSample false (mkTimeFrame 0 100) (sampleAt 10)
                                     (Some (mkActivation None None (Some 5) []))
                                     ProcState0)) = lat_get OEA (lat ProcState0).
Proof.
  refine (let H := processSample_activation_without_timestamps
                     false (mkTimeFrame 0 100) (sampleAt 10)
                     (mkActivation None None (Some 5) []) ProcState0 10
                     eq_refl _ eq_refl eq_refl eq_refl eq_refl in
          conj (proj1 H) (proj1 (proj2 (proj2 (proj2 (proj2 (proj2 H))))))).
  simpl. lia.
Defined.

(** ** The barriers of summary and exit *)

(** The barriers after a sequence of calls, in terms of the number of
    summaries and of worker exits in it. *)
Lemma barriers_after (workers : Z) (calls : list BarrierCall) :
  1 <= workers ->
  Z.of_nat (List.length (filter isExit calls)) <= workers - 1 ->
  let s := Z.of_nat (List.length (filter isSummary calls)) in
  let e := Z.of_nat (List.length (filter isExit calls)) in
  fold_left barrierStep calls (Barriers0 workers)
  = {| remainingSummaries := workers - s;
       remainingExits := workers - e - (if workers <=? s then 1 else 0);
       effects := if workers <=? s
                  then if e =? workers - 1
                       then [ComputeOutputRecord; GenerateOutput]
                       else [ComputeOutputRecord]
                  else [] |}.
Proof.
  intros Hw. induction calls as [| c calls IH] using rev_ind; intros He.
  - cbn [filter List.length Z.of_nat fold_left]. unfold Barriers0.
    destruct (Z.leb_spec workers 0); [lia |]. f_equal; lia.
  - rewrite !filter_app, !length_app in *. rewrite fold_left_app.
    cbn [fold_left]. rewrite IH by lia. clear IH.
    set (s := Z.of_nat (List.length (filter isSummary calls))) in *.
    set (e := Z.of_nat (List.length (filter isExit calls))) in *.
    destruct c; cbn [filter isSummary isExit List.length barrierStep] in *;
      rewrite ?Nat.add_0_r, ?Nat.add_1_r, ?Nat2Z.inj_succ in *;
      fold s; fold e; fold s in He; fold e in He.
    + (* a summary *)
      unfold checkSummary, checkExit.
      cbn [remainingSummaries remainingExits effects].
      destruct (Z.eqb_spec (workers - s - 1) 0) as [E | E].
      * cbn [remainingSummaries remainingExits effects].
        destruct (Z.leb_spec workers s); [lia |].
        destruct (Z.leb_spec workers (Z.succ s)); [| lia].
        destruct (Z.eqb_spec (workers - e - 0 - 1) 0);
          destruct (Z.eqb_spec e (workers - 1)); try lia;
          cbn [app]; f_equal; lia.
      * destruct (Z.leb_spec workers s);
          destruct (Z.leb_spec workers (Z.succ s)); try lia;
          f_equal; lia.
    + (* the exit of a worker *)
      unfold checkExit. cbn [remainingSummaries remainingExits effects].
      destruct (Z.leb_spec workers s).
      * destruct (Z.eqb_spec e (workers - 1)); [lia |].
        destruct (Z.eqb_spec (Z.succ e) (workers - 1));
          destruct (Z.eqb_spec (workers - e - 1 - 1) 0); try lia;
          cbn [app]; f_equal; lia.
      * destruct (Z.eqb_spec (workers - e - 0 - 1) 0); [lia |]. f_equal; lia.
Qed.

(** X26. The output is generated once and only from a complete record:
    whatever the order in which the summaries and the exits of the (at most
    [workers - 1]) workers arrive, nothing is set off before [workers]
    summaries are in; then [computeOutputRecord] runs once; and
    [generateOutput] runs, once and after it, exactly when all [workers - 1]
    workers have also exited.  A worker that exits without its summary
    leaves the master without output. *)
Theorem barriers_effects (workers : Z) (calls : list BarrierCall) :
  1 <= workers ->
  Z.of_nat (List.length (filter isExit calls)) <= workers - 1 ->
  effects (fold_left barrierStep calls (Barriers0 workers))
  = if workers <=? Z.of_nat (List.length (filter isSummary calls))
    then if Z.of_nat (List.length (filter isExit calls)) =? workers - 1
         then [ComputeOutputRecord; GenerateOutput]
         else [ComputeOutputRecord]
    else [].
Proof.
  intros Hw He. rewrite (barriers_after workers calls Hw He). reflexivity.
Qed.

Lemma barriers_effects_witness :
  effects (fold_left barrierStep
                     [WorkerExit; SummaryReady; SummaryReady; WorkerExit; SummaryReady]
                     (Barriers0 3))
  = [ComputeOutputRecord; GenerateOutput].
Proof.
  apply (barriers_effects 3 [WorkerExit; SummaryReady; SummaryReady; WorkerExit;
                             SummaryReady]);
    simpl; lia.
Defined.

(** ** From the samples to the statistics *)

Lemma foldValues_snoc (m : StatName) (vs : list jsint) (v : jsint) (l : latCounters) :
  foldValues m (vs ++ [v]) l = updateLatSample m v (foldValues m vs l).
Proof. unfold foldValues. now rewrite fold_left_app. Qed.

Lemma updateLatSample_get_congr (m : StatName) (v : jsint) (l1 l2 : latCounters) :
  lat_get m l1 = lat_get m l2 ->
  lat_get m (updateLatSample m v l1) = lat_get m (updateLatSample m v l2).
Proof.
  intros H. unfold updateLatSample. destruct (negb (truthy v)); [exact H |].
  rewrite !lat_get_set_same. now rewrite H.
Qed.

Lemma processSample_complete get sql mt s dur st :
  completeSample get mt s dur ->
  lat_get D (lat (processSampleWithAction get sql mt s st))
  = lat_get D (updateLatSample D (Some dur) (lat st))
  /\ invocations (tp (processSampleWithAction get sql mt s st))
     = invocations (tp st) + 1.
Proof.
  intros [b [a [e [act [Hbi [Hb [Hterr [Haerr [Hget [Has [Ha [Hae [He [Hd Hpos]]]]]]]]]]]]]].
  unfold processSampleWithAction. rewrite Haerr, Hget.
  unfold processSample, parseInt. rewrite Hbi, Hterr, Haerr, Has, Hae, Hd.
  rewrite (window_tests mt b b) by lia.
  rewrite (window_tests mt a e) by lia.
  repeat match goal with
         | |- context [if ?c then _ else _] => destruct c
         end;
    cbn [tp lat with_tp with_lat attempts invocations errors activations requests
         incr_attempts incr_invocations incr_errors incr_activations incr_requests];
    (split; [| lia]);
    repeat rewrite updateLatSample_other by discriminate; reflexivity.
Qed.

Lemma postProcess_complete get sql mt (sampleData : list Sample) (durs : list Z) :
  Forall2 (completeSample get mt) sampleData durs ->
  forall (st : ProcState) (seen : list Z),
    lat_get D (lat st) = lat_get D (foldValues D (map Some seen) latCounters0) ->
    invocations (tp st) = Z.of_nat (List.length seen) ->
    exists st' : ProcState,
      postProcess get sql mt ACTION sampleData st = Some st'
      /\ lat_get D (lat st')
         = lat_get D (foldValues D (map Some (seen ++ durs)) latCounters0)
      /\ invocations (tp st') = Z.of_nat (List.length (seen ++ durs)).
Proof.
  induction 1 as [| s dur sampleData durs Hs _ IH]; intros st seen Hlat Hinv.
  - exists st. rewrite app_nil_r. repeat split; assumption.
  - cbn [postProcess postProcessSample Activity_eqb].
    destruct (processSample_complete get sql mt s dur st Hs) as [Hl Hi].
    destruct (IH (processSampleWithAction get sql mt s st) (seen ++ [dur]))
      as [st' [Hrun [Hl' Hi']]].
    + rewrite Hl, map_app. cbn [map]. rewrite foldValues_snoc.
      now apply updateLatSample_get_congr.
    + rewrite Hi, Hinv, length_app. simpl. lia.
    + exists st'. rewrite <- app_assoc in Hl', Hi'. repeat split; assumption.
Qed.

(** X27. Post-processing feeds the aggregation: when every action sample
    of the buffer is a full invocation (in the time frame, without error,
    with an activation that is retrieved, lies in the time frame and reports
    a positive duration), [postProcess] from the initial counters ends with
    the accumulator of [d] holding the statistics of these durations and
    [invocations] their number; so the summary of the process meets the
    condition under which [computeLatStats] returns their mean between
    [min] and [max]. *)
Theorem postProcess_measures_durations
    (get : option string -> option Activation) (sql : bool) (mt : TimeFrame)
    (sampleData : list Sample) (durs : list Z) :
  Forall2 (completeSample get mt) sampleData durs ->
  exists st' : ProcState,
    postProcess get sql mt ACTION sampleData ProcState0 = Some st'
    /\ invocations (tp st') = Z.of_nat (List.length sampleData)
    /\ lat_get D (lat st') = statsOf durs
    /\ measured D (mkSummary (lat st') (tp st')) durs.
Proof.
  intros Hall.
  destruct (postProcess_complete get sql mt sampleData durs Hall ProcState0 [])
    as [st' [Hrun [Hlat Hinv]]]; [reflexivity | reflexivity |].
  cbn [app] in Hlat, Hinv.
  assert (Hpos : forall v, In v durs -> 0 < v).
  { clear Hrun Hlat Hinv. induction Hall as [| s dur ss ds Hs _ IH]; intros v Hv.
    - destruct Hv.
    - destruct Hv as [<- | Hv]; [| now apply IH].
      destruct Hs as [b [a [e [act H]]]]. tauto. }
  exists st'. split; [exact Hrun |]. split; [| split].
  - rewrite Hinv. f_equal. symmetry. eapply Forall2_length. exact Hall.
  - rewrite Hlat, foldValues_statsOf. now rewrite nonzero_positive.
  - split; [exact Hpos |]. split; [exact Hlat | exact Hinv].
Qed.

Lemma postProcess_measures_durations_witness :
  exists st' : ProcState,
    postProcess examplePlatform false (mkTimeFrame 0 100) ACTION completeSamples
                ProcState0 = Some st'
    /\ invocations (tp st') = Z.of_nat (List.length completeSamples)
    /\ lat_get D (lat st') = statsOf [5; 5]
    /\ measured D (mkSummary (lat st') (tp st')) [5; 5].
Proof.
  apply (postProcess_measures_durations examplePlatform false (mkTimeFrame 0 100)
                                        completeSamples [5; 5]).
  repeat constructor.
  - exists 10, 20, 40, (mkActivation (Some 20) (Some 40) (Some 5) []).
    simpl. repeat split; try reflexivity; lia.
  - exists 15, 25, 45, (mkActivation (Some 25) (Some 45) (Some 5) []).
    simpl. repeat split; try reflexivity; lia.
Defined.
